(** * Confessions Anonymous: a shallow embedding of the client logic

    The development follows the TypeScript sources:
    - [types.ts]            the data model (section "Data model");
    - [geminiService.ts]    [analyzeConfession]            (module [Gemini]);
    - [supabaseService.ts]  fetch / insert / update         (module [Supabase]);
    - [App.tsx]             the state container and handlers (module [App]);
    - [CreatePostModal.tsx] the post form                    (module [CreatePost]).

    Data have their declared TypeScript types.  Numbers are JavaScript
    numbers holding integers and are modelled by [Z]; strings are held in
    UTF-8; objects used as dictionaries are [gmap]s of their own properties,
    read through [JS.read], which also finds what every object inherits;
    arrays are lists; a promise is its settled result. *)

From Stdlib Require Import ZArith List Ascii String Bool Lia Sorted Permutation.
From stdpp Require Import base option list gmap strings pretty.

Open Scope string_scope.
Open Scope list_scope.
Open Scope Z_scope.

(** ** Data model ([types.ts]) *)

Inductive ReactionType := love | funny | sad | shock | fire.
Inductive PostType := text_post | poll_post | video_post.
Inductive Sentiment := happy | sad_mood | angry | funny_mood | neutral | romantic.
Inductive Tab := home | search | profile.

#[global] Instance ReactionType_eq_dec : EqDecision ReactionType.
Proof. solve_decision. Defined.
#[global] Instance PostType_eq_dec : EqDecision PostType.
Proof. solve_decision. Defined.
#[global] Instance Sentiment_eq_dec : EqDecision Sentiment.
Proof. solve_decision. Defined.

Record PollOption := mkPollOption {
  opt_id : string;
  opt_text : string;
  votes : Z }.

Record Avatar := mkAvatar {
  av_name : string;
  av_color : string;
  av_icon : string }.

Record Comment := mkComment {
  cm_id : string;
  cm_text : string;
  cm_timestamp : Z;
  cm_authorAvatar : Avatar }.

(** [Record<ReactionType, number>]: one tally per reaction kind. *)
Record Reactions := mkReactions {
  r_love : Z; r_funny : Z; r_sad : Z; r_shock : Z; r_fire : Z }.

Definition tally (r : Reactions) (t : ReactionType) : Z :=
  match t with
  | love => r_love r | funny => r_funny r | sad => r_sad r
  | shock => r_shock r | fire => r_fire r
  end.

(** [{ ...r, [t]: v }] *)
Definition set_tally (t : ReactionType) (v : Z) (r : Reactions) : Reactions :=
  match t with
  | love  => mkReactions v (r_funny r) (r_sad r) (r_shock r) (r_fire r)
  | funny => mkReactions (r_love r) v (r_sad r) (r_shock r) (r_fire r)
  | sad   => mkReactions (r_love r) (r_funny r) v (r_shock r) (r_fire r)
  | shock => mkReactions (r_love r) (r_funny r) (r_sad r) v (r_fire r)
  | fire  => mkReactions (r_love r) (r_funny r) (r_sad r) (r_shock r) v
  end.

(** [Object.values(reactions).reduce((x, y) => x + y, 0)] *)
Definition total_reactions (r : Reactions) : Z :=
  r_love r + r_funny r + r_sad r + r_shock r + r_fire r.

Record AIAnalysisResult := mkAI {
  ai_tags : list string;
  ai_sentiment : Sentiment;
  ai_emoji : string;
  ai_colorTheme : string;
  ai_isSafe : bool;
  ai_flagReason : option string }.

Record Confession := mkConfession {
  id : string;
  type : PostType;
  text : string;
  image : option string;
  audio : option string;
  video : option string;
  pollOptions : option (list PollOption);
  timestamp : Z;
  authorAvatar : Avatar;
  reactions : Reactions;
  comments : list Comment;
  tags : list string;
  sentiment : Sentiment;
  emoji : string;
  colorTheme : string;
  isSafe : bool;
  flagReason : option string }.

(** [Omit<Confession, 'id' | 'timestamp' | 'reactions' | 'comments' | 'authorAvatar'>] *)
Record NewPostData := mkNewPost {
  np_type : PostType;
  np_text : string;
  np_image : option string;
  np_audio : option string;
  np_video : option string;
  np_pollOptions : option (list PollOption);
  np_ai : AIAnalysisResult }.

(** [reactedPosts] and [votedPolls] are plain objects used as dictionaries,
    keyed by confession identifiers; the maps hold their own properties, and
    a read goes through [JS.read] below.  The source guards [votedPolls] with
    [?.] and [|| {}]; by its type the dictionary is present, as it is here. *)
Record UserSessionData := mkSession {
  avatar : Avatar;
  xp : Z;
  level : Z;
  reactedPosts : gmap string ReactionType;
  votedPolls : gmap string string }.

Definition set_reactions (r : Reactions) (c : Confession) : Confession :=
  mkConfession (id c) (type c) (text c) (image c) (audio c) (video c)
    (pollOptions c) (timestamp c) (authorAvatar c) r (comments c) (tags c)
    (sentiment c) (emoji c) (colorTheme c) (isSafe c) (flagReason c).

Definition set_comments (cs : list Comment) (c : Confession) : Confession :=
  mkConfession (id c) (type c) (text c) (image c) (audio c) (video c)
    (pollOptions c) (timestamp c) (authorAvatar c) (reactions c) cs (tags c)
    (sentiment c) (emoji c) (colorTheme c) (isSafe c) (flagReason c).

Definition set_pollOptions (os : list PollOption) (c : Confession) : Confession :=
  mkConfession (id c) (type c) (text c) (image c) (audio c) (video c)
    (Some os) (timestamp c) (authorAvatar c) (reactions c) (comments c) (tags c)
    (sentiment c) (emoji c) (colorTheme c) (isSafe c) (flagReason c).

(** [Partial<Confession>] as passed to [updateConfession]. *)
Record ConfessionUpdate := mkUpdate {
  u_reactions : option Reactions;
  u_comments : option (list Comment);
  u_pollOptions : option (list PollOption) }.

(** JavaScript truthiness of a string: every string but the empty one. *)
Definition truthy (s : string) : bool :=
  match s with EmptyString => false | String _ _ => true end.

(** ** JavaScript built-ins used by the sources *)

Module JS.

(** *** Strings.  A string is held as the bytes of its UTF-8 encoding, as the
    source files hold their literals; on such strings [includes],
    [startsWith] and [split] at an ASCII separator give the same answer on
    bytes as on characters.  [toLowerCase] follows the Unicode tables of the
    runtime and is taken as a parameter where it is called
    ([App.searchResults]). *)

Definition utf8 (bytes : list Z) : string :=
  fold_right (fun n s => String (ascii_of_N (Z.to_N n)) s) EmptyString bytes.

(** The characters [trim] removes: the WhiteSpace and LineTerminator code
    points of the language. *)
Definition white_space : list string :=
  [utf8 [9];               (* U+0009 character tabulation *)
   utf8 [10];              (* U+000A line feed *)
   utf8 [11];              (* U+000B line tabulation *)
   utf8 [12];              (* U+000C form feed *)
   utf8 [13];              (* U+000D carriage return *)
   utf8 [32];              (* U+0020 space *)
   utf8 [194; 160];        (* U+00A0 no-break space *)
   utf8 [225; 154; 128];   (* U+1680 ogham space mark *)
   utf8 [226; 128; 128];   (* U+2000 en quad *)
   utf8 [226; 128; 129];   (* U+2001 em quad *)
   utf8 [226; 128; 130];   (* U+2002 en space *)
   utf8 [226; 128; 131];   (* U+2003 em space *)
   utf8 [226; 128; 132];   (* U+2004 three-per-em space *)
   utf8 [226; 128; 133];   (* U+2005 four-per-em space *)
   utf8 [226; 128; 134];   (* U+2006 six-per-em space *)
   utf8 [226; 128; 135];   (* U+2007 figure space *)
   utf8 [226; 128; 136];   (* U+2008 punctuation space *)
   utf8 [226; 128; 137];   (* U+2009 thin space *)
   utf8 [226; 128; 138];   (* U+200A hair space *)
   utf8 [226; 128; 168];   (* U+2028 line separator *)
   utf8 [226; 128; 169];   (* U+2029 paragraph separator *)
   utf8 [226; 128; 175];   (* U+202F narrow no-break space *)
   utf8 [226; 129; 159];   (* U+205F medium mathematical space *)
   utf8 [227; 128; 128];   (* U+3000 ideographic space *)
   utf8 [239; 187; 191]].  (* U+FEFF zero width no-break space *)

Fixpoint string_rev_app (s acc : string) : string :=
  match s with
  | EmptyString => acc
  | String c s' => string_rev_app s' (String c acc)
  end.

Definition string_rev (s : string) : string := string_rev_app s EmptyString.

Section Strip.

(** The characters to remove, each of one to three bytes. *)
Variable table : list string.

Definition listed (w : string) : bool := existsb (String.eqb w) table.

(** The string without the listed characters it starts with. *)
Fixpoint strip (s : string) : string :=
  match s with
  | EmptyString => s
  | String a s1 =>
      if listed (String a EmptyString) then strip s1
      else
        match s1 with
        | EmptyString => s
        | String b s2 =>
            if listed (String a (String b EmptyString)) then strip s2
            else
              match s2 with
              | EmptyString => s
              | String c s3 =>
                  if listed (String a (String b (String c EmptyString)))
                  then strip s3 else s
              end
        end
  end.

End Strip.

(** [s.trimStart()] *)
Definition trimStart (s : string) : string := strip white_space s.

(** [s.trimEnd()]: the same from the other end, on the bytes in reverse. *)
Definition trimEnd (s : string) : string :=
  string_rev (strip (List.map string_rev white_space) (string_rev s)).

(** [s.trim()] *)
Definition trim (s : string) : string := trimEnd (trimStart s).

(** [s.length] *)
Definition length (s : string) : Z := Z.of_nat (String.length s).

(** [s.startsWith(q)] *)
Fixpoint startsWith (s q : string) {struct q} : bool :=
  match q, s with
  | EmptyString, _ => true
  | String _ _, EmptyString => false
  | String a q', String b s' => Ascii.eqb a b && startsWith s' q'
  end.

(** [s.includes(q)] *)
Fixpoint includes (s q : string) : bool :=
  startsWith s q ||
  match s with
  | EmptyString => false
  | String _ s' => includes s' q
  end.

(** [s.split(',')] *)
Fixpoint split_on (sep : ascii) (cur : string) (s : string) : list string :=
  match s with
  | EmptyString => [string_rev cur]
  | String c s' =>
      if Ascii.eqb c sep then string_rev cur :: split_on sep EmptyString s'
      else split_on sep (String c cur) s'
  end.

Definition split (sep : ascii) (s : string) : list string := split_on sep EmptyString s.

(** *** [Array.prototype.sort] with a comparator.  The sort is stable; [le a b]
    stands for [compare(a, b) <= 0].  For a consistent comparator the result
    of a stable sort is unique, and insertion from the right computes it. *)

Section Sort.
Context {A : Type}.
Variable le : A -> A -> bool.

Fixpoint insert_sorted (x : A) (l : list A) : list A :=
  match l with
  | [] => [x]
  | y :: ys => if le x y then x :: y :: ys else y :: insert_sorted x ys
  end.

Fixpoint sort (l : list A) : list A :=
  match l with
  | [] => []
  | x :: xs => insert_sorted x (sort xs)
  end.

End Sort.

(** *** Ordinary objects used as dictionaries.  An object keeps its own
    string-keyed properties in creation order; enumeration
    ([Object.entries], [OrdinaryOwnPropertyKeys]) lists the keys that are
    array indices first, in ascending numeric order, and then the other keys
    in creation order.  The list holds the own properties; what a read or
    an assignment does for a key that the object inherits is given with
    [inherited] below. *)

Definition digit_val (c : ascii) : option Z :=
  let n := Z.of_nat (nat_of_ascii c) in
  if (48 <=? n) && (n <=? 57) then Some (n - 48) else None.

Fixpoint parse_digits (acc : Z) (s : string) : option Z :=
  match s with
  | EmptyString => Some acc
  | String c s' =>
      match digit_val c with
      | Some d => parse_digits (acc * 10 + d) s'
      | None => None
      end
  end.

(** The canonical numeric strings of the integers 0 .. 2^32 - 2. *)
Definition array_index (s : string) : option Z :=
  match s with
  | EmptyString => None
  | String c s' =>
      if Ascii.eqb c "0"%char && negb (String.eqb s' EmptyString) then None
      else match parse_digits 0 s with
           | Some n => if n <=? 4294967294 then Some n else None
           | None => None
           end
  end.

Definition is_index (s : string) : bool :=
  match array_index s with Some _ => true | None => false end.

Definition index_value (s : string) : Z :=
  match array_index s with Some n => n | None => 0 end.

Section Object.
Context {V : Type}.

(** Own properties, in creation order. *)
Definition object := list (string * V).

(** [o[k]] *)
Fixpoint get (k : string) (o : object) : option V :=
  match o with
  | [] => None
  | (k', v) :: o' => if String.eqb k' k then Some v else get k o'
  end.

(** [o[k] = v]: an existing property keeps its place, a new one is created
    last. *)
Fixpoint set (k : string) (v : V) (o : object) : object :=
  match o with
  | [] => [(k, v)]
  | (k', v') :: o' =>
      if String.eqb k' k then (k', v) :: o' else (k', v') :: set k v o'
  end.

Definition index_le (a b : string * V) : bool :=
  index_value (fst a) <=? index_value (fst b).

(** [Object.entries(o)] *)
Definition entries (o : object) : list (string * V) :=
  sort index_le (List.filter (fun e => is_index (fst e)) o)
  ++ List.filter (fun e => negb (is_index (fst e))) o.

End Object.

(** *** Properties inherited from [Object.prototype].  Object literals and the
    objects made by [JSON.parse] inherit them: a read [o[k]] that finds no own
    property [k] yields the inherited value, a function for the eleven names
    below and the prototype object itself for [__proto__]; each is truthy and
    is no string and no number.  An assignment [o[k] = v] creates an own
    property, except for [__proto__], where it reaches the inherited setter,
    which ignores a [v] that is not an object. *)

Definition prototype_functions : list string :=
  ["constructor"; "__defineGetter__"; "__defineSetter__"; "hasOwnProperty";
   "__lookupGetter__"; "__lookupSetter__"; "isPrototypeOf";
   "propertyIsEnumerable"; "toString"; "valueOf"; "toLocaleString"].

Definition inherited (k : string) : bool :=
  existsb (String.eqb k) prototype_functions || String.eqb k "__proto__".

(** The value of a read [o[k]] on a dictionary of own properties. *)
Inductive Read (V : Type) :=
| Own (v : V)
| Inherited
| Undefined.
Arguments Own {V} v.
Arguments Inherited {V}.
Arguments Undefined {V}.

Definition read {V : Type} (o : gmap string V) (k : string) : Read V :=
  match o !! k with
  | Some v => Own v
  | None => if inherited k then Inherited else Undefined
  end.

End JS.

(** ** The application state and its handlers ([App.tsx]) *)

Module App.

Record State := mkState {
  confessions : list Confession;
  userSession : UserSessionData;
  activeTab : Tab;
  alerts : list string }.

Definition setConfessions (f : list Confession -> list Confession) (st : State) : State :=
  mkState (f (confessions st)) (userSession st) (activeTab st) (alerts st).

Definition setUserSession (f : UserSessionData -> UserSessionData) (st : State) : State :=
  mkState (confessions st) (f (userSession st)) (activeTab st) (alerts st).

Definition setActiveTab (t : Tab) (st : State) : State :=
  mkState (confessions st) (userSession st) t (alerts st).

Definition alert (msg : string) (st : State) : State :=
  mkState (confessions st) (userSession st) (activeTab st) (alerts st ++ [msg]).

(** [addXP]: [newXP = prev.xp + amount], [newLevel = Math.floor(newXP / 100) + 1]. *)
Definition addXP (amount : Z) (st : State) : State :=
  setUserSession (fun prev =>
    let newXP := xp prev + amount in
    let newLevel := newXP / 100 + 1 in
    mkSession (avatar prev) newXP newLevel (reactedPosts prev) (votedPolls prev)) st.

(** [confessions.find(c => c.id === id)] *)
Definition find_confession (i : string) (cs : list Confession) : option Confession :=
  List.find (fun c => String.eqb (id c) i) cs.

(** [prev.map(c => c.id === id ? f c : c)] *)
Definition update_where (i : string) (f : Confession -> Confession)
    (cs : list Confession) : list Confession :=
  List.map (fun c => if String.eqb (id c) i then f c else c) cs.

Definition zero_reactions : Reactions := mkReactions 0 0 0 0 0.

(** The object literal [newConfession] of [handlePost]:
    [{ id, timestamp, reactions, comments, authorAvatar, isSafe: true,
       ...newPostData }]; the spread comes last and carries its own [isSafe]. *)
Definition newConfession (rid : string) (now : Z) (author : Avatar)
    (newPostData : NewPostData) : Confession :=
  let a := np_ai newPostData in
  mkConfession rid (np_type newPostData) (np_text newPostData)
    (np_image newPostData) (np_audio newPostData) (np_video newPostData)
    (np_pollOptions newPostData) now author
    zero_reactions [] (ai_tags a) (ai_sentiment a) (ai_emoji a)
    (ai_colorTheme a) (ai_isSafe a) (ai_flagReason a).

Section Handlers.

(** The remote data-access module, seen from the handlers: each call
    resolves to the boolean success flag. *)
Variable insertConfession : Confession -> bool.
Variable updateConfession : string -> ConfessionUpdate -> bool.

(** [handlePost]; [rid] is the value of
    [Math.random().toString(36).substr(2, 9)] and [now] that of [Date.now()].
    The optimistic insertion is commented out in the source, the filter of
    the failure branch is not. *)
Definition handlePost (rid : string) (now : Z) (newPostData : NewPostData)
    (st : State) : State :=
  let newConfession := newConfession rid now (avatar (userSession st)) newPostData in
  let success := insertConfession newConfession in
  if negb success then
    alert "Failed to post confession. Please try again."
      (setConfessions
         (List.filter (fun c => negb (String.eqb (id c) (id newConfession)))) st)
  else
    setActiveTab home (addXP 20 st).

(** [handleReact] *)
Definition handleReact (i : string) (ty : ReactionType) (st : State) : State :=
  match find_confession i (confessions st) with
  | None => st
  | Some confession =>
    let us := userSession st in
    if decide (reactedPosts us !! i = Some ty) then
      (* Remove reaction: [reactedPosts[id] === type] holds of an own entry
         only, an inherited value being no string.  The copy
         [{ ...userSession }] is shallow: [delete] acts on the [reactedPosts]
         object shared with the previous session, which is not read again. *)
      let newSession :=
        mkSession (avatar us) (xp us) (level us)
          (delete i (reactedPosts us)) (votedPolls us) in
      let st1 := setUserSession (fun _ => newSession) st in
      let updatedReactions :=
        set_tally ty (Z.max 0 (tally (reactions confession) ty - 1))
          (reactions confession) in
      let st2 := setConfessions (update_where i (set_reactions updatedReactions)) st1 in
      let _ := updateConfession i (mkUpdate (Some updatedReactions) None None) in
      st2
    else
      (* Add/Change reaction.  An inherited [oldType] is truthy and is not a
         reaction kind: no points are given and no kind is lowered.  (The
         assignment [updatedReactions[oldType] = ...] then writes under a key
         that is none of the five of [Record<ReactionType, number>]; the
         record of the five tallies does not hold it.) *)
      let oldType := JS.read (reactedPosts us) i in
      let newSession :=
        mkSession (avatar us) (xp us) (level us)
          (<[i := ty]> (reactedPosts us)) (votedPolls us) in
      let st1 := setUserSession (fun _ => newSession) st in
      let st2 := match oldType with JS.Undefined => addXP 2 st1 | _ => st1 end in
      let r0 := reactions confession in
      let r1 := match oldType with
                | JS.Own o => set_tally o (Z.max 0 (tally r0 o - 1)) r0
                | _ => r0
                end in
      let updatedReactions := set_tally ty (tally r1 ty + 1) r1 in
      let st3 := setConfessions (update_where i (set_reactions updatedReactions)) st2 in
      let _ := updateConfession i (mkUpdate (Some updatedReactions) None None) in
      st3
  end.

(** [handleComment]; [rid] and [now] as in [handlePost]. *)
Definition handleComment (rid : string) (now : Z) (i : string) (txt : string)
    (st : State) : State :=
  match find_confession i (confessions st) with
  | None => st
  | Some confession =>
    let newComment := mkComment rid txt now (avatar (userSession st)) in
    let updatedComments := comments confession ++ [newComment] in
    let st1 := setConfessions (update_where i (set_comments updatedComments)) st in
    let _ := updateConfession i (mkUpdate None (Some updatedComments) None) in
    addXP 5 st1
  end.

(** [userSession.votedPolls?.[confessionId]] used as a condition. *)
Definition has_voted (us : UserSessionData) (confessionId : string) : bool :=
  match JS.read (votedPolls us) confessionId with
  | JS.Own o => truthy o
  | JS.Inherited => true
  | JS.Undefined => false
  end.

Definition vote_option (optionId : string) (opt : PollOption) : PollOption :=
  if String.eqb (opt_id opt) optionId
  then mkPollOption (opt_id opt) (opt_text opt) (votes opt + 1)
  else opt.

(** [handleVote] *)
Definition handleVote (confessionId optionId : string) (st : State) : State :=
  let us := userSession st in
  if has_voted us confessionId then st
  else
    match find_confession confessionId (confessions st) with
    | None => st
    | Some confession =>
      match pollOptions confession with
      | None => st
      | Some opts =>
        let newSession :=
          mkSession (avatar us) (xp us) (level us) (reactedPosts us)
            (<[confessionId := optionId]> (votedPolls us)) in
        let st1 := addXP 5 (setUserSession (fun _ => newSession) st) in
        let updatedPollOptions := List.map (vote_option optionId) opts in
        let st2 := setConfessions
                     (update_where confessionId (set_pollOptions updatedPollOptions)) st1 in
        let _ := updateConfession confessionId
                   (mkUpdate None None (Some updatedPollOptions)) in
        st2
      end
    end.

End Handlers.

(** [totalVotes] of the card:
    [pollOptions.reduce((acc, opt) => acc + opt.votes, 0)]. *)
Definition totalVotes (opts : list PollOption) : Z :=
  fold_left (fun acc opt => acc + votes opt) opts 0.

(** All tallies of a reaction record are non-negative. *)
Definition nonneg (r : Reactions) : Prop := forall k, 0 <= tally r k.

Section Search.

(** [String.prototype.toLowerCase] of the runtime. *)
Variable toLowerCase : string -> string.

(** [searchResults] *)
Definition matches_query (lowerQ : string) (c : Confession) : bool :=
  JS.includes (toLowerCase (text c)) lowerQ
  || existsb (fun t => JS.includes (toLowerCase t) lowerQ) (tags c).

Definition searchResults (confessions : list Confession) (searchQuery : string)
    : list Confession :=
  if negb (truthy (JS.trim searchQuery)) then []
  else
    let lowerQ := toLowerCase searchQuery in
    List.filter (matches_query lowerQ) confessions.

End Search.

(** A value of the [counts] object: a number, or a string that is not the
    text of a number. *)
Inductive Count :=
| Num (n : Z)
| Text.

(** [counts[t] || 0] on a number. *)
Definition or_zero (o : option Z) : Z :=
  match o with
  | Some n => if n =? 0 then 0 else n
  | None => 0
  end.

(** [(counts[t] || 0) + 1], given the own property [t] of [counts] if there is
    one.  Added to a string, an inherited function or the prototype object,
    [1] is appended to its text. *)
Definition next_count (t : string) (own : option Count) : Count :=
  match own with
  | Some (Num n) => Num (or_zero (Some n) + 1)
  | Some Text => Text
  | None => if JS.inherited t then Text else Num (or_zero None + 1)
  end.

(** [tags.forEach(t => counts[t] = (counts[t] || 0) + 1)]; the assignment to
    [__proto__] creates no property. *)
Definition count_tags (tags : list string) : JS.object (V := Count) :=
  fold_left (fun counts t =>
               if String.eqb t "__proto__" then counts
               else JS.set t (next_count t (JS.get t counts)) counts) tags [].

(** The comparator [(a, b) => b[1] - a[1]] is non-positive when
    [b[1] <= a[1]]. *)
Definition by_count_desc (a b : string * Z) : bool := snd b <=? snd a.

(** The entries when every count is a number.  With a count that is not one
    the comparator yields [NaN]; it is then no consistent comparator and the
    language leaves the order of the sorted array to the implementation. *)
Fixpoint numbers (es : list (string * Count)) : option (list (string * Z)) :=
  match es with
  | [] => Some []
  | (k, Num n) :: es' =>
      match numbers es' with
      | Some l => Some ((k, n) :: l)
      | None => None
      end
  | (_, Text) :: _ => None
  end.

(** [trendingTags]; [None] where the order is left to the implementation. *)
Definition trendingTags (confessions : list Confession) : option (list string) :=
  let all_tags := flat_map tags confessions in
  let counts := count_tags all_tags in
  match numbers (JS.entries counts) with
  | Some es => Some (List.map fst (firstn 10 (JS.sort by_count_desc es)))
  | None => None
  end.

End App.

(** ** The AI content-analysis wrapper ([geminiService.ts]) *)

Module Gemini.

(** The value of [JSON.parse]. *)
#[local] Unset Elimination Schemes.
Inductive json :=
| JNull
| JBool (b : bool)
| JNum (n : Z)
| JStr (s : string)
| JArr (items : list json)
| JObj (fields : list (string * json)).
#[local] Set Elimination Schemes.

Inductive Error :=
| RequestError (msg : string)   (* the request to the model failed *)
| SyntaxError                   (* thrown by [JSON.parse] *)
| PlainError (msg : string).    (* [new Error(msg)] *)

(** A settled promise. *)
Inductive Promise (A : Type) :=
| Fulfilled (a : A)
| Rejected (e : Error).
Arguments Fulfilled {A} a.
Arguments Rejected {A} e.

Inductive Part :=
| TextPart (t : string)
| InlineData (mimeType data : string).

Record Request := mkRequest {
  model : string;
  parts : list Part }.

(** The response of [generateContent]; [resp_text] is [response.text], which
    may be undefined. *)
Record Response := mkResponse { resp_text : option string }.

Definition dquote : string := String (ascii_of_nat 34) EmptyString.

Definition prompt : string :=
"
      Analyze this university student confession.
      1. Check if the content is safe (no hate speech, severe bullying, explicit NSFW, or self-harm). Set isSafe to true or false.
      2. Determine the sentiment (happy, sad, angry, funny, neutral, romantic).
      3. Choose a single emoji that best represents the mood.
      4. Generate 3 short, relevant tags (hashtags without the #).
      5. Suggest a vibrant hex color code that matches the mood.
    ".

(** [imageBase64.split(',')[1] || imageBase64] *)
Definition cleanBase64 (imageBase64 : string) : string :=
  match nth_error (JS.split ","%char imageBase64) 1 with
  | Some p => if truthy p then p else imageBase64
  | None => imageBase64
  end.

Definition build_parts (text : string) (imageBase64 : option string) : list Part :=
  [TextPart prompt;
   TextPart ("Confession Text: " +:+ dquote +:+ text +:+ dquote)]
  ++ match imageBase64 with
     | Some img => if truthy img then [InlineData "image/jpeg" (cleanBase64 img)] else []
     | None => []
     end.

(** The fallback object literal of the [catch] block. *)
Definition fallback : json :=
  JObj [("sentiment", JStr "neutral");
        ("emoji", JStr "😶");
        ("tags", JArr [JStr "anonymous"; JStr "student"]);
        ("colorTheme", JStr "#64748b");
        ("isSafe", JBool true)].

Section Analyze.

(** The model endpoint and the JSON parser ([None]: a [SyntaxError] is
    thrown). *)
Variable generateContent : Request -> Promise Response.
Variable JSON_parse : string -> option json.

(** The body of the [try] block: either a value is returned or an error is
    thrown. *)
Definition try_block (text : string) (imageBase64 : option string) : Error + json :=
  let parts := build_parts text imageBase64 in
  match generateContent (mkRequest "gemini-2.5-flash" parts) with
  | Rejected e => inl e
  | Fulfilled response =>
      match resp_text response with
      | Some t =>
          if truthy t then
            match JSON_parse t with
            | Some v => inr v           (* [as AIAnalysisResult]: an unchecked cast *)
            | None => inl SyntaxError
            end
          else inl (PlainError "No response from AI")
      | None => inl (PlainError "No response from AI")
      end
  end.

(** [analyzeConfession]: the settled promise and the lines written with
    [console.error]. *)
Definition analyzeConfession (text : string) (imageBase64 : option string)
    : Promise json * list (string * Error) :=
  match try_block text imageBase64 with
  | inr v => (Fulfilled v, [])
  | inl error => (Fulfilled fallback, [("Gemini Analysis Error:", error)])
  end.

End Analyze.

(** The [responseSchema] of the request and the interface [AIAnalysisResult]:
    the five required properties with their types, the sentiment among the six
    enumerated values, [flagReason] optional. *)
Definition field (k : string) (v : json) : option json :=
  match v with
  | JObj fields => JS.get k fields
  | _ => None
  end.

Definition as_string (v : json) : option string :=
  match v with JStr s => Some s | _ => None end.

Definition as_bool (v : json) : option bool :=
  match v with JBool b => Some b | _ => None end.

Definition as_strings (v : json) : option (list string) :=
  match v with
  | JArr items => mapM as_string items
  | _ => None
  end.

Definition as_sentiment (v : json) : option Sentiment :=
  match v with
  | JStr s =>
      if String.eqb s "happy" then Some happy
      else if String.eqb s "sad" then Some sad_mood
      else if String.eqb s "angry" then Some angry
      else if String.eqb s "funny" then Some funny_mood
      else if String.eqb s "neutral" then Some neutral
      else if String.eqb s "romantic" then Some romantic
      else None
  | _ => None
  end.

Definition decode (v : json) : option AIAnalysisResult :=
  match field "sentiment" v, field "emoji" v, field "tags" v,
        field "colorTheme" v, field "isSafe" v with
  | Some s, Some e, Some t, Some c, Some b =>
      match as_sentiment s, as_string e, as_strings t, as_string c, as_bool b with
      | Some s, Some e, Some t, Some c, Some b =>
          match field "flagReason" v with
          | None => Some (mkAI t s e c b None)
          | Some r =>
              match as_string r with
              | Some r => Some (mkAI t s e c b (Some r))
              | None => None
              end
          end
      | _, _, _, _, _ => None
      end
  | _, _, _, _, _ => None
  end.

(** A parsed response violates the schema when it does not decode. *)
Definition violates_schema (v : json) : bool :=
  match decode v with Some _ => false | None => true end.

End Gemini.

(** ** The remote data-access module ([supabaseService.ts]) *)

Module Supabase.

(** A row of the [confessions] table; [null] columns are [None]. *)
Record Row := mkRow {
  row_id : string;
  row_type : PostType;
  row_text : string;
  row_image : option string;
  row_poll_options : option (list PollOption);
  row_timestamp : Z;
  row_reactions : Reactions;
  row_comments : option (list Comment);
  row_sentiment : Sentiment;
  row_emoji : string;
  row_tags : option (list string);
  row_color_theme : string;
  row_author_avatar : Avatar;
  row_is_safe : bool }.

Record PostgrestError := mkPgError { message : string }.

(** What the client library resolves to, destructured as [{ data, error }].
    The library reports a failed request in [error] and does not reject
    (no [throwOnError] is requested). *)
Record PostgrestResponse (A : Type) := mkPgResponse {
  data : option A;
  error : option PostgrestError }.
Arguments mkPgResponse {A} data error.
Arguments data {A} p.
Arguments error {A} p.

(** The library's response type is the union of a success ([error] null, [data]
    present) and a failure ([data] null, [error] present). *)
Definition well_formed {A} (r : PostgrestResponse A) : Prop :=
  match data r, error r with
  | Some _, None => True
  | None, Some _ => True
  | _, _ => False
  end.

Inductive JSError := TypeError (msg : string).

(** How a call completes. *)
Inductive Completion (A : Type) :=
| Returns (a : A)
| Throws (e : JSError).
Arguments Returns {A} a.
Arguments Throws {A} e.

(** Lines written with [console.error]. *)
Definition Console := list (string * PostgrestError).

(** [updateData] *)
Record UpdateData := mkUpdateData {
  ud_reactions : option Reactions;
  ud_comments : option (list Comment);
  ud_poll_options : option (list PollOption) }.

(** [x || undefined] on an optional string. *)
Definition or_undefined (x : option string) : option string :=
  match x with
  | Some s => if truthy s then Some s else None
  | None => None
  end.

(** The row-to-confession mapping of [fetchConfessions]; [audio], [video] and
    [flagReason] are not set. *)
Definition of_row (row : Row) : Confession :=
  mkConfession (row_id row) (row_type row) (row_text row)
    (or_undefined (row_image row)) None None
    (row_poll_options row) (row_timestamp row) (row_author_avatar row)
    (row_reactions row) (default [] (row_comments row))
    (default [] (row_tags row)) (row_sentiment row) (row_emoji row)
    (row_color_theme row) (row_is_safe row) None.

(** The confession-to-row mapping of [insertConfession]. *)
Definition to_row (confession : Confession) : Row :=
  mkRow (id confession) (type confession) (text confession)
    (or_undefined (image confession)) (pollOptions confession)
    (timestamp confession) (reactions confession) (Some (comments confession))
    (sentiment confession) (emoji confession) (Some (tags confession))
    (colorTheme confession) (authorAvatar confession) (isSafe confession).

Section Client.

(** The three queries issued through the client:
    [from('confessions').select('*').order('timestamp', ...)],
    [.insert([row])] and [.update(updateData).eq('id', id)]. *)
Variable select_all : PostgrestResponse (list Row).
Variable insert_rows : list Row -> PostgrestResponse unit.
Variable update_eq_id : UpdateData -> string -> PostgrestResponse unit.

(** [fetchConfessions] *)
Definition fetchConfessions : Completion (list Confession) * Console :=
  let r := select_all in
  match error r with
  | Some e => (Returns [], [("Error fetching confessions:", e)])
  | None =>
      match data r with
      | Some rows => (Returns (List.map of_row rows), [])
      | None => (Throws (TypeError "Cannot read properties of null (reading 'map')"), [])
      end
  end.

(** [insertConfession] *)
Definition insertConfession (confession : Confession) : Completion bool * Console :=
  match error (insert_rows [to_row confession]) with
  | Some e => (Returns false, [("Error inserting confession:", e)])
  | None => (Returns true, [])
  end.

(** [updateConfession] *)
Definition updateConfession (i : string) (updates : ConfessionUpdate)
    : Completion bool * Console :=
  let updateData :=
    mkUpdateData (u_reactions updates) (u_comments updates) (u_pollOptions updates) in
  match error (update_eq_id updateData i) with
  | Some e => (Returns false, [("Error updating confession:", e)])
  | None => (Returns true, [])
  end.

End Client.

End Supabase.

(** ** The post form ([CreatePostModal.tsx]) *)

Module CreatePost.

Record State := mkState {
  postType : PostType;
  text : string;
  image : option string;
  audio : option string;
  video : option string;
  pollOptions : list string;
  isAnalyzing : bool;
  closed : bool }.

(** The initial values of the [useState] hooks. *)
Definition init : State :=
  mkState text_post "" None None None [""; ""] false false.

Definition setPollOptions (os : list string) (st : State) : State :=
  mkState (postType st) (text st) (image st) (audio st) (video st) os
    (isAnalyzing st) (closed st).

Definition setPostType (t : PostType) (st : State) : State :=
  mkState t (text st) (image st) (audio st) (video st) (pollOptions st)
    (isAnalyzing st) (closed st).

Definition setText (s : string) (st : State) : State :=
  mkState (postType st) s (image st) (audio st) (video st) (pollOptions st)
    (isAnalyzing st) (closed st).

Definition setImage (s : option string) (st : State) : State :=
  mkState (postType st) (text st) s (audio st) (video st) (pollOptions st)
    (isAnalyzing st) (closed st).

Definition setAudio (s : option string) (st : State) : State :=
  mkState (postType st) (text st) (image st) s (video st) (pollOptions st)
    (isAnalyzing st) (closed st).

Definition setVideo (s : option string) (st : State) : State :=
  mkState (postType st) (text st) (image st) (audio st) s (pollOptions st)
    (isAnalyzing st) (closed st).

Definition setIsAnalyzing (b : bool) (st : State) : State :=
  mkState (postType st) (text st) (image st) (audio st) (video st)
    (pollOptions st) b (closed st).

Definition onClose (st : State) : State :=
  mkState (postType st) (text st) (image st) (audio st) (video st)
    (pollOptions st) (isAnalyzing st) true.

(** [handleAddOption] *)
Definition handleAddOption (st : State) : State :=
  if (length (pollOptions st) <? 4)%nat
  then setPollOptions (pollOptions st ++ [""]) st
  else st.

(** [handleOptionChange]: [newOptions[index] = value].  Inside the array the
    element is replaced.  Past its end JavaScript would grow the array; the
    form attaches the handler to the rendered options only
    ([pollOptions.map((opt, idx) => ...)]), so such an index is not produced
    and the function is left undefined there. *)
Definition handleOptionChange (index : nat) (value : string) (st : State)
    : option State :=
  if (index <? length (pollOptions st))%nat
  then Some (setPollOptions (<[index := value]> (pollOptions st)) st)
  else None.

(** [!s.trim()] *)
Definition blank (s : string) : bool := negb (truthy (JS.trim s)).

Definition nat_to_string (n : nat) : string := pretty n.
Definition Z_to_string (n : Z) : string := pretty n.

(** The option list handed to [onPost]: identifiers
    [`opt_${i}_${Date.now()}`], zero votes; [now i] is the clock as read for
    the option of index [i]. *)
Definition finalPollOptions (now : nat -> Z) (opts : list string) : list PollOption :=
  imap (fun i opt =>
          mkPollOption ("opt_" +:+ nat_to_string i +:+ "_" +:+ Z_to_string (now i)) opt 0)
       opts.

Section Submit.

(** [analyzeConfession] at its declared type (its result has the fields of
    [AIAnalysisResult] and no others: the object handed to [onPost] spreads
    it last), the answer to [window.confirm], and [Date.now()]. *)
Variable analyzeConfession : string -> option string -> AIAnalysisResult.
Variable confirm : bool.
Variable now : nat -> Z.

(** [handleSubmit]: the form state afterwards and the argument of [onPost],
    if it is called. *)
Definition handleSubmit (st : State) : State * option NewPostData :=
  if blank (text st) then (st, None)
  else if bool_decide (postType st = poll_post) && existsb blank (pollOptions st)
  then (st, None)
  else
    let st1 := setIsAnalyzing true st in
    let aiResult := analyzeConfession (text st) (image st) in
    if negb (ai_isSafe aiResult) && negb confirm then
      (setIsAnalyzing false st1, None)
    else
      let final :=
        if bool_decide (postType st = poll_post)
        then Some (finalPollOptions now (pollOptions st))
        else None in
      let post :=
        mkNewPost (postType st) (text st)
          (if bool_decide (postType st = text_post) then image st else None)
          (if bool_decide (postType st = text_post) then audio st else None)
          (if bool_decide (postType st = video_post) then video st else None)
          final aiResult in
      (onClose (setIsAnalyzing false st1), Some post).

End Submit.

(** What the user can do with the form between two submissions. *)
Inductive Event :=
| AddOption
| OptionChange (index : nat) (value : string)
| SetPostType (t : PostType)
| SetText (s : string)
| SetImage (s : option string)
| SetAudio (s : option string)
| SetVideo (s : option string).

Definition step (ev : Event) (st : State) : option State :=
  match ev with
  | AddOption => Some (handleAddOption st)
  | OptionChange i v => handleOptionChange i v st
  | SetPostType t => Some (setPostType t st)
  | SetText s => Some (setText s st)
  | SetImage s => Some (setImage s st)
  | SetAudio s => Some (setAudio s st)
  | SetVideo s => Some (setVideo s st)
  end.

(** The states of the form reachable from [init]. *)
Inductive reachable : State -> Prop :=
| reach_init : reachable init
| reach_step ev st st' : reachable st -> step ev st = Some st' -> reachable st'
| reach_submit analyze confirm now st :
    reachable st -> reachable (fst (handleSubmit analyze confirm now st)).

End CreatePost.

(** ** The feed, the start-up and the realtime channel ([App.tsx]) *)

Module AppView.

Inductive FeedFilter := all | popular | polls.

#[global] Instance FeedFilter_eq_dec : EqDecision FeedFilter.
Proof. solve_decision. Defined.

(** [Object.values(a.reactions)] *)
Definition values (r : Reactions) : list Z :=
  [r_love r; r_funny r; r_sad r; r_shock r; r_fire r].

(** [(Object.values(a.reactions) as number[]).reduce((x, y) => x + y, 0)] *)
Definition reaction_count (c : Confession) : Z :=
  fold_left Z.add (values (reactions c)) 0.

(** The comparators of the two sorts, [reactionsB - reactionsA] and
    [b.timestamp - a.timestamp], as [compare(a, b) <= 0]. *)
Definition by_reactions_desc (a b : Confession) : bool :=
  reaction_count b <=? reaction_count a.

Definition by_timestamp_desc (a b : Confession) : bool :=
  timestamp b <=? timestamp a.

Definition is_poll (c : Confession) : bool := bool_decide (type c = poll_post).

(** [feedConfessions] *)
Definition feedConfessions (confessions : list Confession) (feedFilter : FeedFilter)
    : list Confession :=
  let sorted := confessions in
  let sorted := if decide (feedFilter = polls) then List.filter is_poll sorted else sorted in
  if decide (feedFilter = popular) then JS.sort by_reactions_desc sorted
  else JS.sort by_timestamp_desc sorted.

(** The reactions figure of the profile:
    [Object.keys(userSession.reactedPosts).length]. *)
Definition reacted_count (us : UserSessionData) : Z :=
  Z.of_nat (size (reactedPosts us)).

Inductive Theme := dark | light.

(** The component state that [App.State] leaves out, and the two keys of the
    browser's local storage ([uni_confessions_user_session_v2] and
    [uni_theme]); what is stored is the value that was serialised. *)
Record State := mkState {
  app : App.State;
  isLoading : bool;
  theme : Theme;
  stored_session : option UserSessionData;
  stored_theme : option Theme }.

(** The initial values of the [useState] hooks; [first] is the avatar drawn
    by the first [generateAvatar()], [storage] what the browser holds. *)
Definition init (first : Avatar) (saved_session : option UserSessionData)
    (saved_theme : option Theme) : State :=
  mkState (App.mkState [] (mkSession first 0 1 ∅ ∅) home []) true dark
    saved_session saved_theme.

(** The two saving effects: they write when [isLoading] is false.  An effect
    runs after a render in which the session, the theme or the loading flag
    changed; writing an unchanged value again leaves the storage as it is, so
    the effects are applied after every event. *)
Definition save (st : State) : State :=
  if isLoading st then st
  else mkState (app st) false (theme st)
         (Some (App.userSession (app st))) (Some (theme st)).

Definition on_app (f : App.State -> App.State) (st : State) : State :=
  mkState (f (app st)) (isLoading st) (theme st) (stored_session st) (stored_theme st).

(** [toggleTheme] *)
Definition toggleTheme (st : State) : State :=
  mkState (app st) (isLoading st)
    (match theme st with dark => light | light => dark end)
    (stored_session st) (stored_theme st).

(** The callback given to [subscribeToConfessions]:
    [setConfessions(prev => [newConfession, ...prev])]. *)
Definition onInsert (newConfession : Confession) (st : App.State) : App.State :=
  App.setConfessions (cons newConfession) st.

Section Backend.

(** The queries of the data-access module, and [generateAvatar()] as drawn
    when [loadData] needs it. *)
Variable select_all : Supabase.PostgrestResponse (list Supabase.Row).
Variable insert_rows : list Supabase.Row -> Supabase.PostgrestResponse unit.
Variable update_eq_id : Supabase.UpdateData -> string -> Supabase.PostgrestResponse unit.
Variable drawn : Avatar.

(** The value a handler gets from [await insertConfession(...)] or
    [await updateConfession(...)]; neither call throws. *)
Definition awaited (r : Supabase.Completion bool * Supabase.Console) : bool :=
  match fst r with
  | Supabase.Returns b => b
  | Supabase.Throws _ => false
  end.

Definition insertConfession (c : Confession) : bool :=
  awaited (Supabase.insertConfession insert_rows c).

Definition updateConfession (i : string) (u : ConfessionUpdate) : bool :=
  awaited (Supabase.updateConfession update_eq_id i u).

(** [loadData]: the list is replaced by what was fetched, the session by the
    saved one or by a fresh one, the theme by the saved one if any.  If
    [fetchConfessions] threw, nothing after it would run. *)
Definition loadData (st : State) : State :=
  match fst (Supabase.fetchConfessions select_all) with
  | Supabase.Throws _ => st
  | Supabase.Returns fetchedConfessions =>
      let a := App.setConfessions (fun _ => fetchedConfessions) (app st) in
      let a := App.setUserSession
                 (fun _ => match stored_session st with
                           | Some savedSession => savedSession
                           | None => mkSession drawn 0 1 ∅ ∅
                           end) a in
      mkState a false
        (match stored_theme st with Some savedTheme => savedTheme | None => theme st end)
        (stored_session st) (stored_theme st)
  end.

(** What can happen to the mounted component.  The handlers are reachable
    from the rendered page only, that is once loading is over; realtime rows
    may arrive at any time, and [subscribeToConfessions] maps a pushed row
    field by field as [fetchConfessions] maps a fetched one. *)
Inductive Event :=
| Load
| RowInserted (row : Supabase.Row)
| ToggleTheme
| Post (rid : string) (now : Z) (newPostData : NewPostData)
| React (i : string) (ty : ReactionType)
| Comment (rid : string) (now : Z) (i txt : string)
| Vote (confessionId optionId : string).

Definition rendered (ev : Event) : bool :=
  match ev with
  | Load | RowInserted _ => false
  | _ => true
  end.

Definition handle (ev : Event) (st : State) : State :=
  match ev with
  | Load => loadData st
  | RowInserted row => on_app (onInsert (Supabase.of_row row)) st
  | ToggleTheme => toggleTheme st
  | Post rid now d => on_app (App.handlePost insertConfession rid now d) st
  | React i ty => on_app (App.handleReact updateConfession i ty) st
  | Comment rid now i txt => on_app (App.handleComment updateConfession rid now i txt) st
  | Vote pid oid => on_app (App.handleVote updateConfession pid oid) st
  end.

(** One event: the handler, then the saving effects. *)
Definition step (ev : Event) (st : State) : State :=
  if rendered ev && isLoading st then st else save (handle ev st).

Definition run (evs : list Event) (st : State) : State :=
  fold_left (fun st ev => step ev st) evs st.

End Backend.

End AppView.

(** ** The confession card ([ConfessionCard.tsx]) *)

Module Card.

(** [timeAgo]; [now] is [Date.now()].  The quotients are floored. *)
Definition timeAgo (now timestamp : Z) : string :=
  let seconds := (now - timestamp) / 1000 in
  if seconds <? 60 then "Just now"
  else
    let minutes := seconds / 60 in
    if minutes <? 60 then pretty minutes +:+ "m"
    else
      let hours := minutes / 60 in
      if hours <? 24 then pretty hours +:+ "h"
      else pretty (hours / 24) +:+ "d".

(** [handleCommentSubmit]: the draft afterwards and the state after the call
    of [onComment], if it is made. *)
Definition handleCommentSubmit {S : Type} (onComment : string -> string -> S -> S)
    (data : Confession) (newComment : string) (st : S) : string * S :=
  if truthy (JS.trim newComment) then ("", onComment (id data) newComment st)
  else (newComment, st).

(** [Math.max(...data.pollOptions.map(o => o.votes))]; [None] stands for the
    [-Infinity] of an empty list. *)
Definition max_votes (opts : list PollOption) : option Z :=
  fold_left (fun m o => match m with
                        | None => Some (votes o)
                        | Some v => Some (Z.max v (votes o))
                        end) opts None.

(** [isWinner] of an option of the poll. *)
Definition isWinner (opts : list PollOption) (option : PollOption) : bool :=
  match max_votes opts with
  | Some m => (m =? votes option) && (0 <? App.totalVotes opts)
  | None => false
  end.

End Card.

(** ** The audio recorder ([AudioRecorder.tsx]) *)

Module Recorder.

(** [s.padStart(2, '0')] *)
Definition padStart2 (s : string) : string :=
  match s with
  | EmptyString => "00"
  | String c EmptyString => String "0"%char s
  | _ => s
  end.

(** [formatTime]: [Math.floor(seconds / 60)] and [seconds % 60]. *)
Definition formatTime (seconds : Z) : string :=
  let mins := seconds / 60 in
  let secs := Z.rem seconds 60 in
  pretty mins +:+ ":" +:+ padStart2 (pretty secs).

End Recorder.

(** ** The image-styling wrapper ([geminiService.ts]) and its caller
    ([MatchmakerMode.tsx]) *)

Module Styling.

Inductive Style := cartoon | sketch | kawaii | anime.

#[global] Instance Style_eq_dec : EqDecision Style.
Proof. solve_decision. Defined.

Definition stylePrompt (style : Style) : string :=
  match style with
  | cartoon => "Turn this person into a 3D Pixar-style cartoon character. High quality, vibrant colors, smooth textures."
  | sketch => "Turn this photo into a detailed pencil sketch drawing. Black and white, artistic shading."
  | kawaii => "Turn this person into a cute 'Kawaii' illustration. Soft pink pastel colors, big eyes, dreamy aesthetic."
  | anime => "Turn this person into a high-quality Anime character. Studio Ghibli style, detailed background."
  end.

(** A part of the response; [part_inlineData] is [part.inlineData.data] when
    the part has inline data. *)
Record ResponsePart := mkPart { part_inlineData : option string }.

(** [response.candidates]; a candidate is its [content.parts], [None] when
    they are missing. *)
Record Response := mkResponse { candidates : option (list (option (list ResponsePart))) }.

Inductive Thrown :=
| CallError (e : Gemini.Error)      (* [generateContent] rejected *)
| TypeError                         (* a property of [undefined] was read *)
| NoImage.                          (* [new Error("No image generated")] *)

Inductive Promise (A : Type) :=
| Fulfilled (a : A)
| Rejected (e : Thrown).
Arguments Fulfilled {A} a.
Arguments Rejected {A} e.

Definition request (imageBase64 : string) (style : Style) : Gemini.Request :=
  Gemini.mkRequest "gemini-2.5-flash-image"
    [Gemini.InlineData "image/jpeg" (Gemini.cleanBase64 imageBase64);
     Gemini.TextPart (stylePrompt style +:+
       " Keep the facial expression and composition similar to the original image. Return ONLY the image.")].

(** The [for] loop over the parts: the first part with inline data. *)
Fixpoint first_image (parts : list ResponsePart) : option string :=
  match parts with
  | [] => None
  | part :: rest =>
      match part_inlineData part with
      | Some d => Some ("data:image/png;base64," +:+ d)
      | None => first_image rest
      end
  end.

Section Generate.

Variable generateContent : Gemini.Request -> Gemini.Promise Response.

Definition try_block (imageBase64 : string) (style : Style) : Thrown + string :=
  match generateContent (request imageBase64 style) with
  | Gemini.Rejected e => inl (CallError e)
  | Gemini.Fulfilled response =>
      match candidates response with
      | Some (Some parts :: _) =>
          match first_image parts with
          | Some url => inr url
          | None => inl NoImage
          end
      | _ => inl TypeError
      end
  end.

(** [generateStyledImage]: the [catch] block logs and throws again. *)
Definition generateStyledImage (imageBase64 : string) (style : Style)
    : Promise string * list (string * Thrown) :=
  match try_block imageBase64 style with
  | inr url => (Fulfilled url, [])
  | inl error => (Rejected error, [("Gemini Image Gen Error:", error)])
  end.

End Generate.

End Styling.

Module Matchmaker.

(** [cycleFilter]: [modes], [modes.indexOf(filterMode)] and the next index. *)
Definition modes : list Styling.Style :=
  [Styling.cartoon; Styling.anime; Styling.kawaii; Styling.sketch].

Fixpoint indexOf (m : Styling.Style) (l : list Styling.Style) (from : Z) : Z :=
  match l with
  | [] => -1
  | x :: l' => if decide (x = m) then from else indexOf m l' (from + 1)
  end.

Definition cycleFilter (filterMode : Styling.Style) : option Styling.Style :=
  let currentIdx := indexOf filterMode modes 0 in
  let nextIdx := Z.rem (currentIdx + 1) (Z.of_nat (length modes)) in
  modes !! Z.to_nat nextIdx.

Section Gallery.

(** The numbers [Math.random() * 10 - 5] and the like are kept abstract. *)
Variable Num : Type.

Record SavedPhoto := mkPhoto {
  photo_id : string;
  url : string;
  date : string;
  rotation : Num;
  xOffset : Num;
  yOffset : Num;
  filter : Styling.Style;
  caption : string }.

(** The part of the component state the gallery handlers use, and the key
    [uni_polaroids_v2] of the local storage. *)
Record State := mkState {
  currentPhoto : option string;
  tempPhoto : option string;
  dragActive : bool;
  filterMode : Styling.Style;
  savedPhotos : list SavedPhoto;
  stored : option (list SavedPhoto) }.





End Gallery.

End Matchmaker.

(** * Vocabulary of the properties *)

(** ** Strings *)

(** [made_of table s]: [s] is a sequence of strings of [table]. *)
Inductive made_of (table : list string) : string -> Prop :=
| made_nil : made_of table ""
| made_cons w s : In w table -> made_of table s -> made_of table (w +:+ s).

(** A string made of white space only; the empty string is one. *)
Definition all_space (s : string) : Prop := made_of JS.white_space s.




Definition lower_char (c : ascii) : ascii :=
  let n := nat_of_ascii c in
  if ((65 <=? n) && (n <=? 90))%nat then ascii_of_nat (n + 32) else c.

Fixpoint ascii_lower (s : string) : string :=
  match s with
  | EmptyString => EmptyString
  | String c s' => String (lower_char c) (ascii_lower s')
  end.




(** A string without the character [sep]. *)
Fixpoint free_of (sep : ascii) (s : string) : bool :=
  match s with
  | EmptyString => true
  | String c s' => negb (Ascii.eqb c sep) && free_of sep s'
  end.

(** Reading a number back from the two characters of the clock: a leading
    zero is dropped. *)
Definition unpad (s : string) : string :=
  match s with
  | String c (String d EmptyString) =>
      if Ascii.eqb c "0"%char then String d EmptyString else s
  | _ => s
  end.

(** ** Order in lists *)

(** [before a b l]: some occurrence of [a] in [l] comes before some occurrence
    of [b]. *)
Fixpoint before {A : Type} (a b : A) (l : list A) : Prop :=
  match l with
  | [] => False
  | x :: l' => (x = a /\ In b l') \/ before a b l'
  end.

(** A list is in comparator order when [le x y] holds of every [x] placed
    before a [y]. *)
Definition ordered {A : Type} (le : A -> A -> bool) (l : list A) : Prop :=
  forall x y, before x y l -> le x y = true.

(** How often a tag occurs in a list of tags. *)
Fixpoint occurrences (t : string) (l : list string) : Z :=
  match l with
  | [] => 0
  | x :: l' => (if String.eqb x t then 1 else 0) + occurrences t l'
  end.

(** [a] is first seen before [b]: [a] occurs at a place before which there is
    no [b]. *)
Definition seen_before (a b : string) (l : list string) : Prop :=
  exists l1 l2, l = l1 ++ a :: l2 /\ ~ In b l1 /\ a <> b.

(** The order in which the tag counts are enumerated. *)
Definition enumerated_before (a b : string) (all : list string) : Prop :=
  match JS.array_index a, JS.array_index b with
  | Some m, Some n => m < n
  | Some _, None => True
  | None, Some _ => False
  | None, None => seen_before a b all
  end.

(** The counts as numbers: what the loop over the tags builds when no tag
    names an inherited property. *)
Definition counted (tags : list string) : JS.object (V := Z) :=
  fold_left (fun counts t => JS.set t (App.or_zero (JS.get t counts) + 1) counts) tags [].

(** The sorted entries from which the trending tags are then taken. *)
Definition ranked (all : list string) : list (string * Z) :=
  JS.sort App.by_count_desc (JS.entries (counted all)).

(** ** Failure of the analysis call *)

(** The request for a confession. *)
Definition request_for (text : string) (imageBase64 : option string) : Gemini.Request :=
  Gemini.mkRequest "gemini-2.5-flash" (Gemini.build_parts text imageBase64).

(** The call fails: the request is rejected (network error), the response has
    no text or an empty one, or its text is not JSON. *)
Definition call_fails (generateContent : Gemini.Request -> Gemini.Promise Gemini.Response)
    (JSON_parse : string -> option Gemini.json) (text : string) (imageBase64 : option string)
    : Prop :=
  match generateContent (request_for text imageBase64) with
  | Gemini.Rejected _ => True
  | Gemini.Fulfilled response =>
      match Gemini.resp_text response with
      | None => True
      | Some t => t = "" \/ JSON_parse t = None
      end
  end.

(** The fallback, read at the type [AIAnalysisResult]. *)
Definition fallback_result : AIAnalysisResult :=
  mkAI ["anonymous"; "student"] neutral "😶" "#64748b" true None.

(** ** The session and the component *)

(** A session whose level is the one its points give. *)
Definition level_in_step (us : UserSessionData) : Prop :=
  level us = xp us / 100 + 1.

(** A confession without audio, video and flag reason. *)
Definition media_free (c : Confession) : Prop :=
  audio c = None /\ video c = None /\ flagReason c = None.

(** State of the storage once loading is over: it holds the session and the
    theme of the component. *)
Definition in_sync (st : AppView.State) : Prop :=
  AppView.isLoading st = false ->
  AppView.stored_session st = Some (App.userSession (AppView.app st)) /\
  AppView.stored_theme st = Some (AppView.theme st).

(** ** Sample data *)

(** Sample data for the closed instances below. *)
Module Sample.
Import App.

Definition panda : Avatar := mkAvatar "Neon Panda" "#ef4444" "P".

Definition post (i : string) (r : Reactions) (tg : list string) : Confession :=
  mkConfession i text_post "hello" None None None None 1 panda r [] tg
    neutral ":)" "#64748b" true None.

Definition poll (i : string) (opts : list PollOption) : Confession :=
  mkConfession i poll_post "tea or coffee?" None None None (Some opts) 1 panda
    zero_reactions [] [] neutral ":)" "#64748b" true None.

Definition session (reacted : gmap string ReactionType) (voted : gmap string string)
    : UserSessionData :=
  mkSession panda 0 1 reacted voted.

Definition state (cs : list Confession) (us : UserSessionData) : State :=
  mkState cs us home [].

Definition ok : string -> ConfessionUpdate -> bool := fun _ _ => true.
Definition failing : string -> ConfessionUpdate -> bool := fun _ _ => false.

(** One post with a single love, recorded by the session. *)
Definition loved : State :=
  state [post "p" (mkReactions 1 0 0 0 0) []] (session {["p" := love]} ∅).

(** The session remembers a love that the list no longer counts (the list is
    whatever the remote store returned). *)
Definition love_lost : State :=
  state [post "p" zero_reactions []] (session {["p" := love]} ∅).

Definition fresh : State :=
  state [post "p" zero_reactions []] (session ∅ ∅).

Definition tea : list PollOption :=
  [mkPollOption "opt_0_7" "tea" 0; mkPollOption "opt_1_7" "coffee" 3].

Definition asking : State := state [poll "q" tea] (session ∅ ∅).

End Sample.

Module SampleAI.
Import Gemini.

(** A model that answers with the text of the empty object. *)
Definition answers_empty_object : Request -> Promise Response :=
  fun _ => Fulfilled (mkResponse (Some "{}")).

(** [JSON.parse] on the text of the empty object, and a syntax error on any
    other text. *)
Definition parse_empty_object : string -> option json :=
  fun s => if String.eqb s "{}" then Some (JObj []) else None.

(** A model that cannot be reached. *)
Definition unreachable : Request -> Promise Response :=
  fun _ => Rejected (RequestError "fetch failed").

End SampleAI.

Module SampleRun.

Definition row : Supabase.Row :=
  Supabase.mkRow "p" text_post "hello" None None 1 App.zero_reactions None
    neutral ":)" (Some ["exams"]) "#64748b" Sample.panda true.

Definition store : Supabase.PostgrestResponse (list Supabase.Row) :=
  Supabase.mkPgResponse (Some [row]) None.

Definition accepts_rows : list Supabase.Row -> Supabase.PostgrestResponse unit :=
  fun _ => Supabase.mkPgResponse (Some tt) None.

Definition accepts_update : Supabase.UpdateData -> string -> Supabase.PostgrestResponse unit :=
  fun _ _ => Supabase.mkPgResponse (Some tt) None.

(** A first visit: the page loads, the visitor loves the post and switches
    to the light theme. *)
Definition visit : list AppView.Event :=
  [AppView.Load; AppView.React "p" love; AppView.ToggleTheme].

End SampleRun.

Module SampleForm.

(** The form after the question and two options of a poll were entered. *)
Definition poll_form : CreatePost.State :=
  CreatePost.mkState poll_post "tea or coffee?" None None None ["tea"; "coffee"]
    false false.

End SampleForm.

(** * Properties *)

(** ** Reactions, votes and experience points *)

Section AppFacts.
Import App.

Lemma find_confession_Some i cs c :
  find_confession i cs = Some c -> In c cs /\ id c = i.
Proof.
  unfold find_confession. intros H. apply find_some in H as [Hin Heq].
  split; [exact Hin|]. by apply String.eqb_eq.
Qed.

Lemma find_update_where i f cs :
  (forall c, id (f c) = id c) ->
  find_confession i (update_where i f cs) = f <$> find_confession i cs.
Proof.
  intros Hid. unfold find_confession, update_where.
  induction cs as [|c cs IH]; [reflexivity|]. cbn [List.map List.find].
  destruct (String.eqb (id c) i) eqn:E.
  - rewrite Hid, E. reflexivity.
  - rewrite E. exact IH.
Qed.

Lemma in_update_where i f cs c' :
  In c' (update_where i f cs) ->
  exists c, In c cs /\ c' = (if String.eqb (id c) i then f c else c).
Proof.
  unfold update_where. intros H. apply in_map_iff in H as (c & <- & Hin). eauto.
Qed.

Lemma tally_set_same t v r : tally (set_tally t v r) t = v.
Proof. by destruct t. Qed.

Lemma tally_set_other t k v r : k <> t -> tally (set_tally t v r) k = tally r k.
Proof. by destruct t, k. Qed.

Lemma total_set_tally t v r :
  total_reactions (set_tally t v r) = total_reactions r - tally r t + v.
Proof. destruct t; unfold total_reactions; cbn; lia. Qed.

Lemma nonneg_set t v r : 0 <= v -> nonneg r -> nonneg (set_tally t v r).
Proof.
  intros Hv Hr k. destruct (decide (k = t)) as [->|Hne].
  - by rewrite tally_set_same.
  - rewrite tally_set_other by done. apply Hr.
Qed.

(** The reaction tallies an invocation of [handleReact] writes. *)
Lemma handleReact_nonneg upd i ty st :
  (forall c, In c (confessions st) -> nonneg (reactions c)) ->
  forall c, In c (confessions (handleReact upd i ty st)) -> nonneg (reactions c).
Proof.
  intros Hinv c'. unfold handleReact.
  destruct (find_confession i (confessions st)) as [c|] eqn:Hf; [|by apply Hinv].
  apply find_confession_Some in Hf as [Hc _]. pose proof (Hinv c Hc) as Hcn.
  destruct (decide _) as [Heq|Hne]; cbn.
  - intros Hin. apply in_update_where in Hin as (c0 & Hin0 & ->).
    destruct (String.eqb (id c0) i); [|by apply Hinv].
    cbn. apply nonneg_set; [lia|done].
  - unfold JS.read.
    destruct (reactedPosts (userSession st) !! i) as [o|] eqn:Ho;
      [|destruct (JS.inherited i)]; cbn;
      intros Hin; apply in_update_where in Hin as (c0 & Hin0 & ->);
      (destruct (String.eqb (id c0) i); [|by apply Hinv]); cbn.
    + apply nonneg_set.
      * pose proof (nonneg_set o (Z.max 0 (tally (reactions c) o - 1)) _
                      ltac:(lia) Hcn ty). lia.
      * apply nonneg_set; [lia|done].
    + apply nonneg_set; [pose proof (Hcn ty); lia|done].
    + apply nonneg_set; [pose proof (Hcn ty); lia|done].
Qed.

(** After [handleReact] on a confession of the list, the first confession with
    that identifier carries the reactions written by the handler. *)
Lemma handleReact_found upd i ty st c :
  find_confession i (confessions st) = Some c ->
  exists c', find_confession i (confessions (handleReact upd i ty st)) = Some c'
    /\ reactions c' =
       (if decide (reactedPosts (userSession st) !! i = Some ty)
        then set_tally ty (Z.max 0 (tally (reactions c) ty - 1)) (reactions c)
        else
          let r1 := match reactedPosts (userSession st) !! i with
                    | Some o => set_tally o (Z.max 0 (tally (reactions c) o - 1)) (reactions c)
                    | None => reactions c
                    end in
          set_tally ty (tally r1 ty + 1) r1).
Proof.
  intros Hf. unfold handleReact. rewrite Hf.
  destruct (decide _) as [Heq|Hne].
  - unfold setConfessions, setUserSession; cbn [confessions].
    rewrite find_update_where by done. rewrite Hf. cbn. eauto.
  - unfold JS.read.
    destruct (reactedPosts (userSession st) !! i) as [o|];
      [|destruct (JS.inherited i)];
      unfold setConfessions, addXP, setUserSession; cbn [confessions];
      (rewrite find_update_where by done); rewrite Hf; cbn; eauto.
Qed.

End AppFacts.

Section ReactionClaims.
Import App.

(** C3 (as amended).  When the session's recorded reaction on a listed post is
    the kind reacted with, [handleReact] clears the session's reaction for that
    post, leaves the other kinds alone and lowers that kind's tally by one, but
    not below zero: a tally of at least 1 loses exactly one, a tally of 0 stays
    0.  No reaction operation makes a tally negative: if all tallies of the
    list are non-negative before, they are afterwards. *)
Theorem handleReact_same_kind_clears upd st i ty c :
  find_confession i (confessions st) = Some c ->
  reactedPosts (userSession st) !! i = Some ty ->
  let st' := handleReact upd i ty st in
  reactedPosts (userSession st') !! i = None /\
  (exists c', find_confession i (confessions st') = Some c' /\
     tally (reactions c') ty = Z.max 0 (tally (reactions c) ty - 1) /\
     (1 <= tally (reactions c) ty ->
        tally (reactions c') ty = tally (reactions c) ty - 1) /\
     (tally (reactions c) ty = 0 -> tally (reactions c') ty = 0) /\
     (forall k, k <> ty -> tally (reactions c') k = tally (reactions c) k)) /\
  (forall j ty0,
     (forall c0, In c0 (confessions st) -> nonneg (reactions c0)) ->
     forall c0, In c0 (confessions (handleReact upd j ty0 st)) -> nonneg (reactions c0)).
Proof.
  intros Hf Hr st'. split; [|split].
  - subst st'. unfold handleReact. rewrite Hf.
    destruct (decide _) as [_|Hne]; [|done]. cbn. apply lookup_delete_eq.
  - destruct (handleReact_found upd i ty st c Hf) as (c' & Hf' & Hr').
    exists c'. split; [exact Hf'|].
    rewrite Hr'. destruct (decide _) as [_|Hne]; [|done].
    rewrite tally_set_same. repeat split.
    + lia.
    + lia.
    + intros k Hk. by apply tally_set_other.
  - intros j ty0 Hinv. by apply handleReact_nonneg.
Qed.

Lemma handleReact_same_kind_clears_witness :
  reactedPosts (userSession (handleReact Sample.ok "p" love Sample.loved)) !! "p" = None.
Proof.
  exact (proj1 (handleReact_same_kind_clears Sample.ok Sample.loved "p" love
                  (Sample.post "p" (mkReactions 1 0 0 0 0) []) eq_refl eq_refl)).
Defined.

(** C3 as stated fails where the recorded kind has tally 0: the session's
    reaction is cleared, and the tally stays 0 instead of going down by one. *)
Lemma handleReact_same_kind_at_zero :
  reactedPosts (userSession Sample.love_lost) !! "p" = Some love /\
  (exists c c',
     find_confession "p" (confessions Sample.love_lost) = Some c /\
     find_confession "p" (confessions (handleReact Sample.ok "p" love Sample.love_lost))
       = Some c' /\
     tally (reactions c) love = 0 /\
     tally (reactions c') love = 0 /\
     tally (reactions c') love <> tally (reactions c) love - 1).
Proof.
  split; [reflexivity|].
  eexists _, _. split; [reflexivity|]. split; [vm_compute; reflexivity|].
  split; [reflexivity|]. split; [reflexivity|]. cbn. lia.
Qed.

(** C4 (as amended).  When the session holds a reaction of kind [a] on a
    listed post and reacts with another kind [b], the session's reaction
    becomes [b], the tally of [a] goes down by one but not below zero, the
    tally of [b] goes up by one and the other tallies are kept; no experience
    points are awarded.  The sum of the five tallies is unchanged when the
    tally of [a] was at least 1, and grows by one when it was 0. *)
Theorem handleReact_change_kind upd st i a b c :
  find_confession i (confessions st) = Some c ->
  reactedPosts (userSession st) !! i = Some a ->
  a <> b ->
  let st' := handleReact upd i b st in
  reactedPosts (userSession st') !! i = Some b /\
  xp (userSession st') = xp (userSession st) /\
  level (userSession st') = level (userSession st) /\
  (exists c', find_confession i (confessions st') = Some c' /\
     tally (reactions c') a = Z.max 0 (tally (reactions c) a - 1) /\
     tally (reactions c') b = tally (reactions c) b + 1 /\
     (forall k, k <> a -> k <> b -> tally (reactions c') k = tally (reactions c) k) /\
     (1 <= tally (reactions c) a ->
        total_reactions (reactions c') = total_reactions (reactions c)) /\
     (tally (reactions c) a = 0 ->
        total_reactions (reactions c') = total_reactions (reactions c) + 1)).
Proof.
  intros Hf Hr Hab st'.
  assert (Hne : reactedPosts (userSession st) !! i <> Some b) by (rewrite Hr; congruence).
  assert (Hst : userSession st' =
                mkSession (avatar (userSession st)) (xp (userSession st))
                  (level (userSession st)) (<[i := b]> (reactedPosts (userSession st)))
                  (votedPolls (userSession st))).
  { subst st'. unfold handleReact. rewrite Hf.
    destruct (decide _) as [Heq|_]; [done|]. unfold JS.read. rewrite Hr. reflexivity. }
  rewrite Hst. cbn [reactedPosts xp level].
  split; [apply lookup_insert_eq|]. split; [reflexivity|]. split; [reflexivity|].
  destruct (handleReact_found upd i b st c Hf) as (c' & Hf' & Hr').
  exists c'. split; [exact Hf'|].
  rewrite Hr'. destruct (decide _) as [Heq|_]; [done|]. rewrite Hr. cbn zeta.
  rewrite !total_set_tally, !tally_set_same.
  rewrite (tally_set_other a b) by congruence.
  rewrite (tally_set_other b a) by congruence.
  rewrite tally_set_same.
  split; [reflexivity|]. split; [reflexivity|]. split; [|lia].
  intros k Hka Hkb. by rewrite !tally_set_other.
Qed.

Lemma handleReact_change_kind_witness :
  reactedPosts (userSession (handleReact Sample.ok "p" funny Sample.loved)) !! "p"
    = Some funny.
Proof.
  exact (proj1 (handleReact_change_kind Sample.ok Sample.loved "p" love funny
                  (Sample.post "p" (mkReactions 1 0 0 0 0) []) eq_refl eq_refl
                  ltac:(discriminate))).
Defined.

(** C4 as stated fails where the kind held has tally 0: it cannot be lowered,
    the new kind is raised, and the sum of the tallies grows by one. *)
Lemma handleReact_change_kind_at_zero :
  reactedPosts (userSession Sample.love_lost) !! "p" = Some love /\
  (exists c c',
     find_confession "p" (confessions Sample.love_lost) = Some c /\
     find_confession "p" (confessions (handleReact Sample.ok "p" funny Sample.love_lost))
       = Some c' /\
     total_reactions (reactions c) = 0 /\
     total_reactions (reactions c') = 1).
Proof.
  split; [reflexivity|].
  eexists _, _. split; [reflexivity|]. split; [vm_compute; reflexivity|].
  split; reflexivity.
Qed.

End ReactionClaims.

Section VoteClaims.
Import App.

Lemma totalVotes_acc opts a :
  fold_left (fun acc opt => acc + votes opt) opts a = a + totalVotes opts.
Proof.
  unfold totalVotes. revert a. induction opts as [|o opts IH]; intros a; cbn.
  - lia.
  - rewrite (IH (a + votes o)), (IH (0 + votes o)). lia.
Qed.

Lemma totalVotes_cons o opts : totalVotes (o :: opts) = votes o + totalVotes opts.
Proof. unfold totalVotes at 1. cbn. apply totalVotes_acc. Qed.

Lemma vote_option_other oid opts :
  ~ In oid (List.map opt_id opts) -> List.map (vote_option oid) opts = opts.
Proof.
  induction opts as [|o opts IH]; [done|]. cbn. intros Hn.
  rewrite IH by tauto. unfold vote_option.
  destruct (String.eqb (opt_id o) oid) eqn:E; [|done].
  apply String.eqb_eq in E. tauto.
Qed.

Lemma totalVotes_vote oid opts :
  List.NoDup (List.map opt_id opts) -> In oid (List.map opt_id opts) ->
  totalVotes (List.map (vote_option oid) opts) = totalVotes opts + 1.
Proof.
  induction opts as [|o opts IH]; [done|]. cbn [List.map].
  intros Hnd Hin. apply List.NoDup_cons_iff in Hnd as [Hno Hnd].
  rewrite !totalVotes_cons. unfold vote_option at 1.
  destruct (String.eqb (opt_id o) oid) eqn:E.
  - apply String.eqb_eq in E. subst oid. rewrite vote_option_other by done. cbn. lia.
  - apply String.eqb_neq in E. destruct Hin as [Hin|Hin]; [done|].
    rewrite IH by done. lia.
Qed.

Lemma has_voted_after_insert us pid oid rp :
  oid <> "" ->
  has_voted (mkSession (avatar us) (xp us + 5) ((xp us + 5) / 100 + 1) rp
               (<[pid := oid]> (votedPolls us))) pid = true.
Proof.
  intros Hne. unfold has_voted, JS.read. cbn. rewrite lookup_insert_eq.
  by destruct oid.
Qed.

(** The guard of [handleVote] lets a vote through when the poll has no entry
    in the voted-polls map and its identifier names no inherited property, or
    when the entry is the empty string. *)
Lemma has_voted_false us pid :
  has_voted us pid = false <->
  (votedPolls us !! pid = None /\ JS.inherited pid = false) \/
  votedPolls us !! pid = Some "".
Proof.
  unfold has_voted, JS.read. destruct (votedPolls us !! pid) as [[|a o]|]; cbn.
  - split; [by right|done].
  - split; [done|]. intros [[? _]|?]; done.
  - destruct (JS.inherited pid); split; try done; try (by left); intros [[_ ?]|?]; done.
Qed.

(** C5 (as amended).  On a listed poll whose identifier is not the name of a
    property that objects inherit ([JS.inherited]), the first vote of a
    session, cast with a non-empty option identifier, is recorded: the choice
    is stored in the voted-polls map under the poll (other polls' entries are
    kept), and in the poll's option list every option keeps its identifier and
    label, the option with the chosen identifier gains exactly one vote and
    the others none (so the total grows by exactly one when identifiers are
    distinct and the choice is one of them).  Every later vote attempt of the
    session on that poll, for any option, returns the state unchanged. *)
Theorem handleVote_first_vote_only upd st pid oid c opts :
  votedPolls (userSession st) !! pid = None ->
  JS.inherited pid = false ->
  find_confession pid (confessions st) = Some c ->
  pollOptions c = Some opts ->
  oid <> "" ->
  let st' := handleVote upd pid oid st in
  votedPolls (userSession st') !! pid = Some oid /\
  (forall q, q <> pid ->
     votedPolls (userSession st') !! q = votedPolls (userSession st) !! q) /\
  (exists c' opts',
     find_confession pid (confessions st') = Some c' /\
     pollOptions c' = Some opts' /\
     length opts' = length opts /\
     (forall (k : nat) o, opts !! k = Some o ->
        exists o', opts' !! k = Some o' /\
          opt_id o' = opt_id o /\ opt_text o' = opt_text o /\
          votes o' = votes o + (if String.eqb (opt_id o) oid then 1 else 0)) /\
     (List.NoDup (List.map opt_id opts) -> In oid (List.map opt_id opts) ->
        totalVotes opts' = totalVotes opts + 1)) /\
  (forall upd' oid', handleVote upd' pid oid' st' = st').
Proof.
  intros Hnone Hproto Hf Hp Hne st'.
  assert (Hv : has_voted (userSession st) pid = false)
    by (apply has_voted_false; by left).
  assert (Hst : st' =
    setConfessions (update_where pid (set_pollOptions (List.map (vote_option oid) opts)))
      (addXP 5 (setUserSession (fun _ =>
         mkSession (avatar (userSession st)) (xp (userSession st))
           (level (userSession st)) (reactedPosts (userSession st))
           (<[pid := oid]> (votedPolls (userSession st)))) st))).
  { subst st'. unfold handleVote. rewrite Hv, Hf, Hp. reflexivity. }
  rewrite Hst. unfold addXP, setUserSession, setConfessions.
  cbn [userSession confessions votedPolls xp avatar reactedPosts level].
  split; [apply lookup_insert_eq|].
  split; [intros q Hq; by apply lookup_insert_ne|].
  split.
  - exists (set_pollOptions (List.map (vote_option oid) opts) c),
           (List.map (vote_option oid) opts).
    split; [rewrite find_update_where by done; by rewrite Hf|].
    split; [reflexivity|]. split; [apply length_map|]. split.
    + intros k o Hk. exists (vote_option oid o). split.
      * change (List.map (vote_option oid) opts) with (vote_option oid <$> opts).
        by rewrite list_lookup_fmap, Hk.
      * unfold vote_option. destruct (String.eqb (opt_id o) oid); cbn;
          repeat split; lia.
    + apply totalVotes_vote.
  - intros upd' oid'. unfold handleVote at 1.
    cbn [userSession]. by rewrite has_voted_after_insert.
Qed.

Lemma handleVote_first_vote_only_witness :
  votedPolls (userSession (handleVote Sample.ok "q" "opt_1_7" Sample.asking)) !! "q"
    = Some "opt_1_7".
Proof.
  exact (proj1 (handleVote_first_vote_only Sample.ok Sample.asking "q" "opt_1_7"
                  (Sample.poll "q" Sample.tea) Sample.tea eq_refl eq_refl eq_refl
                  eq_refl ltac:(discriminate))).
Defined.

(** C5 as stated fails in two ways.  A poll whose identifier is the name of an
    inherited property counts as voted on before any vote: the session has no
    entry for it, and its first vote is not recorded.  And a vote cast with
    the empty option identifier is recorded but leaves the poll open: the vote
    after it is counted as well. *)
Lemma first_vote_lost_or_repeated :
  let named := Sample.state [Sample.poll "toString" Sample.tea] (Sample.session ∅ ∅) in
  let open := Sample.state
                [Sample.poll "q" [mkPollOption "" "tea" 0; mkPollOption "opt_1_7" "coffee" 3]]
                (Sample.session ∅ ∅) in
  let once := handleVote Sample.ok "q" "" open in
  let twice := handleVote Sample.ok "q" "opt_1_7" once in
  votedPolls (userSession named) !! "toString" = None /\
  handleVote Sample.ok "toString" "opt_0_7" named = named /\
  votedPolls (userSession once) !! "q" = Some "" /\
  (pollOptions <$> find_confession "q" (confessions once))
    = Some (Some [mkPollOption "" "tea" 1; mkPollOption "opt_1_7" "coffee" 3]) /\
  votedPolls (userSession twice) !! "q" = Some "opt_1_7" /\
  (pollOptions <$> find_confession "q" (confessions twice))
    = Some (Some [mkPollOption "" "tea" 1; mkPollOption "opt_1_7" "coffee" 4]).
Proof. vm_compute. repeat split. Qed.

End VoteClaims.

Section ExperienceClaims.
Import App.

Lemma addXP_spec amount st :
  xp (userSession (addXP amount st)) = xp (userSession st) + amount /\
  level (userSession (addXP amount st)) = xp (userSession (addXP amount st)) / 100 + 1.
Proof. unfold addXP, setUserSession. cbn. done. Qed.

(** C6 (as amended).  Experience points accrue exactly as follows: +20 on a
    post the remote store accepted (none on a refused one); +2 whenever a
    reaction is added to a listed post on which the session holds no reaction
    at that moment and whose identifier is not the name of a property that
    objects inherit, which includes adding a reaction again after removing
    it, and none on changing or removing a reaction; +5 on commenting a listed
    post; +5 on a vote on a listed poll for which the session holds no choice
    (or the empty one) and whose identifier is not such a name either.  After
    every accrual the level is the floored quotient of the points by 100, plus
    one. *)
Theorem xp_accrual :
  (forall ins rid now d st,
     let st' := handlePost ins rid now d st in
     xp (userSession st') = xp (userSession st)
       + (if ins (newConfession rid now (avatar (userSession st)) d) then 20 else 0)) /\
  (forall upd i ty st c,
     find_confession i (confessions st) = Some c ->
     let st' := handleReact upd i ty st in
     xp (userSession st') = xp (userSession st)
       + (match reactedPosts (userSession st) !! i with
          | None => if JS.inherited i then 0 else 2
          | Some _ => 0
          end)) /\
  (forall upd rid now i txt st c,
     find_confession i (confessions st) = Some c ->
     let st' := handleComment upd rid now i txt st in
     xp (userSession st') = xp (userSession st) + 5) /\
  (forall upd pid oid st c opts,
     find_confession pid (confessions st) = Some c ->
     pollOptions c = Some opts ->
     let st' := handleVote upd pid oid st in
     xp (userSession st') = xp (userSession st)
       + (match votedPolls (userSession st) !! pid with
          | None => if JS.inherited pid then 0 else 5
          | Some choice => if String.eqb choice "" then 5 else 0
          end)) /\
  (forall ins upd st st',
     (exists rid now d, st' = handlePost ins rid now d st) \/
     (exists i ty, st' = handleReact upd i ty st) \/
     (exists rid now i txt, st' = handleComment upd rid now i txt st) \/
     (exists pid oid, st' = handleVote upd pid oid st) ->
     xp (userSession st') <> xp (userSession st) ->
     level (userSession st') = xp (userSession st') / 100 + 1).
Proof.
  split; [|split; [|split; [|split]]].
  - intros ins rid now d st. cbn zeta. unfold handlePost.
    destruct (ins _); cbn; lia.
  - intros upd i ty st c Hf. cbn zeta. unfold handleReact. rewrite Hf.
    destruct (decide _) as [Heq|Hne].
    + rewrite Heq. cbn. lia.
    + unfold JS.read. destruct (reactedPosts (userSession st) !! i);
        [|destruct (JS.inherited i)]; cbn; lia.
  - intros upd rid now i txt st c Hf. cbn zeta. unfold handleComment. rewrite Hf.
    reflexivity.
  - intros upd pid oid st c opts Hf Hp. cbn zeta. unfold handleVote, has_voted, JS.read.
    destruct (votedPolls (userSession st) !! pid) as [[|a o]|];
      [| |destruct (JS.inherited pid)]; cbn [truthy String.eqb];
      rewrite ?Hf, ?Hp; cbn; lia.
  - intros ins upd st st' H Hxp.
    destruct H as [(rid & now & d & ->)|[(i & ty & ->)|[(rid & now & i & txt & ->)|(pid & oid & ->)]]];
      revert Hxp.
    + unfold handlePost. destruct (ins _); cbn; [done|]. intros Hxp. by destruct Hxp.
    + unfold handleReact.
      destruct (find_confession i (confessions st)); [|intros Hxp; by destruct Hxp].
      destruct (decide _); [cbn; intros Hxp; by destruct Hxp|].
      unfold JS.read. destruct (reactedPosts (userSession st) !! i);
        [|destruct (JS.inherited i)]; cbn;
        [intros Hxp; by destruct Hxp|intros Hxp; by destruct Hxp|done].
    + unfold handleComment.
      destruct (find_confession i (confessions st)); [done|intros Hxp; by destruct Hxp].
    + unfold handleVote.
      destruct (has_voted _ _); [intros Hxp; by destruct Hxp|].
      destruct (find_confession pid (confessions st)) as [c|]; [|intros Hxp; by destruct Hxp].
      destruct (pollOptions c); [done|intros Hxp; by destruct Hxp].
Qed.

(** C6 as stated fails on a reaction that is added again: the third call below
    is not the session's first reaction on the post (the first call was), and
    it is awarded two more points.  It also fails on a post whose identifier
    is the name of an inherited property: the session's first reaction on it
    is awarded nothing. *)
Lemma xp_second_time_around :
  let s1 := handleReact Sample.ok "p" love Sample.fresh in
  let s2 := handleReact Sample.ok "p" love s1 in
  let s3 := handleReact Sample.ok "p" love s2 in
  let named := Sample.state [Sample.post "constructor" zero_reactions []]
                 (Sample.session ∅ ∅) in
  xp (userSession Sample.fresh) = 0 /\
  xp (userSession s1) = 2 /\
  reactedPosts (userSession s2) !! "p" = None /\
  xp (userSession s2) = 2 /\
  xp (userSession s3) = 4 /\
  reactedPosts (userSession named) !! "constructor" = None /\
  reactedPosts (userSession (handleReact Sample.ok "constructor" love named))
    !! "constructor" = Some love /\
  xp (userSession (handleReact Sample.ok "constructor" love named)) = 0.
Proof. vm_compute. repeat split. Qed.

End ExperienceClaims.

Section RollbackClaims.
Import App.

Lemma filter_other_ids rid cs :
  ~ In rid (List.map id cs) ->
  List.filter (fun c => negb (String.eqb (id c) rid)) cs = cs.
Proof.
  induction cs as [|c cs IH]; [done|]. cbn. intros Hn.
  destruct (String.eqb (id c) rid) eqn:E.
  - apply String.eqb_eq in E. tauto.
  - cbn. f_equal. apply IH. tauto.
Qed.

(** C2 (as amended).  Only post creation acts on a reported failure.  When
    [insertConfession] reports failure, [handlePost] keeps the session (no
    points), keeps the tab, raises the alert and filters the new identifier
    out of the list; no optimistic insertion was made, so the list is as
    before whenever the new identifier is not already that of a listed post.
    [handleReact], [handleComment] and [handleVote] do not look at the result
    of [updateConfession]: the state they produce is the same whatever the
    remote store reports, so their optimistic change stays after a failure. *)
Theorem failure_handling :
  (forall ins rid now d st,
     ins (newConfession rid now (avatar (userSession st)) d) = false ->
     let st' := handlePost ins rid now d st in
     (forall c, In c (confessions st') <-> In c (confessions st) /\ id c <> rid) /\
     (~ In rid (List.map id (confessions st)) -> confessions st' = confessions st) /\
     userSession st' = userSession st /\
     activeTab st' = activeTab st /\
     alerts st' = alerts st ++ ["Failed to post confession. Please try again."]) /\
  (forall upd upd' i ty st, handleReact upd i ty st = handleReact upd' i ty st) /\
  (forall upd upd' rid now i txt st,
     handleComment upd rid now i txt st = handleComment upd' rid now i txt st) /\
  (forall upd upd' pid oid st, handleVote upd pid oid st = handleVote upd' pid oid st).
Proof.
  split; [|split; [|split]]; [|reflexivity..].
  intros ins rid now d st Hfail. cbn zeta. unfold handlePost. rewrite Hfail.
  cbn [negb]. unfold alert, setConfessions.
  cbn [confessions userSession activeTab alerts newConfession id].
  split; [|split; [|done]].
  - intros c. rewrite filter_In. rewrite negb_true_iff, String.eqb_neq. tauto.
  - apply filter_other_ids.
Qed.

(** C2 as stated fails for a reaction: the remote update reports failure and
    the list keeps the optimistic tally. *)
Lemma react_failure_not_rolled_back :
  Sample.failing "p" (mkUpdate (Some (mkReactions 1 0 0 0 0)) None None) = false /\
  confessions Sample.fresh = [Sample.post "p" (mkReactions 0 0 0 0 0) []] /\
  confessions (handleReact Sample.failing "p" love Sample.fresh)
    = [Sample.post "p" (mkReactions 1 0 0 0 0) []] /\
  reactedPosts (userSession (handleReact Sample.failing "p" love Sample.fresh)) !! "p"
    = Some love.
Proof. vm_compute. repeat split. Qed.

End RollbackClaims.

(** ** Search *)

Section StringFacts.

Lemma string_app_assoc (s1 s2 s3 : string) : (s1 +:+ s2) +:+ s3 = s1 +:+ (s2 +:+ s3).
Proof.
  induction s1 as [|c s1 IH]; [done|].
  change (String c ((s1 +:+ s2) +:+ s3) = String c (s1 +:+ s2 +:+ s3)). congruence.
Qed.

Lemma string_app_empty_r (s : string) : s +:+ "" = s.
Proof.
  induction s as [|c s IH]; [done|].
  change (String c (s +:+ "") = String c s). congruence.
Qed.

Lemma string_rev_app_spec s acc :
  JS.string_rev_app s acc = JS.string_rev s +:+ acc.
Proof.
  unfold JS.string_rev. revert acc. induction s as [|c s IH]; intros acc; cbn; [done|].
  rewrite (IH (String c acc)), (IH (String c "")). by rewrite string_app_assoc.
Qed.

Lemma string_rev_app_distr (a b : string) :
  JS.string_rev (a +:+ b) = JS.string_rev b +:+ JS.string_rev a.
Proof.
  induction a as [|c a IH].
  - change ("" +:+ b) with b. by rewrite string_app_empty_r.
  - change (String c a +:+ b) with (String c (a +:+ b)).
    unfold JS.string_rev at 1 3. cbn [JS.string_rev_app].
    rewrite !string_rev_app_spec, IH. by rewrite string_app_assoc.
Qed.

Lemma string_rev_involutive (s : string) : JS.string_rev (JS.string_rev s) = s.
Proof.
  induction s as [|c s IH]; [done|].
  change (String c s) with (String c "" +:+ s) at 1.
  rewrite string_rev_app_distr, string_rev_app_distr, IH. reflexivity.
Qed.

Lemma string_rev_empty (s : string) : JS.string_rev s = "" -> s = "".
Proof.
  intros H. rewrite <- (string_rev_involutive s), H. reflexivity.
Qed.

Lemma string_length_ind (P : string -> Prop) :
  (forall s, (forall t, (String.length t < String.length s)%nat -> P t) -> P s) ->
  forall s, P s.
Proof.
  intros H s. induction s as [s IH] using (induction_ltof1 _ String.length).
  apply H. exact IH.
Qed.

End StringFacts.

(** ** White space *)

Section TrimFacts.

Lemma listed_In table w : JS.listed table w = true -> In w table.
Proof.
  unfold JS.listed. intros H. apply existsb_exists in H as (x & Hx & E).
  apply String.eqb_eq in E. by subst x.
Qed.

Lemma made_of_app table a b :
  made_of table a -> made_of table b -> made_of table (a +:+ b).
Proof.
  induction 1 as [|w s Hw _ IH]; intros Hb; [done|].
  rewrite string_app_assoc. constructor; [done|]. by apply IH.
Qed.

Lemma made_of_rev table s :
  made_of table s -> made_of (List.map JS.string_rev table) (JS.string_rev s).
Proof.
  induction 1 as [|w s Hw _ IH]; [constructor|].
  rewrite string_rev_app_distr. apply made_of_app; [done|].
  rewrite <- (string_app_empty_r (JS.string_rev w)).
  constructor; [by apply in_map|constructor].
Qed.

(** One step of [strip]: nothing is removed, or a listed character is and the
    rest is stripped. *)
Lemma strip_step table s :
  JS.strip table s = s \/
  exists w rest, In w table /\ s = w +:+ rest /\
    JS.strip table s = JS.strip table rest /\
    (String.length rest < String.length s)%nat.
Proof.
  destruct s as [|a [|b [|c s3]]]; cbn [JS.strip]; [by left|..].
  - destruct (JS.listed table (String a "")) eqn:E1; [|by left].
    right. exists (String a ""), "". split; [by apply listed_In|]. split; [reflexivity|split; [reflexivity|cbn; lia]].
  - destruct (JS.listed table (String a "")) eqn:E1.
    { right. exists (String a ""), (String b "").
      split; [by apply listed_In|]. split; [reflexivity|split; [reflexivity|cbn; lia]]. }
    destruct (JS.listed table (String a (String b ""))) eqn:E2; [|by left].
    right. exists (String a (String b "")), "".
    split; [by apply listed_In|]. split; [reflexivity|split; [reflexivity|cbn; lia]].
  - destruct (JS.listed table (String a "")) eqn:E1.
    { right. exists (String a ""), (String b (String c s3)).
      split; [by apply listed_In|]. split; [reflexivity|split; [reflexivity|cbn; lia]]. }
    destruct (JS.listed table (String a (String b ""))) eqn:E2.
    { right. exists (String a (String b "")), (String c s3).
      split; [by apply listed_In|]. split; [reflexivity|split; [reflexivity|cbn; lia]]. }
    destruct (JS.listed table (String a (String b (String c "")))) eqn:E3; [|by left].
    right. exists (String a (String b (String c ""))), s3.
    split; [by apply listed_In|]. split; [reflexivity|split; [reflexivity|cbn; lia]].
Qed.

(** What [strip] removes is a sequence of listed characters. *)
Lemma strip_prefix table s :
  exists p, made_of table p /\ s = p +:+ JS.strip table s.
Proof.
  induction s as [s IH] using string_length_ind.
  destruct (strip_step table s) as [E|(w & rest & Hw & -> & E & Hl)].
  - exists "". split; [constructor|]. by rewrite E.
  - destruct (IH rest Hl) as (p & Hp & Hr). exists (w +:+ p).
    split; [by constructor|]. rewrite E, string_app_assoc. by rewrite <- Hr.
Qed.

Lemma strip_empty table s : JS.strip table s = "" -> made_of table s.
Proof.
  intros H. destruct (strip_prefix table s) as (p & Hp & Hs).
  rewrite H, string_app_empty_r in Hs. by subst s.
Qed.

(** No white-space character is the beginning of another, from either end:
    a string made of them is stripped entirely. *)
Lemma strip_white_space s :
  made_of JS.white_space s -> JS.strip JS.white_space s = "".
Proof.
  induction 1 as [|w s Hw _ IH]; [done|].
  unfold JS.white_space in Hw. cbn [In] in Hw.
  repeat (destruct Hw as [<-|Hw]; [exact IH|]). destruct Hw.
Qed.

Lemma white_space_rev_rev :
  List.map JS.string_rev (List.map JS.string_rev JS.white_space) = JS.white_space.
Proof. reflexivity. Qed.

Lemma trimStart_made s : made_of JS.white_space (JS.trimStart s) -> made_of JS.white_space s.
Proof.
  intros H. destruct (strip_prefix JS.white_space s) as (p & Hp & Hs).
  rewrite Hs. by apply made_of_app.
Qed.

(** [s.trim()] is empty exactly for the strings made of white space only. *)
Lemma trim_empty s : JS.trim s = "" <-> all_space s.
Proof.
  unfold all_space, JS.trim, JS.trimEnd. split.
  - intros H. apply string_rev_empty, strip_empty, made_of_rev in H.
    rewrite white_space_rev_rev, string_rev_involutive in H.
    by apply trimStart_made.
  - intros H. unfold JS.trimStart. rewrite (strip_white_space s H). reflexivity.
Qed.

(** Whether a string is made of white space only can be read off [trim]. *)
Lemma all_space_dec s : {all_space s} + {~ all_space s}.
Proof.
  destruct (string_dec (JS.trim s) "") as [E|E].
  - left. by apply trim_empty.
  - right. intros H. by apply trim_empty in H.
Defined.

End TrimFacts.

(** ** Search *)

Section SearchClaims.
Import App.

Lemma startsWith_spec s q :
  JS.startsWith s q = true <-> exists post, s = q +:+ post.
Proof.
  revert s. induction q as [|a q IH]; intros s; cbn.
  - split; [eauto|done].
  - destruct s as [|b s].
    + split; [done|]. intros [post H]. discriminate.
    + rewrite andb_true_iff, Ascii.eqb_eq, IH. split.
      * intros [-> [post ->]]. eauto.
      * intros [post H]. injection H as -> ->. eauto.
Qed.

Lemma includes_spec s q :
  JS.includes s q = true <-> exists pre post, s = pre +:+ q +:+ post.
Proof.
  induction s as [|b s IH]; cbn [JS.includes]; rewrite orb_true_iff, startsWith_spec.
  - split.
    + intros [[post H]|H]; [|done]. exists "", post. exact H.
    + intros (pre & post & H). left. destruct pre; [|discriminate]. eauto.
  - rewrite IH. split.
    + intros [[post H]|(pre & post & H)].
      * exists "", post. exact H.
      * exists (String b pre), post. cbn. by rewrite H.
    + intros (pre & post & H). destruct pre as [|b' pre].
      * left. eauto.
      * right. cbn in H. injection H as _ ->. eauto.
Qed.

Lemma includes_refl s : JS.includes s s = true.
Proof.
  apply includes_spec. exists "", "". cbn. by rewrite string_app_empty_r.
Qed.


(** Letter case in the ASCII range. *)







End SearchClaims.

(** ** The remote data-access module *)

Section DataAccessClaims.
Import Supabase.

(** C9 (as amended).  Given a response that carries either data or an error,
    as the client library's response type has it, no function of the module
    throws.  [fetchConfessions] returns the empty list and logs one line when
    the response carries an error, and the mapped rows without logging
    otherwise.  [insertConfession] and [updateConfession] return [false], with
    one line logged, exactly when the response carries an error, and [true]
    otherwise; for these two this holds of every response. *)
Theorem data_access_never_throws
    (select_all : PostgrestResponse (list Row))
    (insert_rows : list Row -> PostgrestResponse unit)
    (update_eq_id : UpdateData -> string -> PostgrestResponse unit) :
  well_formed select_all ->
  (exists cs log, fetchConfessions select_all = (Returns cs, log) /\
     (forall e, error select_all = Some e ->
        cs = [] /\ log = [("Error fetching confessions:", e)]) /\
     (forall rows, data select_all = Some rows ->
        cs = List.map of_row rows /\ log = [])) /\
  (forall c, exists b log, insertConfession insert_rows c = (Returns b, log) /\
     (b = false <-> is_Some (error (insert_rows [to_row c]))) /\
     (b = true <-> error (insert_rows [to_row c]) = None) /\
     (forall e, error (insert_rows [to_row c]) = Some e ->
        log = [("Error inserting confession:", e)]) /\
     (b = true -> log = [])) /\
  (forall i u, exists b log, updateConfession update_eq_id i u = (Returns b, log) /\
     (b = false <->
        is_Some (error (update_eq_id
                   (mkUpdateData (u_reactions u) (u_comments u) (u_pollOptions u)) i))) /\
     (b = true <->
        error (update_eq_id
                 (mkUpdateData (u_reactions u) (u_comments u) (u_pollOptions u)) i) = None) /\
     (forall e,
        error (update_eq_id
                 (mkUpdateData (u_reactions u) (u_comments u) (u_pollOptions u)) i) = Some e ->
        log = [("Error updating confession:", e)]) /\
     (b = true -> log = [])).
Proof.
  intros Hwf. split; [|split].
  - unfold fetchConfessions, well_formed in *.
    destruct (data select_all) as [rows|], (error select_all) as [e|]; try done.
    + exists (List.map of_row rows), []. split; [done|]. split; [done|].
      intros ? [= <-]. done.
    + exists [], [("Error fetching confessions:", e)]. split; [done|]. split; [|done].
      intros ? [= <-]. done.
  - intros c. unfold insertConfession.
    destruct (error (insert_rows [to_row c])) as [e|].
    + exists false, [("Error inserting confession:", e)].
      repeat split; try done; eauto; intros ? [= <-]; done.
    + exists true, []. repeat split; try done; intros [? ?]; done.
  - intros i u. unfold updateConfession.
    destruct (error (update_eq_id _ i)) as [e|].
    + exists false, [("Error updating confession:", e)].
      repeat split; try done; eauto; intros ? [= <-]; done.
    + exists true, []. repeat split; try done; intros [? ?]; done.
Qed.

(** C9 as stated fails for [fetchConfessions]: the module has no handler of
    its own, and on a response that carries neither data nor an error nothing
    is logged and the mapping of the rows throws. *)
Lemma fetchConfessions_without_data_or_error :
  fetchConfessions (mkPgResponse None None)
  = (Throws (TypeError "Cannot read properties of null (reading 'map')"), []) /\
  (forall cs, fst (fetchConfessions (mkPgResponse None None)) <> Returns cs).
Proof. split; [reflexivity|]. intros cs. discriminate. Qed.

Lemma data_access_never_throws_witness :
  exists cs log,
    fetchConfessions (mkPgResponse None (Some (mkPgError "connection refused")))
      = (Returns cs, log) /\ cs = [] /\ length log = 1%nat.
Proof.
  destruct (data_access_never_throws
              (mkPgResponse None (Some (mkPgError "connection refused")))
              (fun _ => mkPgResponse (Some tt) None)
              (fun _ _ => mkPgResponse (Some tt) None) I) as [(cs & log & H & He & _) _].
  exists cs, log. destruct (He _ eq_refl) as [-> ->]. split; [exact H|]. split; reflexivity.
Defined.

End DataAccessClaims.

(** ** The post form *)

Section FormClaims.
Import CreatePost.
#[local] Arguments String.append !_ _ / : simpl nomatch.

Lemma blank_spec s : blank s = true <-> all_space s.
Proof.
  unfold blank. rewrite <- trim_empty. destruct (JS.trim s); cbn; split; done.
Qed.

Lemma blank_false s : blank s = false <-> ~ all_space s.
Proof.
  rewrite <- blank_spec. destruct (blank s); split; try done; intros H; by destruct H.
Qed.

Lemma existsb_blank opts :
  existsb blank opts = false <-> forall o, In o opts -> ~ all_space o.
Proof.
  induction opts as [|o opts IH]; cbn; [split; [by intros _ ? []|done]|].
  rewrite orb_false_iff, IH, blank_false. split.
  - intros [Hb Hall] o' [Heq|Hin]; [by subst o'|by apply Hall].
  - intros H. split; [apply H; by left|intros o' Ho'; apply H; by right].
Qed.

Lemma handleSubmit_pollOptions analyze confirm now st :
  pollOptions (fst (handleSubmit analyze confirm now st)) = pollOptions st.
Proof.
  unfold handleSubmit.
  destruct (blank (text st)); [done|].
  destruct (_ && _); [done|].
  destruct (_ && _); done.
Qed.

Lemma step_pollOptions_length ev st st' :
  step ev st = Some st' ->
  (2 <= length (pollOptions st) <= 4)%nat ->
  (2 <= length (pollOptions st') <= 4)%nat.
Proof.
  destruct ev; cbn; try (intros [= <-]; done).
  - intros [= <-]. unfold handleAddOption.
    destruct (Nat.ltb_spec (length (pollOptions st)) 4); [|done].
    cbn. rewrite length_app. cbn. lia.
  - unfold handleOptionChange.
    destruct (Nat.ltb_spec index (length (pollOptions st))); [|done].
    intros [= <-]. cbn. by rewrite length_insert.
Qed.

Lemma reachable_options_length st :
  reachable st -> (2 <= length (pollOptions st) <= 4)%nat.
Proof.
  intros H. induction H as [|ev st st' _ IH Hs|analyze confirm now st _ IH].
  - cbn. lia.
  - by eapply step_pollOptions_length.
  - by rewrite handleSubmit_pollOptions.
Qed.

(** The identifiers the form gives to poll options are never empty. *)
Lemma finalPollOptions_ids now opts o :
  In o (finalPollOptions now opts) -> opt_id o <> "".
Proof.
  unfold finalPollOptions. intros H. apply list_elem_of_In in H.
  apply elem_of_lookup_imap in H as (i & opt & -> & _). done.
Qed.

Lemma finalPollOptions_lookup now opts (k : nat) :
  finalPollOptions now opts !! k
  = (fun opt => mkPollOption ("opt_" +:+ nat_to_string k +:+ "_" +:+ Z_to_string (now k))
                  opt 0) <$> opts !! k.
Proof. unfold finalPollOptions. apply list_lookup_imap. Qed.

Lemma finalPollOptions_texts now opts :
  List.map opt_text (finalPollOptions now opts) = opts /\
  Forall (fun o => votes o = 0) (finalPollOptions now opts).
Proof.
  split.
  - apply list_eq. intros k.
    change (List.map opt_text ?l) with (opt_text <$> l).
    rewrite list_lookup_fmap, finalPollOptions_lookup.
    by destruct (opts !! k).
  - apply Forall_lookup. intros k o Hk.
    rewrite finalPollOptions_lookup in Hk.
    destruct (opts !! k); [|done]. by injection Hk as <-.
Qed.

Lemma handleSubmit_poll_options analyze confirm now st post os :
  snd (handleSubmit analyze confirm now st) = Some post ->
  np_pollOptions post = Some os ->
  os = finalPollOptions now (pollOptions st).
Proof.
  unfold handleSubmit. destruct (blank (text st)); [done|].
  destruct (_ && _); [done|]. destruct (_ && _); [done|].
  cbn. intros [= <-]. cbn. destruct (bool_decide _); [|done]. by intros [= <-].
Qed.

(** What is known of the form when a post is produced. *)
Lemma handleSubmit_produces analyze confirm now st post :
  snd (handleSubmit analyze confirm now st) = Some post ->
  ~ all_space (text st) /\
  (postType st = poll_post -> forall o, In o (pollOptions st) -> ~ all_space o) /\
  np_type post = postType st /\
  np_pollOptions post =
    (if bool_decide (postType st = poll_post)
     then Some (finalPollOptions now (pollOptions st)) else None).
Proof.
  unfold handleSubmit. destruct (blank (text st)) eqn:Eb; [done|].
  apply blank_false in Eb.
  destruct (bool_decide (postType st = poll_post) && existsb blank (pollOptions st)) eqn:Ep;
    [done|].
  destruct (negb _ && negb _); [done|]. cbn. intros [= <-]. cbn.
  split; [done|]. split; [|done].
  intros Hp. rewrite bool_decide_eq_true_2 in Ep by done. by apply existsb_blank.
Qed.

(** C10.  The option list of the form starts with two empty entries and has
    between 2 and 4 entries in every state of the form; adding an option
    appends an empty entry below four options and does nothing once there are
    four.  A submission whose body text is blank, or, for a poll, with a blank
    option, is rejected: the form is left as it is and no post is produced.
    So a poll that is produced carries between 2 and 4 options, one per entry
    of the form with its label, none of them blank, and a post of another
    kind carries none (the analysis result being of its declared type). *)
Theorem poll_options_between_2_and_4 :
  pollOptions init = [""; ""] /\
  (forall st, reachable st -> (2 <= length (pollOptions st) <= 4)%nat) /\
  (forall st, (4 <= length (pollOptions st))%nat -> handleAddOption st = st) /\
  (forall st, (length (pollOptions st) < 4)%nat ->
     pollOptions (handleAddOption st) = pollOptions st ++ [""]) /\
  (forall analyze confirm now st,
     all_space (text st) ->
     handleSubmit analyze confirm now st = (st, None)) /\
  (forall analyze confirm now st opt,
     postType st = poll_post -> In opt (pollOptions st) -> all_space opt ->
     handleSubmit analyze confirm now st = (st, None)) /\
  (forall analyze confirm now st post,
     reachable st ->
     snd (handleSubmit analyze confirm now st) = Some post ->
     (np_type post = poll_post ->
        exists os, np_pollOptions post = Some os /\
          (2 <= length os <= 4)%nat /\
          List.map opt_text os = pollOptions st /\
          Forall (fun o => ~ all_space (opt_text o)) os) /\
     (np_type post <> poll_post -> np_pollOptions post = None)).
Proof.
  split; [reflexivity|]. split; [|split; [|split; [|split; [|split]]]].
  - apply reachable_options_length.
  - intros st H. unfold handleAddOption.
    destruct (Nat.ltb_spec (length (pollOptions st)) 4); [lia|done].
  - intros st H. unfold handleAddOption.
    destruct (Nat.ltb_spec (length (pollOptions st)) 4); [done|lia].
  - intros analyze confirm now st H. unfold handleSubmit.
    apply blank_spec in H. by rewrite H.
  - intros analyze confirm now st opt Hp Hin H. unfold handleSubmit.
    destruct (blank (text st)); [done|].
    rewrite Hp. rewrite bool_decide_eq_true_2 by done. cbn [andb].
    assert (E : existsb blank (pollOptions st) = true).
    { apply existsb_exists. exists opt. split; [done|]. by apply blank_spec. }
    by rewrite E.
  - intros analyze confirm now st post Hr Hs.
    apply handleSubmit_produces in Hs as (_ & Hopts & Hty & Hpo).
    rewrite Hty, Hpo. split.
    + intros Hp. rewrite bool_decide_eq_true_2 by done.
      destruct (finalPollOptions_texts now (pollOptions st)) as [Htx _].
      eexists. split; [reflexivity|]. split; [|split; [exact Htx|]].
      * unfold finalPollOptions. rewrite length_imap.
        by apply reachable_options_length.
      * apply List.Forall_forall. intros o Ho. apply (Hopts Hp).
        rewrite <- Htx. by apply in_map.
    + intros Hp. by rewrite bool_decide_eq_false_2.
Qed.

End FormClaims.

(** ** The analysis wrapper *)

Section AnalysisClaims.
Import Gemini.

(** C1 (as amended).  [analyzeConfession] never rejects.  When the request
    fails, the response has no text or its text does not parse, the result is
    the fixed fallback (sentiment neutral, emoji 😶, tags anonymous and
    student, colour #64748b, safe), whatever the text and the image, and one
    line is logged.  A response whose text parses is returned as parsed,
    without being checked against the response schema. *)
Theorem analyzeConfession_fallback generateContent JSON_parse text imageBase64 :
  (exists v, fst (analyzeConfession generateContent JSON_parse text imageBase64)
             = Fulfilled v) /\
  (call_fails generateContent JSON_parse text imageBase64 ->
     fst (analyzeConfession generateContent JSON_parse text imageBase64)
       = Fulfilled fallback /\
     length (snd (analyzeConfession generateContent JSON_parse text imageBase64)) = 1%nat) /\
  decode fallback = Some fallback_result /\
  (forall t v,
     generateContent (request_for text imageBase64) = Fulfilled (mkResponse (Some t)) ->
     t <> "" -> JSON_parse t = Some v ->
     analyzeConfession generateContent JSON_parse text imageBase64 = (Fulfilled v, [])).
Proof.
  unfold analyzeConfession, try_block, call_fails, request_for.
  split; [|split; [|split]].
  - destruct (generateContent _) as [[[t|]]|e]; cbn [resp_text]; eauto.
    destruct (truthy t); eauto. destruct (JSON_parse t); eauto.
  - destruct (generateContent _) as [[[t|]]|e]; cbn [resp_text]; [|done..].
    intros [->|H]; [done|]. destruct (truthy t); [|done].
    destruct (JSON_parse t); [discriminate|done].
  - reflexivity.
  - intros t v -> Ht Hp. cbn [resp_text]. destruct t; [done|].
    cbn [truthy]. by rewrite Hp.
Qed.

End AnalysisClaims.

Section AnalysisExamples.
Import Gemini.

(** C1 as stated fails on a schema violation: the response text parses, the
    parsed value has none of the required properties, and it is returned in
    place of the fallback. *)
Lemma schema_violation_is_returned :
  analyzeConfession SampleAI.answers_empty_object SampleAI.parse_empty_object
    "hello" None = (Fulfilled (JObj []), []) /\
  violates_schema (JObj []) = true /\
  JObj [] <> fallback.
Proof. split; [reflexivity|]. split; [reflexivity|]. discriminate. Qed.

(** The scenario of the specification: the body "hello" is posted while the
    model cannot be reached.  The analysis yields the fallback; the form hands
    it over with the post; the confession sent to the store carries it, and a
    successful insert awards 20 points. *)
Lemma hello_end_to_end :
  let form := CreatePost.setText "hello" CreatePost.init in
  let stored := App.newConfession "k3j9x0a1b" 7 Sample.panda
                  (mkNewPost text_post "hello" None None None None fallback_result) in
  fst (analyzeConfession SampleAI.unreachable SampleAI.parse_empty_object "hello" None)
    = Fulfilled fallback /\
  decode fallback = Some fallback_result /\
  snd (CreatePost.handleSubmit (fun _ _ => fallback_result) true (fun _ => 7) form)
    = Some (mkNewPost text_post "hello" None None None None fallback_result) /\
  (sentiment stored, emoji stored, tags stored, colorTheme stored, isSafe stored)
    = (neutral, "😶", ["anonymous"; "student"], "#64748b", true) /\
  xp (App.userSession
        (App.handlePost (fun _ => true) "k3j9x0a1b" 7
           (mkNewPost text_post "hello" None None None None fallback_result)
           Sample.fresh))
    = xp (App.userSession Sample.fresh) + 20.
Proof. vm_compute. repeat split. Qed.

End AnalysisExamples.

(** ** Trending tags *)

Section BeforeFacts.
Context {A B : Type}.
Implicit Types (l : list A) (a b x y : A).

Lemma before_In a b l : before a b l -> In a l /\ In b l.
Proof.
  induction l as [|x l IH]; cbn; [done|].
  intros [[-> H]|H]; [tauto|]. apply IH in H. tauto.
Qed.

Lemma before_app_lr a b l1 l2 : In a l1 -> In b l2 -> before a b (l1 ++ l2).
Proof.
  induction l1 as [|x l1 IH]; cbn; [done|].
  intros [->|H] Hb.
  - left. split; [done|]. apply in_or_app. by right.
  - right. by apply IH.
Qed.

Lemma before_app_l a b l1 l2 : before a b l1 -> before a b (l1 ++ l2).
Proof.
  induction l1 as [|x l1 IH]; cbn; [done|].
  intros [[-> H]|H].
  - left. split; [done|]. apply in_or_app. by left.
  - right. by apply IH.
Qed.

Lemma before_app_r a b l1 l2 : before a b l2 -> before a b (l1 ++ l2).
Proof. induction l1 as [|x l1 IH]; cbn; [done|]. intros H. right. by apply IH. Qed.

Lemma before_app a b l1 l2 :
  before a b (l1 ++ l2) ->
  before a b l1 \/ (In a l1 /\ In b l2) \/ before a b l2.
Proof.
  induction l1 as [|x l1 IH]; cbn; [tauto|].
  intros [[-> H]|H].
  - apply in_app_or in H as [H|H]; [left; left; done|right; left; tauto].
  - apply IH in H. tauto.
Qed.

Lemma before_firstn a b n l : before a b (firstn n l) -> before a b l.
Proof.
  intros H. rewrite <- (firstn_skipn n l). by apply before_app_l.
Qed.

Lemma before_map (f : A -> B) a b l :
  before a b l -> before (f a) (f b) (List.map f l).
Proof.
  induction l as [|x l IH]; cbn; [done|].
  intros [[-> H]|H]; [left; split; [done|by apply in_map]|right; by apply IH].
Qed.

Lemma before_map_inv (f : A -> B) (u v : B) l :
  before u v (List.map f l) -> exists a b, before a b l /\ f a = u /\ f b = v.
Proof.
  induction l as [|x l IH]; cbn; [done|].
  intros [[<- H]|H].
  - apply in_map_iff in H as (b & <- & Hb). exists x, b. tauto.
  - apply IH in H as (a & b & H & <- & <-). exists a, b. tauto.
Qed.

Lemma before_NoDup (f : A -> B) a b l :
  List.NoDup (List.map f l) -> before a b l -> f a <> f b.
Proof.
  induction l as [|x l IH]; cbn; [done|].
  intros Hnd. apply List.NoDup_cons_iff in Hnd as [Hn Hnd].
  intros [[-> H]|H]; [|by apply IH].
  intros E. apply Hn. rewrite E. by apply in_map.
Qed.

Lemma before_filter (p : A -> bool) a b l :
  before a b (List.filter p l) -> before a b l.
Proof.
  induction l as [|x l IH]; cbn; [done|].
  destruct (p x); cbn.
  - intros [[-> H]|H]; [left; split; [done|]; by apply filter_In in H as [H _]|right; by apply IH].
  - intros H. right. by apply IH.
Qed.

End BeforeFacts.

Section SortFacts.
Context {A : Type} (le : A -> A -> bool).
Hypothesis le_total : forall x y, le x y = true \/ le y x = true.
Hypothesis le_trans : forall x y z, le x y = true -> le y z = true -> le x z = true.

Lemma insert_sorted_perm a l : Permutation (JS.insert_sorted le a l) (a :: l).
Proof.
  induction l as [|x l IH]; cbn; [done|].
  destruct (le a x); [done|]. rewrite IH. apply perm_swap.
Qed.

Lemma sort_perm l : Permutation (JS.sort le l) l.
Proof.
  induction l as [|x l IH]; cbn; [done|].
  rewrite insert_sorted_perm. by constructor.
Qed.

Lemma insert_sorted_In a x l : In x (JS.insert_sorted le a l) <-> x = a \/ In x l.
Proof.
  split; intros H.
  - apply (Permutation_in _ (insert_sorted_perm a l)) in H. cbn in H.
    destruct H; [left|right]; done.
  - apply (Permutation_in _ (Permutation_sym (insert_sorted_perm a l))).
    cbn. destruct H; [left|right]; done.
Qed.

Lemma sort_In x l : In x (JS.sort le l) <-> In x l.
Proof.
  split; apply Permutation_in; [|symmetry]; apply sort_perm.
Qed.

Lemma insert_sorted_before a x y l :
  before x y (JS.insert_sorted le a l) ->
  before x y l \/ (x = a /\ In y l) \/ (y = a /\ In x l /\ le a x = false).
Proof.
  induction l as [|z l IH]; cbn; [tauto|].
  destruct (le a z) eqn:E; cbn.
  - intros [[-> H]|H]; [right; left; done|left; done].
  - intros [[-> H]|H].
    + apply insert_sorted_In in H as [->|H]; [|left; left; done].
      right; right. tauto.
    + apply IH in H as [H|[[-> H]|(-> & H & Hle)]]; tauto.
Qed.

Lemma ordered_cons_inv z l : ordered le (z :: l) -> ordered le l.
Proof. intros H x y Hb. apply H. cbn. by right. Qed.

Lemma insert_sorted_ordered a l :
  ordered le l -> ordered le (JS.insert_sorted le a l).
Proof.
  induction l as [|z l IH]; intros Hl; cbn.
  - intros x y [[_ []]|[]].
  - destruct (le a z) eqn:E.
    + intros x y [[-> H]|H]; [|by apply Hl].
      destruct H as [->|H]; [done|].
      apply (le_trans _ z); [done|]. apply Hl. cbn. left. done.
    + intros x y [[-> H]|H].
      * apply insert_sorted_In in H as [->|H].
        -- destruct (le_total x a) as [H|H]; [done|congruence].
        -- apply Hl. cbn. left. done.
      * apply IH; [|done]. by eapply ordered_cons_inv.
Qed.

(** The result of the sort is in comparator order... *)
Lemma sort_ordered l : ordered le (JS.sort le l).
Proof.
  induction l as [|x l IH]; cbn.
  - intros x y [].
  - by apply insert_sorted_ordered.
Qed.

(** ... and the sort is stable: elements that tie keep their input order. *)
Lemma sort_stable l x y :
  before x y (JS.sort le l) -> le y x = true -> before x y l.
Proof.
  induction l as [|a l IH]; cbn; [done|].
  intros H Hyx. apply insert_sorted_before in H as [H|[[-> H]|(-> & H & Hle)]].
  - right. by apply IH.
  - left. split; [done|]. by apply sort_In.
  - congruence.
Qed.

End SortFacts.

(** Array-index keys: a canonical numeral is determined by its value. *)

Section IndexFacts.

Lemma digit_val_range c d : JS.digit_val c = Some d -> 0 <= d < 10.
Proof.
  unfold JS.digit_val. destruct (_ && _) eqn:E; [|done].
  apply andb_true_iff in E as [E1 E2]. apply Z.leb_le in E1, E2.
  intros [= <-]. lia.
Qed.

Lemma digit_val_inj c1 c2 d :
  JS.digit_val c1 = Some d -> JS.digit_val c2 = Some d -> c1 = c2.
Proof.
  unfold JS.digit_val.
  destruct (_ && _); [|done]. destruct (_ && _); [|done].
  intros [= <-] [= H].
  assert (E : nat_of_ascii c1 = nat_of_ascii c2) by lia.
  rewrite <- (ascii_nat_embedding c1), <- (ascii_nat_embedding c2). by rewrite E.
Qed.

Lemma parse_digits_spec s : forall acc n,
  JS.parse_digits acc s = Some n ->
  exists v, JS.parse_digits 0 s = Some v /\ n = acc * 10 ^ JS.length s + v /\ 0 <= v < 10 ^ JS.length s.
Proof.
  induction s as [|c s IH]; intros acc n; cbn [JS.parse_digits].
  - intros [= <-]. exists 0. unfold JS.length. cbn. split; [done|]. lia.
  - destruct (JS.digit_val c) as [d|] eqn:Ed; [|done].
    intros H. apply IH in H as (v & Hv & -> & Hr).
    pose proof (digit_val_range _ _ Ed) as Hd.
    destruct (JS.parse_digits (0 * 10 + d) s) as [w|] eqn:Ew.
    + apply IH in Ew as (v' & Hv' & -> & Hr'). rewrite Hv in Hv'. injection Hv' as <-.
      exists ((0 * 10 + d) * 10 ^ JS.length s + v). split; [done|].
      assert (Hs : JS.length (String c s) = JS.length s + 1) by (unfold JS.length; cbn [String.length]; lia).
      rewrite Hs, Z.pow_add_r by (unfold JS.length; lia). split; [lia|]. nia.
    + exfalso. revert Ew Hv. clear. generalize (0 * 10 + d). generalize 0.
      induction s as [|c s IH]; cbn; [done|]. intros a b.
      destruct (JS.digit_val c); [|done]. apply IH.
Qed.

Lemma parse_digits_cons c s v :
  JS.parse_digits 0 (String c s) = Some v ->
  exists d w, JS.digit_val c = Some d /\ JS.parse_digits 0 s = Some w /\
    v = d * 10 ^ JS.length s + w /\ 0 <= d < 10 /\ 0 <= w < 10 ^ JS.length s.
Proof.
  cbn [JS.parse_digits]. destruct (JS.digit_val c) as [d|] eqn:Ed; [|done].
  intros H. apply parse_digits_spec in H as (w & Hw & -> & Hr).
  exists d, w. pose proof (digit_val_range _ _ Ed). repeat split; try done; lia.
Qed.

Lemma parse_digits_inj_len s1 : forall s2 v,
  String.length s1 = String.length s2 ->
  JS.parse_digits 0 s1 = Some v -> JS.parse_digits 0 s2 = Some v -> s1 = s2.
Proof.
  induction s1 as [|c1 s1 IH]; intros [|c2 s2] v Hl; cbn in Hl; try done.
  intros H1 H2.
  apply parse_digits_cons in H1 as (d1 & w1 & Hd1 & Hw1 & -> & Hr1 & Hq1).
  apply parse_digits_cons in H2 as (d2 & w2 & Hd2 & Hw2 & Hv & Hr2 & Hq2).
  assert (Hs : JS.length s1 = JS.length s2) by (unfold JS.length; lia). rewrite Hs in *.
  assert (d1 = d2) as -> by nia.
  assert (w1 = w2) as -> by lia.
  f_equal; [by eapply digit_val_inj|]. eapply IH; [lia|done..].
Qed.

Lemma digit_val_zero c : JS.digit_val c = Some 0 -> c = "0"%char.
Proof. intros H. by apply (digit_val_inj _ _ 0 H). Qed.

(** A canonical numeral of [k] digits denotes a number of [k] digits. *)
Lemma array_index_bounds s n :
  JS.array_index s = Some n ->
  JS.parse_digits 0 s = Some n /\ (1 <= String.length s)%nat /\ n < 10 ^ JS.length s /\
  ((String.length s = 1)%nat \/ 10 ^ (JS.length s - 1) <= n).
Proof.
  unfold JS.array_index. destruct s as [|c s]; [done|].
  destruct (Ascii.eqb c "0" && negb (String.eqb s "")) eqn:E; [done|].
  destruct (JS.parse_digits 0 (String c s)) as [v|] eqn:Ev; [|done].
  destruct (v <=? 4294967294); [|done]. intros [= <-].
  pose proof Ev as Hc. apply parse_digits_cons in Hc as (d & w & Hd & Hw & -> & Hr & Hq).
  assert (Hs : JS.length (String c s) = JS.length s + 1) by (unfold JS.length; cbn [String.length]; lia).
  assert (0 <= JS.length s) by (unfold JS.length; lia).
  split; [done|]. split; [cbn; lia|]. split.
  - rewrite Hs, Z.pow_add_r by lia. nia.
  - destruct s as [|c' s']; [by left|right].
    rewrite andb_false_iff in E. destruct E as [E|E]; [|done].
    assert (d <> 0).
    { intros ->. apply digit_val_zero in Hd. subst c. done. }
    rewrite Hs. replace (JS.length (String c' s') + 1 - 1) with (JS.length (String c' s')) by lia.
    nia.
Qed.

Lemma array_index_inj s1 s2 n :
  JS.array_index s1 = Some n -> JS.array_index s2 = Some n -> s1 = s2.
Proof.
  intros H1 H2.
  apply array_index_bounds in H1 as (P1 & N1 & U1 & L1), H2 as (P2 & N2 & U2 & L2).
  apply (parse_digits_inj_len s1 s2 n); [|done..].
  assert (Hmono : forall a b, 0 <= a -> a <= b -> 10 ^ a <= 10 ^ b)
    by (intros; apply Z.pow_le_mono_r; lia).
  assert (Hnn : 0 <= n).
  { destruct s1; [cbn in P1; injection P1 as <-; lia|]. apply parse_digits_cons in P1 as (d & w & _ & _ & -> & ? & ?).
    assert (0 < 10 ^ JS.length s1) by (apply Z.pow_pos_nonneg; unfold JS.length; lia). nia. }
  destruct (Nat.lt_trichotomy (String.length s1) (String.length s2)) as [Hlt|[Heq|Hlt]];
    [exfalso|done|exfalso].
  - destruct L2 as [L2|L2].
    + lia.
    + pose proof (Hmono (JS.length s1) (JS.length s2 - 1)). unfold JS.length in *. lia.
  - destruct L1 as [L1|L1].
    + lia.
    + pose proof (Hmono (JS.length s2) (JS.length s1 - 1)). unfold JS.length in *. lia.
Qed.

End IndexFacts.

Section ObjectFacts.
Context {V : Type}.
Implicit Types (o : JS.object (V := V)) (k : string) (v : V).

Lemma get_None k o : JS.get k o = None <-> ~ In k (List.map fst o).
Proof.
  induction o as [|[k' v'] o IH]; cbn; [tauto|].
  destruct (String.eqb k' k) eqn:E.
  - apply String.eqb_eq in E. split; [done|]. tauto.
  - apply String.eqb_neq in E. rewrite IH. tauto.
Qed.

Lemma get_Some k v o :
  List.NoDup (List.map fst o) -> JS.get k o = Some v <-> In (k, v) o.
Proof.
  induction o as [|[k' v'] o IH]; cbn; [intros _; split; done|].
  intros Hnd. apply List.NoDup_cons_iff in Hnd as [Hn Hnd].
  destruct (String.eqb k' k) eqn:E.
  - apply String.eqb_eq in E. subst k'. split.
    + intros [= ->]. by left.
    + intros [[= ->]|H]; [done|]. destruct Hn. apply in_map_iff. by exists (k, v).
  - apply String.eqb_neq in E. rewrite IH by done. split; [tauto|].
    intros [[= -> _]|H]; done.
Qed.

Lemma set_keys k v o :
  List.map fst (JS.set k v o) =
  match JS.get k o with
  | Some _ => List.map fst o
  | None => List.map fst o ++ [k]
  end.
Proof.
  induction o as [|[k' v'] o IH]; cbn; [done|].
  destruct (String.eqb k' k) eqn:E; cbn; [done|].
  rewrite IH. by destruct (JS.get k o).
Qed.

Lemma set_In k v k' v' o :
  List.NoDup (List.map fst o) ->
  In (k', v') (JS.set k v o) <-> (k' = k /\ v' = v) \/ (k' <> k /\ In (k', v') o).
Proof.
  induction o as [|[k0 v0] o IH]; cbn.
  - intros _. split; [intros [[= -> ->]|[]]; tauto|]. intros [[-> ->]|[_ []]]. by left.
  - intros Hnd. apply List.NoDup_cons_iff in Hnd as [Hn Hnd].
    destruct (String.eqb k0 k) eqn:E; cbn.
    + apply String.eqb_eq in E. subst k0. split.
      * intros [[= -> ->]|H]; [tauto|].
        right. split; [|tauto]. intros ->. destruct Hn. apply in_map_iff. by exists (k, v').
      * intros [[-> ->]|[Hne [[= -> _]|H]]]; [by left|done|by right].
    + apply String.eqb_neq in E. rewrite IH by done. split.
      * intros [[= -> ->]|H]; [right; split; [congruence|by left]|tauto].
      * intros [H|[Hne [H|H]]]; tauto.
Qed.

Lemma filter_partition_perm {X} (p : X -> bool) (l : list X) :
  Permutation (List.filter p l ++ List.filter (fun e => negb (p e)) l) l.
Proof.
  induction l as [|x l IH]; cbn; [done|].
  destruct (p x); cbn.
  - by constructor.
  - rewrite <- Permutation_middle. by constructor.
Qed.

Lemma index_le_total (x y : string * V) :
  JS.index_le x y = true \/ JS.index_le y x = true.
Proof. unfold JS.index_le. rewrite !Z.leb_le. lia. Qed.

Lemma index_le_trans (x y z : string * V) :
  JS.index_le x y = true -> JS.index_le y z = true -> JS.index_le x z = true.
Proof. unfold JS.index_le. rewrite !Z.leb_le. lia. Qed.

Lemma entries_perm o : Permutation (JS.entries o) o.
Proof.
  unfold JS.entries. rewrite sort_perm. apply (filter_partition_perm (fun e => JS.is_index (fst e))).
Qed.

Lemma entries_In e o : In e (JS.entries o) <-> In e o.
Proof. split; apply Permutation_in; [|symmetry]; apply entries_perm. Qed.

(** The enumeration order: array indices in ascending order, then the other
    keys in creation order. *)
Lemma entries_before (x y : string * V) o :
  before x y (JS.entries o) ->
  (JS.is_index (fst x) = true /\ JS.is_index (fst y) = true /\
     JS.index_value (fst x) <= JS.index_value (fst y)) \/
  (JS.is_index (fst x) = true /\ JS.is_index (fst y) = false) \/
  (JS.is_index (fst x) = false /\ JS.is_index (fst y) = false /\ before x y o).
Proof.
  unfold JS.entries. intros H. apply before_app in H as [H|[[Hx Hy]|H]].
  - left. pose proof (sort_ordered _ index_le_total index_le_trans _ _ _ H) as Hle.
    apply before_In in H as [Hx Hy].
    apply sort_In, filter_In in Hx as [_ Hx]. apply sort_In, filter_In in Hy as [_ Hy].
    unfold JS.index_le in Hle. apply Z.leb_le in Hle. done.
  - right; left. apply sort_In, filter_In in Hx as [_ Hx].
    apply filter_In in Hy as [_ Hy]. apply negb_true_iff in Hy. done.
  - right; right. pose proof (before_In _ _ _ H) as [Hx Hy].
    apply filter_In in Hx as [_ Hx]. apply filter_In in Hy as [_ Hy].
    apply negb_true_iff in Hx, Hy. apply before_filter in H. done.
Qed.

End ObjectFacts.

Section TrendingClaims.
Import App.

Lemma occurrences_app t l1 l2 :
  occurrences t (l1 ++ l2) = occurrences t l1 + occurrences t l2.
Proof. induction l1 as [|x l1 IH]; cbn; [done|]. rewrite IH. lia. Qed.

Lemma occurrences_nonneg t l : 0 <= occurrences t l.
Proof. induction l as [|x l IH]; cbn; [done|]. destruct (String.eqb x t); lia. Qed.

Lemma occurrences_In t l : In t l -> 1 <= occurrences t l.
Proof.
  induction l as [|x l IH]; cbn; [done|].
  pose proof (occurrences_nonneg t l) as Hnn. intros [->|H].
  - rewrite String.eqb_refl. lia.
  - apply IH in H. destruct (String.eqb x t); lia.
Qed.

Lemma occurrences_not_In t l : ~ In t l -> occurrences t l = 0.
Proof.
  induction l as [|x l IH]; cbn; [done|]. intros H.
  destruct (String.eqb x t) eqn:E.
  - apply String.eqb_eq in E. tauto.
  - rewrite IH; [done|tauto].
Qed.

Lemma counted_snoc l t :
  counted (l ++ [t]) =
  JS.set t (or_zero (JS.get t (counted l)) + 1) (counted l).
Proof. unfold counted. by rewrite fold_left_app. Qed.

Lemma seen_before_snoc a b l t : seen_before a b l -> seen_before a b (l ++ [t]).
Proof.
  intros (l1 & l2 & -> & H1 & H2). exists l1, (l2 ++ [t]).
  split; [by rewrite <- app_assoc|done].
Qed.

(** The counts object after the loop: one property per distinct tag, created
    in first-seen order, holding the number of occurrences. *)
Lemma counted_inv l :
  List.NoDup (List.map fst (counted l)) /\
  (forall t n, In (t, n) (counted l) <-> In t l /\ n = occurrences t l) /\
  (forall a b, before a b (List.map fst (counted l)) -> seen_before a b l).
Proof.
  induction l as [|t l (Hnd & Hin & Hbef)] using rev_ind.
  - cbn. split; [constructor|]. split; [|done]. intros t n. split; [done|]. by intros [[] _].
  - rewrite counted_snoc. set (o := counted l) in *.
    assert (Hv : or_zero (JS.get t o) + 1 = occurrences t (l ++ [t])
                 /\ (JS.get t o = None -> ~ In t l)).
    { rewrite occurrences_app. cbn. rewrite String.eqb_refl.
      destruct (JS.get t o) as [n|] eqn:E.
      - apply get_Some in E; [|done]. apply Hin in E as [Ht ->].
        apply occurrences_In in Ht. cbn.
        destruct (Z.eqb_spec (occurrences t l) 0); [lia|]. split; [lia|done].
      - apply get_None in E. cbn.
        assert (Hn : ~ In t l).
        { intros Ht. apply E. apply in_map_iff. exists (t, occurrences t l).
          split; [done|]. by apply Hin. }
        rewrite (occurrences_not_In _ _ Hn). split; [lia|done]. }
    destruct Hv as [Hv Hnone]. rewrite Hv.
    split; [|split].
    + rewrite set_keys. destruct (JS.get t o) eqn:E; [done|].
      apply get_None in E. apply NoDup_ListNoDup, NoDup_app.
      split; [by apply NoDup_ListNoDup|]. split; [|apply NoDup_singleton].
      intros x Hx Hx'. apply list_elem_of_singleton in Hx' as ->.
      by apply list_elem_of_In in Hx.
    + intros k n. rewrite set_In by done. rewrite Hin, in_app_iff, !occurrences_app.
      cbn [occurrences In]. rewrite String.eqb_refl.
      destruct (String.eqb_spec t k) as [->|Hne].
      * split.
        -- intros [[_ ->]|[Hk _]]; [|done]. split; [right; by left|lia].
        -- intros [_ ->]. left. split; [done|lia].
      * split.
        -- intros [[-> _]|[_ [Hk ->]]]; [done|]. split; [by left|lia].
        -- intros [[Hk|[Hk|[]]] ->]; [|done]. right.
           split; [congruence|]. split; [done|lia].
    + intros a b. rewrite set_keys. destruct (JS.get t o) eqn:E.
      * intros H. by apply seen_before_snoc, Hbef.
      * intros H. apply before_app in H as [H|[[Ha [<-|[]]]|H]].
        -- by apply seen_before_snoc, Hbef.
        -- apply in_map_iff in Ha as ([a' n] & <- & Ha). cbn.
           apply Hin in Ha as [Ha _]. apply in_split in Ha as (l1 & l2 & ->).
           specialize (Hnone eq_refl).
           exists l1, (l2 ++ [t]). split; [by rewrite <- app_assoc|].
           split.
           ++ intros Ht. apply Hnone. apply in_or_app. by left.
           ++ intros ->. apply Hnone. apply in_or_app. right. by left.
        -- cbn in H. destruct H as [[_ []]|[]].
Qed.

Lemma by_count_desc_total x y :
  by_count_desc x y = true \/ by_count_desc y x = true.
Proof. unfold by_count_desc. rewrite !Z.leb_le. lia. Qed.

Lemma by_count_desc_trans x y z :
  by_count_desc x y = true -> by_count_desc y z = true -> by_count_desc x z = true.
Proof. unfold by_count_desc. rewrite !Z.leb_le. lia. Qed.

Lemma ranked_In all e :
  In e (ranked all) <-> In (fst e) all /\ snd e = occurrences (fst e) all.
Proof.
  unfold ranked. rewrite sort_In, entries_In. destruct e as [t n].
  apply (counted_inv all).
Qed.

Lemma ranked_NoDup all : List.NoDup (List.map fst (ranked all)).
Proof.
  eapply Permutation_NoDup; [|apply (counted_inv all)].
  apply Permutation_map. symmetry. unfold ranked.
  rewrite sort_perm. apply entries_perm.
Qed.

Lemma ranked_before all x y :
  before x y (ranked all) ->
  occurrences (fst y) all <= occurrences (fst x) all /\
  (occurrences (fst x) all = occurrences (fst y) all ->
   enumerated_before (fst x) (fst y) all).
Proof.
  intros H. pose proof (before_In _ _ _ H) as [Hx Hy].
  apply ranked_In in Hx as [_ Hx], Hy as [_ Hy].
  pose proof (sort_ordered _ by_count_desc_total by_count_desc_trans _ _ _ H) as Hle.
  unfold by_count_desc in Hle. apply Z.leb_le in Hle. split; [lia|].
  intros Heq. apply sort_stable in H; [|unfold by_count_desc; apply Z.leb_le; lia].
  assert (Hne : fst x <> fst y).
  { apply (before_NoDup fst x y (JS.entries (counted all))); [|done].
    eapply Permutation_NoDup; [|apply (counted_inv all)].
    apply Permutation_map. symmetry. apply entries_perm. }
  apply entries_before in H. unfold enumerated_before, JS.is_index, JS.index_value in *.
  destruct (JS.array_index (fst x)) as [m|] eqn:Ex,
           (JS.array_index (fst y)) as [n|] eqn:Ey;
    destruct H as [(H1 & H2 & H3)|[(H1 & H2)|(H1 & H2 & H3)]]; try done.
  - destruct (Z.eq_dec m n) as [->|]; [|lia].
    destruct Hne. by eapply array_index_inj.
  - apply (counted_inv all). by apply before_map.
Qed.

(** The counts object of the code holds these numbers when no tag names an
    inherited property. *)

Definition as_count (e : string * Z) : string * Count := (fst e, Num (snd e)).

Lemma get_as_count t o : JS.get t (List.map as_count o) = Num <$> JS.get t o.
Proof.
  induction o as [|[k v] o IH]; cbn; [done|].
  destruct (String.eqb k t); [done|exact IH].
Qed.

Lemma set_as_count t v o :
  JS.set t (Num v) (List.map as_count o) = List.map as_count (JS.set t v o).
Proof.
  induction o as [|[k w] o IH]; cbn; [done|].
  destruct (String.eqb k t); cbn; [done|]. by rewrite IH.
Qed.

Lemma inherited_proto t : JS.inherited t = false -> String.eqb t "__proto__" = false.
Proof. unfold JS.inherited. intros H. by apply orb_false_iff in H as [_ H]. Qed.

Lemma count_tags_counted l :
  (forall t, In t l -> JS.inherited t = false) ->
  count_tags l = List.map as_count (counted l).
Proof.
  induction l as [|t l IH] using rev_ind; intros H; [done|].
  rewrite counted_snoc. unfold count_tags. rewrite fold_left_app. cbn [fold_left].
  fold (count_tags l). rewrite IH by (intros x Hx; apply H, in_or_app; by left).
  assert (Ht : JS.inherited t = false) by (apply H, in_or_app; right; by left).
  rewrite (inherited_proto t Ht), get_as_count, <- set_as_count. f_equal.
  unfold next_count. destruct (JS.get t (counted l)); cbn; [done|]. by rewrite Ht.
Qed.

Lemma insert_sorted_map {A B} (f : A -> B) (le : A -> A -> bool) (le' : B -> B -> bool) x l :
  (forall a b, le' (f a) (f b) = le a b) ->
  JS.insert_sorted le' (f x) (List.map f l) = List.map f (JS.insert_sorted le x l).
Proof.
  intros H. induction l as [|y l IH]; cbn; [done|].
  rewrite H. destruct (le x y); cbn; [done|]. by rewrite IH.
Qed.

Lemma sort_map {A B} (f : A -> B) (le : A -> A -> bool) (le' : B -> B -> bool) l :
  (forall a b, le' (f a) (f b) = le a b) ->
  JS.sort le' (List.map f l) = List.map f (JS.sort le l).
Proof.
  intros H. induction l as [|x l IH]; cbn; [done|].
  rewrite IH. by apply insert_sorted_map.
Qed.

Lemma filter_map_key {A B} (f : A -> B) (p : B -> bool) l :
  List.filter p (List.map f l) = List.map f (List.filter (fun x => p (f x)) l).
Proof.
  induction l as [|x l IH]; cbn; [done|]. destruct (p (f x)); cbn; by rewrite IH.
Qed.

Lemma entries_as_count o :
  JS.entries (List.map as_count o) = List.map as_count (JS.entries o).
Proof.
  unfold JS.entries. rewrite !filter_map_key, List.map_app. f_equal.
  by apply sort_map.
Qed.

Lemma numbers_as_count l : numbers (List.map as_count l) = Some l.
Proof.
  induction l as [|[k n] l IH]; cbn; [done|]. by rewrite IH.
Qed.

Lemma trendingTags_numeric cs :
  (forall t, In t (flat_map tags cs) -> JS.inherited t = false) ->
  trendingTags cs = Some (List.map fst (firstn 10 (ranked (flat_map tags cs)))).
Proof.
  intros H. unfold trendingTags.
  by rewrite (count_tags_counted _ H), entries_as_count, numbers_as_count.
Qed.

(** Whatever the tags, a key of the counts object is one of them. *)
Lemma count_tags_keys l k : In k (List.map fst (count_tags l)) -> In k l.
Proof.
  induction l as [|t l IH] using rev_ind; [done|].
  unfold count_tags. rewrite fold_left_app. cbn [fold_left]. fold (count_tags l).
  rewrite in_app_iff. destruct (String.eqb t "__proto__"); [by left; apply IH|].
  rewrite set_keys. destruct (JS.get t (count_tags l)); [by left; apply IH|].
  rewrite in_app_iff. intros [H|[<-|[]]]; [left; by apply IH|right; by left].
Qed.

Lemma numbers_keys es l : numbers es = Some l -> List.map fst l = List.map fst es.
Proof.
  revert l. induction es as [|[k [n|]] es IH]; intros l; cbn; [by intros [= <-]| |done].
  destruct (numbers es) as [l'|]; [|done]. intros [= <-]. cbn. by rewrite (IH l').
Qed.

Lemma trendingTags_In cs out t :
  trendingTags cs = Some out -> In t out -> In t (flat_map tags cs).
Proof.
  unfold trendingTags.
  destruct (numbers (JS.entries (count_tags (flat_map tags cs)))) as [l|] eqn:E; [|done].
  intros [= <-] Ht. apply count_tags_keys.
  apply numbers_keys in E.
  assert (Hk : In t (List.map fst l)).
  { apply in_map_iff in Ht as (e & <- & He). apply in_map.
    apply (Permutation_in _ (sort_perm by_count_desc l)).
    rewrite <- (firstn_skipn 10 (JS.sort by_count_desc l)). apply in_or_app. by left. }
  rewrite E in Hk. apply in_map_iff in Hk as (e & <- & He).
  apply in_map. by apply entries_In.
Qed.

(** C8 (as amended).  When no tag is the name of a property that objects
    inherit ([JS.inherited]), the trending tags are at most ten distinct tags
    of the loaded confessions, in descending order of their number of
    occurrences, and no tag left out occurs more often than a tag listed
    (tags are left out only when ten are listed).  Tags with equal counts come
    in the order in which the counts are enumerated: tags that are array
    indices (canonical decimal numbers) first, in ascending numeric order,
    then the other tags in first-seen order.  In particular ties are broken by
    first-seen order when no tag is an array index. *)
Theorem trendingTags_ranking cs :
  let all := flat_map tags cs in
  (forall t, In t all -> JS.inherited t = false) ->
  exists out, trendingTags cs = Some out /\
  (length out <= 10)%nat /\
  List.NoDup out /\
  (forall t, In t out -> In t all) /\
  (forall t, In t all -> ~ In t out ->
     length out = 10%nat /\
     forall a, In a out -> occurrences t all <= occurrences a all) /\
  (forall a b, before a b out ->
     occurrences b all <= occurrences a all /\
     (occurrences a all = occurrences b all -> enumerated_before a b all)) /\
  ((forall t, In t all -> JS.array_index t = None) ->
   forall a b, before a b out ->
     occurrences a all = occurrences b all -> seen_before a b all).
Proof.
  intros all Hplain. exists (List.map fst (firstn 10 (ranked all))).
  split; [by apply trendingTags_numeric|].
  set (out := List.map fst (firstn 10 (ranked all))).
  assert (Hout : out = List.map fst (firstn 10 (ranked all))) by reflexivity.
  assert (Hsub : forall e, In e (firstn 10 (ranked all)) -> In e (ranked all)).
  { intros e He. rewrite <- (firstn_skipn 10 (ranked all)). apply in_or_app. by left. }
  assert (Hmem : forall t, In t out -> In t all).
  { intros t Ht. rewrite Hout in Ht. apply in_map_iff in Ht as (e & <- & He).
    by apply Hsub, ranked_In in He as [He _]. }
  assert (Hbefore : forall a b, before a b out ->
     occurrences b all <= occurrences a all /\
     (occurrences a all = occurrences b all -> enumerated_before a b all)).
  { intros a b H. rewrite Hout in H.
    apply before_map_inv in H as (x & y & H & <- & <-).
    by apply ranked_before, before_firstn with (n := 10%nat). }
  split; [|split; [|split; [|split; [|split]]]]; try done.
  - rewrite Hout, length_map. apply firstn_le_length.
  - rewrite Hout, <- firstn_map. pose proof (ranked_NoDup all) as Hnd.
    rewrite <- (firstn_skipn 10 (List.map fst (ranked all))) in Hnd.
    apply NoDup_ListNoDup, NoDup_app in Hnd as [Hnd _]. by apply NoDup_ListNoDup.
  - intros t Ht Hnot.
    assert (He : In (t, occurrences t all) (ranked all)) by (by apply ranked_In).
    rewrite <- (firstn_skipn 10 (ranked all)) in He.
    apply in_app_or in He as [He|He].
    { destruct Hnot. rewrite Hout. apply in_map_iff. by exists (t, occurrences t all). }
    split.
    + rewrite Hout, length_map. apply firstn_length_le.
      destruct (Nat.le_gt_cases 10 (length (ranked all))) as [|Hlt]; [done|].
      rewrite skipn_all2 in He by lia. destruct He.
    + intros a Ha. rewrite Hout in Ha. apply in_map_iff in Ha as (x & <- & Hx).
      assert (Hb : before x (t, occurrences t all) (ranked all)).
      { rewrite <- (firstn_skipn 10 (ranked all)). by apply before_app_lr. }
      by apply ranked_before in Hb as [Hb _].
  - intros Hno a b H Heq. destruct (Hbefore a b H) as [_ He].
    specialize (He Heq). unfold enumerated_before in He.
    pose proof (before_In _ _ _ H) as [Ha Hb].
    by rewrite (Hno a (Hmem a Ha)), (Hno b (Hmem b Hb)) in He.
Qed.

Lemma trendingTags_ranking_witness :
  exists out,
    trendingTags [Sample.post "p" zero_reactions ["exams"; "coffee"; "exams"]] = Some out /\
    (length out <= 10)%nat.
Proof.
  destruct (trendingTags_ranking
              [Sample.post "p" zero_reactions ["exams"; "coffee"; "exams"]])
    as (out & Hout & Hlen & _).
  - intros t [<-|[<-|[<-|[]]]]; reflexivity.
  - exists out. split; [exact Hout|exact Hlen].
Defined.

(** C8 as stated fails on a tie with a numeric tag: the tag b is seen first,
    both tags occur once, and the tag 7 is listed first.  It also fails on a
    tag named [__proto__], which is counted nowhere and never listed. *)
Lemma numeric_tag_jumps_the_queue :
  let cs := [Sample.post "p" zero_reactions ["b"]; Sample.post "q" zero_reactions ["7"]] in
  let named := [Sample.post "r" zero_reactions ["__proto__"]] in
  flat_map tags cs = ["b"; "7"] /\
  occurrences "b" (flat_map tags cs) = 1 /\
  occurrences "7" (flat_map tags cs) = 1 /\
  trendingTags cs = Some ["7"; "b"] /\
  occurrences "__proto__" (flat_map tags named) = 1 /\
  trendingTags named = Some [].
Proof. vm_compute. repeat split. Qed.

End TrendingClaims.

(** ** The functions at work *)

Section Examples.
Import App.

Example search_ignores_case :
  let cs := [Sample.post "a" zero_reactions ["Exams"];
             Sample.post "b" zero_reactions ["sHELLs"];
             Sample.post "c" zero_reactions ["NEXT"; "library"]] in
  List.map id (searchResults ascii_lower cs "eX") = ["a"; "c"] /\
  List.map id (searchResults ascii_lower cs "HELLO") = ["a"; "b"; "c"] /\
  List.map id (searchResults ascii_lower cs "hello!") = [].
Proof. vm_compute. repeat split. Qed.

(** Whatever else the runtime's [toLowerCase] does, if it gives the same
    lower case to a query and to a tag, the tag is found. *)
Example search_accented (lower : string -> string) :
  lower "CAFÉ" = lower "café" ->
  searchResults lower [Sample.post "a" zero_reactions ["CAFÉ"]] "café"
  = [Sample.post "a" zero_reactions ["CAFÉ"]].
Proof.
  intros H. unfold searchResults, matches_query. cbn [List.filter tags text existsb Sample.post].
  rewrite H, includes_refl, orb_true_r. reflexivity.
Qed.

(** Three spaces, and a no-break space followed by a line separator. *)
Example search_blank_query :
  searchResults ascii_lower [Sample.post "a" zero_reactions ["Exams"]] "   " = [] /\
  searchResults ascii_lower [Sample.post "a" zero_reactions ["Exams"]]
    (JS.utf8 [194; 160; 226; 128; 168]) = [].
Proof. vm_compute. repeat split. Qed.

(** A no-break space, the text and an ideographic space; the last byte of
    the letter a-grave is the last byte of the no-break space. *)
Example trim_unicode :
  JS.trim (JS.utf8 [194; 160] +:+ "hi there" +:+ JS.utf8 [227; 128; 128]) = "hi there" /\
  JS.trim (JS.utf8 [32; 195; 160; 10]) = JS.utf8 [195; 160].
Proof. vm_compute. repeat split. Qed.

Example trending_counts_then_first_seen :
  trendingTags
    [Sample.post "a" zero_reactions ["exams"; "coffee"];
     Sample.post "b" zero_reactions ["crush"; "coffee"];
     Sample.post "c" zero_reactions ["crush"; "sleep"]]
  = Some ["coffee"; "crush"; "exams"; "sleep"].
Proof. reflexivity. Qed.

Example trending_keeps_ten :
  trendingTags
    [Sample.post "a" zero_reactions ["a"; "b"; "c"; "d"; "e"; "f"];
     Sample.post "b" zero_reactions ["g"; "h"; "i"; "j"; "k"; "l"; "k"]]
  = Some ["k"; "a"; "b"; "c"; "d"; "e"; "f"; "g"; "h"; "i"].
Proof. reflexivity. Qed.

(** A tag named after an inherited function gets a count that is no number:
    the comparator of the sort is then not consistent, and the order is the
    implementation's. *)
Example trending_with_inherited_name :
  count_tags ["a"; "constructor"; "b"; "b"; "constructor"]
    = [("a", Num 1); ("constructor", Text); ("b", Num 2)] /\
  trendingTags [Sample.post "a" zero_reactions ["a"; "constructor"; "b"; "b"]] = None.
Proof. vm_compute. repeat split. Qed.

Example vote_then_vote_again :
  let once := handleVote Sample.ok "q" "opt_0_7" Sample.asking in
  (pollOptions <$> find_confession "q" (confessions once))
    = Some (Some [mkPollOption "opt_0_7" "tea" 1; mkPollOption "opt_1_7" "coffee" 3]) /\
  xp (userSession once) = 5 /\
  handleVote Sample.ok "q" "opt_1_7" once = once.
Proof. vm_compute. repeat split. Qed.

Example level_after_posting_five_times :
  let post := mkNewPost text_post "hello" None None None None fallback_result in
  let go := handlePost (fun _ => true) "id" 7 post in
  let st := go (go (go (go (go Sample.fresh)))) in
  xp (userSession st) = 100 /\ level (userSession st) = 2.
Proof. vm_compute. repeat split. Qed.

End Examples.

(** * Further properties of the code *)

(** ** The handlers of [App.tsx] *)

Section HandlerFacts.
Import App.

Lemma update_where_ids i f cs :
  (forall c, id (f c) = id c) ->
  List.map id (update_where i f cs) = List.map id cs.
Proof.
  intros Hid. unfold update_where. rewrite List.map_map.
  apply List.map_ext. intros c. destruct (String.eqb (id c) i); [apply Hid|done].
Qed.

Lemma update_where_other i f cs (k : nat) c :
  cs !! k = Some c -> id c <> i -> update_where i f cs !! k = Some c.
Proof.
  intros Hk Hne. unfold update_where.
  change (List.map ?g cs) with (g <$> cs). rewrite list_lookup_fmap, Hk. cbn.
  apply String.eqb_neq in Hne. by rewrite Hne.
Qed.

(** X1.  [handleReact], [handleComment] and [handleVote] change nothing but
    the post they are aimed at: the list keeps its length and the identifiers
    in their order, every post with another identifier stays at its place
    unchanged, and when no listed post has the identifier the whole state,
    session and points included, is returned as it was. *)
Theorem handlers_touch_target_only upd st i :
  forall st',
    (exists ty, st' = handleReact upd i ty st) \/
    (exists rid now txt, st' = handleComment upd rid now i txt st) \/
    (exists oid, st' = handleVote upd i oid st) ->
    List.map id (confessions st') = List.map id (confessions st) /\
    (forall (k : nat) c, confessions st !! k = Some c -> id c <> i ->
       confessions st' !! k = Some c) /\
    (find_confession i (confessions st) = None -> st' = st).
Proof.
  intros st' H.
  assert (Hcase : st' = st \/
    exists f us, (forall c, id (f c) = id c) /\
      st' = mkState (update_where i f (confessions st)) us (activeTab st) (alerts st) /\
      is_Some (find_confession i (confessions st))).
  { destruct H as [(ty & ->)|[(rid & now & txt & ->)|(oid & ->)]].
    - unfold handleReact.
      destruct (find_confession i (confessions st)) as [c|] eqn:Hf; [|by left].
      right. destruct (decide _).
      + eexists _, _. split; [|split; [reflexivity|eauto]]. done.
      + unfold JS.read. destruct (reactedPosts (userSession st) !! i);
          [|destruct (JS.inherited i)];
          (eexists _, _; split; [|split; [reflexivity|eauto]]; done).
    - unfold handleComment.
      destruct (find_confession i (confessions st)) as [c|] eqn:Hf; [|by left].
      right. eexists _, _. split; [|split; [reflexivity|eauto]]. done.
    - unfold handleVote. destruct (has_voted _ _); [by left|].
      destruct (find_confession i (confessions st)) as [c|] eqn:Hf; [|by left].
      destruct (pollOptions c); [|by left].
      right. eexists _, _. split; [|split; [reflexivity|eauto]]. done. }
  destruct Hcase as [->|(f & us & Hid & -> & Hsome)]; [done|].
  cbn [confessions]. split; [by apply update_where_ids|]. split.
  - intros k c Hk Hne. by apply update_where_other.
  - intros Hnone. rewrite Hnone in Hsome. by destruct Hsome.
Qed.

Lemma handlers_touch_target_only_witness :
  List.map id (confessions (handleReact Sample.ok "p" love Sample.loved)) = ["p"].
Proof.
  exact (proj1 (handlers_touch_target_only Sample.ok Sample.loved "p" _
                  (or_introl (ex_intro _ love eq_refl)))).
Defined.

(** X2.  A reaction on a listed post on which the session holds none, and
    whose identifier is not the name of a property that objects inherit, is
    recorded for the session, raises the tally of its kind by one and with it
    the sum of the five tallies, and leaves the other tallies alone. *)
Theorem handleReact_adds upd st i ty c :
  find_confession i (confessions st) = Some c ->
  reactedPosts (userSession st) !! i = None ->
  JS.inherited i = false ->
  let st' := handleReact upd i ty st in
  reactedPosts (userSession st') !! i = Some ty /\
  (forall j, j <> i ->
     reactedPosts (userSession st') !! j = reactedPosts (userSession st) !! j) /\
  (exists c', find_confession i (confessions st') = Some c' /\
     tally (reactions c') ty = tally (reactions c) ty + 1 /\
     (forall k, k <> ty -> tally (reactions c') k = tally (reactions c) k) /\
     total_reactions (reactions c') = total_reactions (reactions c) + 1 /\
     comments c' = comments c /\ pollOptions c' = pollOptions c).
Proof.
  intros Hf Hr Hplain st'.
  assert (Hne : reactedPosts (userSession st) !! i <> Some ty) by (rewrite Hr; done).
  assert (Hst : st' =
    setConfessions (update_where i (set_reactions
        (set_tally ty (tally (reactions c) ty + 1) (reactions c))))
      (addXP 2 (setUserSession (fun _ =>
         mkSession (avatar (userSession st)) (xp (userSession st))
           (level (userSession st)) (<[i := ty]> (reactedPosts (userSession st)))
           (votedPolls (userSession st))) st))).
  { subst st'. unfold handleReact. rewrite Hf.
    destruct (decide _) as [Heq|_]; [done|]. unfold JS.read. by rewrite Hr, Hplain. }
  rewrite Hst. unfold addXP, setUserSession, setConfessions.
  cbn [userSession confessions reactedPosts].
  split; [apply lookup_insert_eq|]. split; [intros j Hj; by apply lookup_insert_ne|].
  rewrite find_update_where by done. rewrite Hf. cbn.
  eexists. split; [reflexivity|]. cbn [reactions comments pollOptions set_reactions].
  rewrite tally_set_same, total_set_tally. repeat split; try lia.
  intros k Hk. by apply tally_set_other.
Qed.

Lemma handleReact_adds_witness :
  reactedPosts (userSession (handleReact Sample.ok "p" fire Sample.fresh)) !! "p"
    = Some fire.
Proof.
  exact (proj1 (handleReact_adds Sample.ok Sample.fresh "p" fire
                  (Sample.post "p" zero_reactions []) eq_refl eq_refl eq_refl)).
Defined.

Lemma set_tally_back ty r :
  0 <= tally r ty ->
  set_tally ty (Z.max 0 (tally r ty + 1 - 1)) (set_tally ty (tally r ty + 1) r) = r.
Proof.
  intros H. replace (Z.max 0 (tally r ty + 1 - 1)) with (tally r ty) by lia.
  by destruct r, ty.
Qed.

Lemma update_where_twice i f g cs :
  (forall c, id (f c) = id c) ->
  update_where i g (update_where i f cs) = update_where i (fun c => g (f c)) cs.
Proof.
  intros Hid. unfold update_where. rewrite List.map_map. apply List.map_ext.
  intros c. destruct (String.eqb (id c) i) eqn:E; [|by rewrite E].
  by rewrite Hid, E.
Qed.

Lemma unique_id_found i cs c c0 :
  List.NoDup (List.map id cs) -> find_confession i cs = Some c ->
  In c0 cs -> id c0 = i -> c0 = c.
Proof.
  unfold find_confession. induction cs as [|x cs IH]; cbn; [done|].
  intros Hnd. apply List.NoDup_cons_iff in Hnd as [Hn Hnd].
  destruct (String.eqb (id x) i) eqn:E.
  - apply String.eqb_eq in E. intros [= <-] [<-|Hin] Hid; [done|].
    destruct Hn. rewrite E, <- Hid. by apply in_map.
  - apply String.eqb_neq in E. intros Hf [<-|Hin] Hid; [done|]. by apply IH.
Qed.

(** X3.  Reacting and then reacting again with the same kind undoes the
    reaction: on a list with distinct identifiers, for a post on which the
    session held no reaction, whose identifier is not the name of a property
    that objects inherit and whose tally of that kind is not negative, the
    list of confessions and the session's reaction map are back to what they
    were.  The two points awarded by the first call are kept. *)
Theorem handleReact_twice_restores upd st i ty c :
  List.NoDup (List.map id (confessions st)) ->
  find_confession i (confessions st) = Some c ->
  reactedPosts (userSession st) !! i = None ->
  JS.inherited i = false ->
  0 <= tally (reactions c) ty ->
  let st2 := handleReact upd i ty (handleReact upd i ty st) in
  confessions st2 = confessions st /\
  reactedPosts (userSession st2) = reactedPosts (userSession st) /\
  votedPolls (userSession st2) = votedPolls (userSession st) /\
  xp (userSession st2) = xp (userSession st) + 2.
Proof.
  intros Hnd Hf Hr Hplain Hnn st2.
  assert (Hne : reactedPosts (userSession st) !! i <> Some ty) by (rewrite Hr; done).
  set (r1 := set_tally ty (tally (reactions c) ty + 1) (reactions c)).
  assert (H1 : handleReact upd i ty st =
    setConfessions (update_where i (set_reactions r1))
      (addXP 2 (setUserSession (fun _ =>
         mkSession (avatar (userSession st)) (xp (userSession st))
           (level (userSession st)) (<[i := ty]> (reactedPosts (userSession st)))
           (votedPolls (userSession st))) st))).
  { unfold handleReact. rewrite Hf.
    destruct (decide _) as [Heq|_]; [done|]. unfold JS.read. by rewrite Hr, Hplain. }
  subst st2. rewrite H1. clear H1.
  unfold addXP, setUserSession, setConfessions.
  cbn [userSession confessions reactedPosts xp level avatar votedPolls activeTab alerts].
  unfold handleReact. cbn [userSession confessions reactedPosts].
  rewrite find_update_where by done. rewrite Hf. cbn [fmap option_fmap option_map].
  rewrite lookup_insert_eq. destruct (decide _) as [_|Hbad]; [|done].
  unfold setUserSession, setConfessions.
  cbn [userSession confessions reactedPosts xp level avatar votedPolls reactions
       set_reactions].
  split; [|split; [|split; [done|done]]].
  - subst r1. rewrite tally_set_same, set_tally_back by done.
    rewrite update_where_twice by done.
    unfold update_where. rewrite <- (List.map_id (confessions st)) at 2.
    apply List.map_ext_in. intros c0 Hin.
    destruct (String.eqb (id c0) i) eqn:E; [|done].
    apply String.eqb_eq in E.
    rewrite (unique_id_found i _ c c0 Hnd Hf Hin E). by destruct c.
  - by apply delete_insert_id.
Qed.

Lemma handleReact_twice_restores_witness :
  confessions (handleReact Sample.ok "p" love (handleReact Sample.ok "p" love Sample.fresh))
  = confessions Sample.fresh.
Proof.
  refine (proj1 (handleReact_twice_restores Sample.ok Sample.fresh "p" love
                   (Sample.post "p" zero_reactions []) _ eq_refl eq_refl eq_refl _)).
  - cbn. constructor; [intros []|constructor].
  - cbn. lia.
Defined.

(** X4.  A comment on a listed post is appended after the comments the post
    had, with the text, the time and the commenter's avatar; the post keeps
    its reactions and poll options, and the session keeps its reaction and
    vote maps. *)
Theorem handleComment_appends upd rid now i txt st c :
  find_confession i (confessions st) = Some c ->
  let st' := handleComment upd rid now i txt st in
  (exists c', find_confession i (confessions st') = Some c' /\
     comments c' = comments c ++ [mkComment rid txt now (avatar (userSession st))] /\
     reactions c' = reactions c /\ pollOptions c' = pollOptions c /\
     text c' = text c) /\
  reactedPosts (userSession st') = reactedPosts (userSession st) /\
  votedPolls (userSession st') = votedPolls (userSession st) /\
  avatar (userSession st') = avatar (userSession st).
Proof.
  intros Hf st'. subst st'. unfold handleComment. rewrite Hf.
  unfold addXP, setUserSession, setConfessions.
  cbn [userSession confessions reactedPosts votedPolls avatar].
  rewrite find_update_where by done. rewrite Hf. cbn.
  split; [|done]. eexists. split; [reflexivity|]. done.
Qed.

Lemma handleComment_appends_witness :
  votedPolls (userSession (handleComment Sample.ok "k" 9 "p" "same here" Sample.loved))
  = votedPolls (userSession Sample.loved).
Proof.
  exact (proj1 (proj2 (proj2 (handleComment_appends Sample.ok "k" 9 "p" "same here"
           Sample.loved (Sample.post "p" (mkReactions 1 0 0 0 0) []) eq_refl)))).
Defined.

(** What a handler can do to the session: nothing, add points and set the
    level from them, or change the maps only. *)
Lemma session_after_handler ins upd st st' :
  (exists rid now d, st' = handlePost ins rid now d st) \/
  (exists i ty, st' = handleReact upd i ty st) \/
  (exists rid now i txt, st' = handleComment upd rid now i txt st) \/
  (exists pid oid, st' = handleVote upd pid oid st) ->
  userSession st' = userSession st \/
  exists a rp vp, 0 <= a /\
    (userSession st' = mkSession (avatar (userSession st)) (xp (userSession st) + a)
                         ((xp (userSession st) + a) / 100 + 1) rp vp \/
     (a = 0 /\ userSession st' = mkSession (avatar (userSession st)) (xp (userSession st))
                         (level (userSession st)) rp vp)).
Proof.
  intros H.
  destruct H as [(rid & now & d & ->)|[(i & ty & ->)|[(rid & now & i & txt & ->)|(pid & oid & ->)]]].
  - unfold handlePost. destruct (ins _); cbn; [|by left].
    right. exists 20, (reactedPosts (userSession st)), (votedPolls (userSession st)).
    split; [lia|by left].
  - unfold handleReact.
    destruct (find_confession i (confessions st)) as [c|]; [|by left].
    right. destruct (decide _).
    + eexists 0, _, _. split; [lia|right]. by split.
    + unfold JS.read.
      destruct (reactedPosts (userSession st) !! i); [|destruct (JS.inherited i)].
      * eexists 0, _, _. split; [lia|right]. by split.
      * eexists 0, _, _. split; [lia|right]. by split.
      * eexists 2, _, _. split; [lia|left]. reflexivity.
  - unfold handleComment.
    destruct (find_confession i (confessions st)) as [c|]; [|by left].
    right. eexists 5, _, _. split; [lia|left]. reflexivity.
  - unfold handleVote. destruct (has_voted _ _); [by left|].
    destruct (find_confession pid (confessions st)) as [c|]; [|by left].
    destruct (pollOptions c); [|by left].
    right. eexists 5, _, _. split; [lia|left]. reflexivity.
Qed.

Lemma handler_keeps_level ins upd st st' :
  (exists rid now d, st' = handlePost ins rid now d st) \/
  (exists i ty, st' = handleReact upd i ty st) \/
  (exists rid now i txt, st' = handleComment upd rid now i txt st) \/
  (exists pid oid, st' = handleVote upd pid oid st) ->
  xp (userSession st) <= xp (userSession st') /\
  (level_in_step (userSession st) ->
     level_in_step (userSession st') /\
     level (userSession st) <= level (userSession st')).
Proof.
  intros H. apply session_after_handler in H. unfold level_in_step.
  destruct H as [->|(a & rp & vp & Ha & [->|[-> ->]])]; cbn [xp level].
  - split; [lia|]. intros Hl. split; [done|lia].
  - split; [lia|]. intros Hl. split; [done|]. rewrite Hl.
    pose proof (Z.div_le_mono (xp (userSession st)) (xp (userSession st) + a) 100
                  ltac:(lia) ltac:(lia)). lia.
  - split; [lia|]. intros Hl. split; [done|lia].
Qed.

(** X5.  No handler takes points away, and none lowers the level of a session
    whose level is the one its points give; such a session stays one. *)
Theorem points_never_lost ins upd st st' :
  (exists rid now d, st' = handlePost ins rid now d st) \/
  (exists i ty, st' = handleReact upd i ty st) \/
  (exists rid now i txt, st' = handleComment upd rid now i txt st) \/
  (exists pid oid, st' = handleVote upd pid oid st) ->
  xp (userSession st) <= xp (userSession st') /\
  (level_in_step (userSession st) ->
     level_in_step (userSession st') /\
     level (userSession st) <= level (userSession st')).
Proof. apply handler_keeps_level. Qed.

Lemma points_never_lost_witness :
  xp (userSession Sample.fresh)
  <= xp (userSession (handleReact Sample.ok "p" love Sample.fresh)).
Proof.
  exact (proj1 (points_never_lost (fun _ => true) Sample.ok Sample.fresh _
                  (or_intror (or_introl (ex_intro _ "p" (ex_intro _ love eq_refl)))))).
Defined.

(** X22.  The reactions figure of the profile counts the posts on which the
    session holds a reaction: on a listed post it goes up by one when a
    reaction is added where there was none, down by one when the reaction is
    taken back, and stays when the kind is changed. *)
Theorem reacted_count_follows upd st i ty c :
  find_confession i (confessions st) = Some c ->
  let n := AppView.reacted_count (userSession st) in
  let n' := AppView.reacted_count (userSession (handleReact upd i ty st)) in
  (reactedPosts (userSession st) !! i = None -> n' = n + 1) /\
  (reactedPosts (userSession st) !! i = Some ty -> n' = n - 1) /\
  (forall old, reactedPosts (userSession st) !! i = Some old -> old <> ty -> n' = n).
Proof.
  intros Hf n n'. subst n n'. unfold AppView.reacted_count, handleReact. rewrite Hf.
  split; [|split].
  - intros Hr. rewrite Hr. destruct (decide _) as [|_]; [done|].
    unfold JS.read. rewrite Hr.
    destruct (JS.inherited i); cbn; rewrite map_size_insert_None by done; lia.
  - intros Hr. destruct (decide _) as [_|]; [|done].
    cbn. rewrite map_size_delete_Some by eauto.
    pose proof (map_size_ne_0_lookup_2 (reactedPosts (userSession st)) i
                  ltac:(eauto)). lia.
  - intros old Hr Hne. rewrite Hr. destruct (decide _) as [[= ->]|_]; [done|].
    unfold JS.read. rewrite Hr. cbn. rewrite map_size_insert_Some by eauto. done.
Qed.

Lemma reacted_count_follows_witness :
  AppView.reacted_count (userSession (handleReact Sample.ok "p" love Sample.loved))
  = AppView.reacted_count (userSession Sample.loved) - 1.
Proof.
  exact (proj1 (proj2 (reacted_count_follows Sample.ok Sample.loved "p" love
                         (Sample.post "p" (mkReactions 1 0 0 0 0) []) eq_refl))
           eq_refl).
Defined.

End HandlerFacts.

(** ** The feed *)

Section FeedFacts.
Import AppView.

Lemma reaction_count_total c : reaction_count c = total_reactions (reactions c).
Proof. unfold reaction_count, values, total_reactions. cbn. lia. Qed.

Lemma by_reactions_desc_total x y :
  by_reactions_desc x y = true \/ by_reactions_desc y x = true.
Proof. unfold by_reactions_desc. rewrite !Z.leb_le. lia. Qed.

Lemma by_reactions_desc_trans x y z :
  by_reactions_desc x y = true -> by_reactions_desc y z = true ->
  by_reactions_desc x z = true.
Proof. unfold by_reactions_desc. rewrite !Z.leb_le. lia. Qed.

Lemma by_timestamp_desc_total x y :
  by_timestamp_desc x y = true \/ by_timestamp_desc y x = true.
Proof. unfold by_timestamp_desc. rewrite !Z.leb_le. lia. Qed.

Lemma by_timestamp_desc_trans x y z :
  by_timestamp_desc x y = true -> by_timestamp_desc y z = true ->
  by_timestamp_desc x z = true.
Proof. unfold by_timestamp_desc. rewrite !Z.leb_le. lia. Qed.

(** X6.  The feed shows every listed confession exactly once under the
    filters all and popular, and exactly the polls under the filter polls.
    It is ordered by descending sum of the reaction tallies under popular and
    by descending timestamp otherwise, and confessions that tie keep the
    order they have in the list. *)
Theorem feedConfessions_order cs f :
  let out := feedConfessions cs f in
  let rank := fun c => if decide (f = popular) then total_reactions (reactions c)
                       else timestamp c in
  Permutation out (if decide (f = polls) then List.filter is_poll cs else cs) /\
  (forall c, In c out <-> In c cs /\ (f = polls -> type c = poll_post)) /\
  (forall a b, before a b out ->
     rank b <= rank a /\ (rank a = rank b -> before a b cs)).
Proof.
  intros out rank. subst out rank. unfold feedConfessions.
  set (l := if decide (f = polls) then List.filter is_poll cs else cs).
  assert (Hl : forall c, In c l <-> In c cs /\ (f = polls -> type c = poll_post)).
  { intros c. subst l. destruct (decide (f = polls)) as [->|Hne].
    - rewrite filter_In. unfold is_poll. rewrite bool_decide_eq_true. tauto.
    - tauto. }
  assert (Hb : forall a b, before a b l -> before a b cs).
  { intros a b. subst l. destruct (decide (f = polls)); [apply before_filter|done]. }
  destruct (decide (f = popular)) as [->|Hne].
  - split; [apply sort_perm|]. split; [intros c; by rewrite sort_In|].
    intros a b H. rewrite <- !reaction_count_total.
    pose proof (sort_ordered _ by_reactions_desc_total by_reactions_desc_trans _ _ _ H)
      as Hle.
    unfold by_reactions_desc in Hle. apply Z.leb_le in Hle. split; [done|].
    intros Heq. apply Hb. eapply sort_stable; [exact H|].
    unfold by_reactions_desc. apply Z.leb_le. lia.
  - split; [apply sort_perm|]. split; [intros c; by rewrite sort_In|].
    intros a b H.
    pose proof (sort_ordered _ by_timestamp_desc_total by_timestamp_desc_trans _ _ _ H)
      as Hle.
    unfold by_timestamp_desc in Hle. apply Z.leb_le in Hle. split; [done|].
    intros Heq. apply Hb. eapply sort_stable; [exact H|].
    unfold by_timestamp_desc. apply Z.leb_le. lia.
Qed.

End FeedFacts.

(** ** The component over time *)

Section RunFacts.
Import AppView.

Variable select_all : Supabase.PostgrestResponse (list Supabase.Row).
Variable insert_rows : list Supabase.Row -> Supabase.PostgrestResponse unit.
Variable update_eq_id : Supabase.UpdateData -> string -> Supabase.PostgrestResponse unit.
Variable drawn : Avatar.

Local Abbreviation handle := (handle select_all insert_rows update_eq_id drawn).
Local Abbreviation step := (step select_all insert_rows update_eq_id drawn).
Local Abbreviation run := (run select_all insert_rows update_eq_id drawn).

Lemma save_app st : app (save st) = app st.
Proof. unfold save. by destruct (isLoading st). Qed.

Lemma update_where_media_free i f cs :
  (forall c, media_free c -> media_free (f c)) ->
  Forall media_free cs -> Forall media_free (App.update_where i f cs).
Proof.
  intros Hf H. unfold App.update_where. apply List.Forall_forall.
  intros c' Hin. apply in_map_iff in Hin as (c & <- & Hin).
  pose proof (proj1 (List.Forall_forall _ _) H c Hin) as Hc.
  destruct (String.eqb (id c) i); [by apply Hf|done].
Qed.

Lemma handle_media_free ev st :
  Forall media_free (App.confessions (app st)) ->
  Forall media_free (App.confessions (app (handle ev st))).
Proof.
  intros H. destruct ev; cbn [AppView.handle on_app app].
  - unfold loadData, Supabase.fetchConfessions.
    destruct (Supabase.error select_all); cbn; [constructor|].
    destruct (Supabase.data select_all) as [rows|]; cbn; [|done].
    apply List.Forall_forall. intros c Hin.
    apply in_map_iff in Hin as (row & <- & _). done.
  - cbn. constructor; [done|exact H].
  - exact H.
  - unfold App.handlePost. destruct (insertConfession _ _); cbn; [done|].
    apply List.Forall_forall. intros c Hin. apply filter_In in Hin as [Hin _].
    by apply (proj1 (List.Forall_forall _ _) H).
  - unfold App.handleReact.
    destruct (App.find_confession i (App.confessions (app st))); [|done].
    destruct (decide _); [by apply update_where_media_free|].
    unfold JS.read.
    destruct (reactedPosts (App.userSession (app st)) !! i);
      [|destruct (JS.inherited i)]; by apply update_where_media_free.
  - unfold App.handleComment.
    destruct (App.find_confession i (App.confessions (app st))); [|done].
    by apply update_where_media_free.
  - unfold App.handleVote. destruct (App.has_voted _ _); [done|].
    destruct (App.find_confession _ _) as [c|]; [|done].
    destruct (pollOptions c); [|done].
    by apply update_where_media_free.
Qed.

Lemma step_media_free ev st :
  Forall media_free (App.confessions (app st)) ->
  Forall media_free (App.confessions (app (step ev st))).
Proof.
  intros H. unfold AppView.step. destruct (_ && _); [done|].
  rewrite save_app. by apply handle_media_free.
Qed.

Lemma run_media_free evs st :
  Forall media_free (App.confessions (app st)) ->
  Forall media_free (App.confessions (app (run evs st))).
Proof.
  revert st. induction evs as [|ev evs IH]; intros st H; [done|].
  cbn. apply IH. by apply step_media_free.
Qed.

Lemma step_in_sync ev st : in_sync st -> in_sync (step ev st).
Proof.
  intros H. unfold AppView.step. destruct (rendered ev && isLoading st) eqn:E; [done|].
  unfold in_sync, save. destruct (isLoading (handle ev st)) eqn:El; [congruence|done].
Qed.

Lemma run_in_sync evs st : in_sync st -> in_sync (run evs st).
Proof.
  revert st. induction evs as [|ev evs IH]; intros st H; [done|].
  cbn. apply IH. by apply step_in_sync.
Qed.

End RunFacts.

Section RunClaims.
Import AppView.

(** X7.  Whatever the store answers and whatever happens to the mounted
    component, no confession of its list ever carries audio, video or a flag
    reason: the list is only filled from fetched and pushed rows, whose
    mapping sets none of them, and the handlers keep these fields. *)
Theorem listed_confessions_carry_no_media select_all insert_rows update_eq_id drawn
    first saved_session saved_theme evs :
  Forall media_free
    (App.confessions
       (app (run select_all insert_rows update_eq_id drawn evs
               (init first saved_session saved_theme)))).
Proof. apply run_media_free. constructor. Qed.

(** X8.  Once loading is over the local storage holds the session and the
    theme of the component, after every event.  So a reload brings them back:
    a component started from that storage has, after its load, the session
    and the theme the previous one had, whatever avatars are drawn and
    whatever list the store returns. *)
Theorem session_survives_reload select_all insert_rows update_eq_id drawn
    first saved_session saved_theme evs select_again drawn_again first_again :
  let st := run select_all insert_rows update_eq_id drawn evs
              (init first saved_session saved_theme) in
  isLoading st = false ->
  Supabase.well_formed select_again ->
  let st' := step select_again insert_rows update_eq_id drawn_again Load
               (init first_again (stored_session st) (stored_theme st)) in
  stored_session st = Some (App.userSession (app st)) /\
  stored_theme st = Some (theme st) /\
  isLoading st' = false /\
  App.userSession (app st') = App.userSession (app st) /\
  theme st' = theme st.
Proof.
  intros st Hl Hwf st'.
  assert (Hs : in_sync st).
  { apply run_in_sync. unfold in_sync. cbn. discriminate. }
  destruct (Hs Hl) as [Hss Hst]. split; [done|]. split; [done|].
  subst st'. unfold step. cbn [rendered andb handle].
  unfold loadData, Supabase.fetchConfessions, Supabase.well_formed in *.
  destruct (Supabase.data select_again), (Supabase.error select_again); try done;
    cbn; rewrite Hss, Hst; done.
Qed.

Lemma session_survives_reload_witness :
  theme (step SampleRun.store SampleRun.accepts_rows SampleRun.accepts_update
           Sample.panda Load
           (init Sample.panda
              (stored_session
                 (run SampleRun.store SampleRun.accepts_rows SampleRun.accepts_update
                    Sample.panda SampleRun.visit (init Sample.panda None None)))
              (stored_theme
                 (run SampleRun.store SampleRun.accepts_rows SampleRun.accepts_update
                    Sample.panda SampleRun.visit (init Sample.panda None None)))))
  = light.
Proof.
  exact (proj2 (proj2 (proj2 (proj2
    (session_survives_reload SampleRun.store SampleRun.accepts_rows
       SampleRun.accepts_update Sample.panda Sample.panda None None SampleRun.visit
       SampleRun.store Sample.panda Sample.panda eq_refl I))))).
Defined.

Lemma step_level ev st select_all insert_rows update_eq_id drawn :
  (level_in_step (App.userSession (app st)) /\ 0 <= xp (App.userSession (app st))) ->
  (forall s, stored_session st = Some s -> level_in_step s /\ 0 <= xp s) ->
  let st' := step select_all insert_rows update_eq_id drawn ev st in
  (level_in_step (App.userSession (app st')) /\ 0 <= xp (App.userSession (app st'))) /\
  (forall s, stored_session st' = Some s -> level_in_step s /\ 0 <= xp s).
Proof.
  intros Hs Hst st'. subst st'. unfold step.
  destruct (rendered ev && isLoading st); [done|].
  assert (Hh : (level_in_step (App.userSession (app (handle select_all insert_rows
                   update_eq_id drawn ev st))) /\
                0 <= xp (App.userSession (app (handle select_all insert_rows
                   update_eq_id drawn ev st)))) /\
               stored_session (handle select_all insert_rows update_eq_id drawn ev st)
               = stored_session st).
  { assert (Hk : forall a',
      (exists rid now d, a' = App.handlePost (insertConfession insert_rows) rid now d (app st)) \/
      (exists i ty, a' = App.handleReact (updateConfession update_eq_id) i ty (app st)) \/
      (exists rid now i txt,
         a' = App.handleComment (updateConfession update_eq_id) rid now i txt (app st)) \/
      (exists pid oid, a' = App.handleVote (updateConfession update_eq_id) pid oid (app st)) ->
      level_in_step (App.userSession a') /\ 0 <= xp (App.userSession a')).
    { intros a' H. apply handler_keeps_level in H as [Hx Hl].
      destruct Hs as [Hs0 Hs1]. destruct (Hl Hs0) as [Hl' _]. split; [done|lia]. }
    destruct ev; cbn [handle on_app app stored_session]; (split; [|try reflexivity]).
    - unfold loadData. destruct (Supabase.fetchConfessions select_all).1; cbn; [|done].
      destruct (stored_session st) as [s|] eqn:E; [by apply Hst|].
      unfold level_in_step. cbn. split; [done|lia].
    - unfold loadData. by destruct (Supabase.fetchConfessions select_all).1.
    - done.
    - done.
    - apply Hk. left. eauto.
    - apply Hk. right; left. eauto.
    - apply Hk. right; right; left. eauto 6.
    - apply Hk. right; right; right. eauto. }
  destruct Hh as [Hh Hsame]. unfold save.
  destruct (isLoading _); cbn [app stored_session].
  - split; [done|]. by rewrite Hsame.
  - split; [done|]. by intros s [= <-].
Qed.

(** X9.  If the session found in the storage at start-up, when there is one,
    has the level its points give and no negative points, then at every
    moment of the component's life the session shown has the level its
    points give, at least level 1, and no negative points. *)
Theorem level_follows_points select_all insert_rows update_eq_id drawn
    first saved_session saved_theme evs :
  (forall s, saved_session = Some s -> level_in_step s /\ 0 <= xp s) ->
  let us := App.userSession
              (app (run select_all insert_rows update_eq_id drawn evs
                      (init first saved_session saved_theme))) in
  level us = xp us / 100 + 1 /\ 0 <= xp us /\ 1 <= level us.
Proof.
  intros Hsaved us.
  assert (H : forall evs st,
    (level_in_step (App.userSession (app st)) /\ 0 <= xp (App.userSession (app st))) ->
    (forall s, stored_session st = Some s -> level_in_step s /\ 0 <= xp s) ->
    level_in_step (App.userSession (app (run select_all insert_rows update_eq_id drawn evs st)))
    /\ 0 <= xp (App.userSession (app (run select_all insert_rows update_eq_id drawn evs st)))).
  { clear. induction evs as [|ev evs IH]; intros st H1 H2; [done|].
    cbn. destruct (step_level ev st select_all insert_rows update_eq_id drawn H1 H2).
    by apply IH. }
  destruct (H evs (init first saved_session saved_theme)) as [Hl Hx].
  - unfold level_in_step. cbn. split; [done|lia].
  - exact Hsaved.
  - subst us. unfold level_in_step in Hl. split; [done|]. split; [done|].
    rewrite Hl. pose proof (Z.div_pos _ 100 Hx ltac:(lia)). lia.
Qed.

Lemma level_follows_points_witness :
  level (App.userSession
           (app (run SampleRun.store SampleRun.accepts_rows SampleRun.accepts_update
                   Sample.panda SampleRun.visit (init Sample.panda None None))))
  = 1.
Proof.
  refine (eq_trans (proj1
    (level_follows_points SampleRun.store SampleRun.accepts_rows
       SampleRun.accepts_update Sample.panda Sample.panda None None SampleRun.visit _))
    eq_refl).
  intros s H. discriminate H.
Defined.

End RunClaims.

(** ** Rows and confessions *)

Section RowFacts.
Import Supabase.

(** X10.  A confession that is written to the store and read back keeps its
    identifier, kind, text, poll options, time, author, reactions, comments,
    tags and analysis, but comes back without audio, video and flag reason,
    and with an empty image turned into no image.  So it comes back equal
    exactly when it had none of these. *)
Theorem store_round_trip c :
  let c' := of_row (to_row c) in
  (id c', type c', text c', pollOptions c', timestamp c', authorAvatar c')
    = (id c, type c, text c, pollOptions c, timestamp c, authorAvatar c) /\
  (reactions c', comments c', tags c', sentiment c', emoji c', colorTheme c', isSafe c')
    = (reactions c, comments c, tags c, sentiment c, emoji c, colorTheme c, isSafe c) /\
  audio c' = None /\ video c' = None /\ flagReason c' = None /\
  image c' = (if decide (image c = Some "") then None else image c) /\
  (c' = c <->
   audio c = None /\ video c = None /\ flagReason c = None /\ image c <> Some "").
Proof.
  destruct c as [i ty tx im au vi po ts av re co tg se em ct sf fr].
  unfold of_row, to_row. cbn.
  assert (Him : or_undefined (or_undefined im)
                = if decide (im = Some "") then None else im).
  { destruct im as [[|a s]|]; cbn; try done. }
  split; [done|]. split; [done|]. split; [done|]. split; [done|]. split; [done|].
  split; [exact Him|]. split.
  - intros [= H1 -> -> ->]. split; [done|]. split; [done|]. split; [done|].
    intros ->. by cbn in H1.
  - intros (-> & -> & -> & Hne). rewrite Him.
    by destruct (decide (im = Some "")).
Qed.

End RowFacts.

(** ** The image-styling wrapper *)

Section StylingFacts.
Import Styling.
#[local] Arguments String.append !_ _ / : simpl nomatch.

Lemma split_on_free sep cur s :
  free_of sep s = true -> JS.split_on sep cur s = [JS.string_rev cur +:+ s].
Proof.
  revert cur. induction s as [|c s IH]; intros cur; cbn.
  - intros _. by rewrite string_app_empty_r.
  - intros H. apply andb_true_iff in H as [Hc Hs]. apply negb_true_iff in Hc.
    rewrite Hc, IH by done. unfold JS.string_rev at 1. cbn.
    by rewrite string_rev_app_spec, string_app_assoc.
Qed.

Lemma split_on_first sep cur h rest :
  free_of sep h = true ->
  JS.split_on sep cur (h +:+ String sep rest)
  = (JS.string_rev cur +:+ h) :: JS.split_on sep "" rest.
Proof.
  revert cur. induction h as [|c h IH]; intros cur; cbn.
  - intros _. rewrite Ascii.eqb_refl. by rewrite string_app_empty_r.
  - intros H. apply andb_true_iff in H as [Hc Hs]. apply negb_true_iff in Hc.
    rewrite Hc, IH by done. unfold JS.string_rev at 1. cbn.
    by rewrite string_rev_app_spec, string_app_assoc.
Qed.

(** X11.  [cleanBase64] removes the header of a data URL: of a header and a
    non-empty payload without commas, joined by a comma, it keeps the payload.
    A string without a comma, or with nothing after its only comma, is kept
    whole; and the result is empty only for the empty string. *)
Theorem cleanBase64_strips_header :
  (forall header payload,
     free_of ","%char header = true -> free_of ","%char payload = true ->
     payload <> "" ->
     Gemini.cleanBase64 (header +:+ "," +:+ payload) = payload) /\
  (forall s, free_of ","%char s = true -> Gemini.cleanBase64 s = s) /\
  (forall header, free_of ","%char header = true ->
     Gemini.cleanBase64 (header +:+ ",") = header +:+ ",") /\
  (forall s, Gemini.cleanBase64 s = "" -> s = "").
Proof.
  unfold Gemini.cleanBase64, JS.split. repeat split.
  - intros header payload Hh Hp Hne.
    change (header +:+ "," +:+ payload) with (header +:+ String ","%char payload).
    rewrite split_on_first by done. rewrite split_on_free by done. cbn.
    by destruct payload.
  - intros s Hs. by rewrite split_on_free.
  - intros header Hh. change (header +:+ ",") with (header +:+ String ","%char "").
    by rewrite split_on_first.
  - intros s. destruct (nth_error _ 1) as [p|]; [|done].
    destruct p; cbn; done.
Qed.

Lemma first_image_spec parts url :
  first_image parts = Some url <->
  exists before d after,
    parts = before ++ mkPart (Some d) :: after /\
    Forall (fun p => part_inlineData p = None) before /\
    url = "data:image/png;base64," +:+ d.
Proof.
  induction parts as [|[o] parts IH]; cbn [first_image part_inlineData].
  - split; [done|]. intros (before & d & after & H & _). by destruct before.
  - destruct o as [d0|].
    + split.
      * intros [= <-]. exists [], d0, parts. done.
      * intros (before & d & after & H & Hb & ->). destruct before as [|b before].
        -- by injection H as -> _.
        -- injection H as <- _. apply Forall_cons in Hb as [Hb _]. done.
    + rewrite IH. split.
      * intros (before & d & after & -> & Hb & ->).
        exists (mkPart None :: before), d, after. split; [done|]. split; [|done].
        by constructor.
      * intros (before & d & after & H & Hb & ->). destruct before as [|b before].
        -- done.
        -- injection H as <- ->. apply Forall_cons in Hb as [_ Hb].
           exists before, d, after. done.
Qed.

Lemma try_block_spec generateContent imageBase64 style url :
  try_block generateContent imageBase64 style = inr url <->
  exists before d after others,
    generateContent (request imageBase64 style)
    = Gemini.Fulfilled
        (mkResponse (Some (Some (before ++ mkPart (Some d) :: after) :: others))) /\
    Forall (fun p => part_inlineData p = None) before /\
    url = "data:image/png;base64," +:+ d.
Proof.
  unfold try_block. split.
  - destruct (generateContent _) as [[cands]|e]; [|done].
    destruct cands as [[|[parts|] others]|]; cbn [candidates]; try done.
    destruct (first_image parts) as [u|] eqn:E; [|done].
    intros [= <-]. apply first_image_spec in E as (before & d & after & -> & Hb & ->).
    exists before, d, after, others. done.
  - intros (before & d & after & others & -> & Hb & ->). cbn [candidates].
    assert (H : first_image (before ++ mkPart (Some d) :: after)
                = Some ("data:image/png;base64," +:+ d)).
    { apply first_image_spec. exists before, d, after. done. }
    by rewrite H.
Qed.

(** X12.  [generateStyledImage] does not mask a failure.  It resolves only
    when the first candidate of the response has a part with inline data, and
    then to the PNG data URL of the first such part, logging nothing.  When
    the request is rejected it rejects with that very error; when candidates
    or parts are missing, or no part has inline data, it rejects as well; each
    rejection is logged once. *)
Theorem generateStyledImage_propagates generateContent imageBase64 style :
  let r := generateStyledImage generateContent imageBase64 style in
  (forall url, fst r = Fulfilled url <->
     exists before d after others,
       generateContent (request imageBase64 style)
       = Gemini.Fulfilled
           (mkResponse (Some (Some (before ++ mkPart (Some d) :: after) :: others))) /\
       Forall (fun p => part_inlineData p = None) before /\
       url = "data:image/png;base64," +:+ d) /\
  (forall e, generateContent (request imageBase64 style) = Gemini.Rejected e ->
     r = (Rejected (CallError e), [("Gemini Image Gen Error:", CallError e)])) /\
  ((exists url, r = (Fulfilled url, [])) \/
   (exists e, r = (Rejected e, [("Gemini Image Gen Error:", e)]))).
Proof.
  intros r. subst r. unfold generateStyledImage. split; [|split].
  - intros url. rewrite <- try_block_spec.
    destruct (try_block _ _ _) as [e|u]; cbn; split; congruence.
  - intros e He. unfold try_block. by rewrite He.
  - destruct (try_block _ _ _) as [e|u]; eauto.
Qed.

End StylingFacts.

(** ** The confession card *)

Section CardFacts.
Import Card.

(** X13.  The age shown on a card depends on the elapsed milliseconds [d]
    only: "Just now" below one minute (a timestamp in the future included),
    then the whole minutes from 1 to 59, then the whole hours from 1 to 23,
    then the whole days, each the floored quotient of [d] by the length of
    the unit. *)
Theorem timeAgo_units now timestamp :
  let d := now - timestamp in
  (d < 60000 -> timeAgo now timestamp = "Just now") /\
  (60000 <= d < 3600000 ->
     timeAgo now timestamp = pretty (d / 60000) +:+ "m" /\ 1 <= d / 60000 <= 59) /\
  (3600000 <= d < 86400000 ->
     timeAgo now timestamp = pretty (d / 3600000) +:+ "h" /\ 1 <= d / 3600000 <= 23) /\
  (86400000 <= d ->
     timeAgo now timestamp = pretty (d / 86400000) +:+ "d" /\ 1 <= d / 86400000).
Proof.
  intros d. unfold timeAgo. fold d.
  assert (H1 : d / 1000 / 60 = d / 60000) by (rewrite Z.div_div by lia; done).
  assert (H2 : d / 1000 / 60 / 60 = d / 3600000)
    by (rewrite !Z.div_div by lia; done).
  assert (H3 : d / 1000 / 60 / 60 / 24 = d / 86400000)
    by (rewrite !Z.div_div by lia; done).
  rewrite H3, H2, H1.
  assert (Hs : d / 1000 < 60 <-> d < 60000).
  { split; intros H.
    - destruct (Z.lt_ge_cases d 60000) as [|Hge]; [done|].
      pose proof (Z.div_le_mono 60000 d 1000 ltac:(lia) Hge) as Hm.
      change (60000 / 1000) with 60 in Hm. lia.
    - apply Z.div_lt_upper_bound; lia. }
  assert (Hm : d / 60000 < 60 <-> d < 3600000).
  { split; intros H.
    - destruct (Z.lt_ge_cases d 3600000) as [|Hge]; [done|].
      pose proof (Z.div_le_mono 3600000 d 60000 ltac:(lia) Hge) as Hm.
      change (3600000 / 60000) with 60 in Hm. lia.
    - apply Z.div_lt_upper_bound; lia. }
  assert (Hh : d / 3600000 < 24 <-> d < 86400000).
  { split; intros H.
    - destruct (Z.lt_ge_cases d 86400000) as [|Hge]; [done|].
      pose proof (Z.div_le_mono 86400000 d 3600000 ltac:(lia) Hge) as Hm'.
      change (86400000 / 3600000) with 24 in Hm'. lia.
    - apply Z.div_lt_upper_bound; lia. }
  destruct (Z.ltb_spec (d / 1000) 60) as [Ha|Ha];
    [|destruct (Z.ltb_spec (d / 60000) 60) as [Hb|Hb];
      [|destruct (Z.ltb_spec (d / 3600000) 24) as [Hc|Hc]]].
  - repeat split; lia.
  - assert (1 <= d / 60000).
    { pose proof (Z.div_le_mono 60000 d 60000 ltac:(lia) ltac:(lia)) as Hq.
      change (60000 / 60000) with 1 in Hq. done. }
    repeat split; try lia; intros; done.
  - assert (1 <= d / 3600000).
    { pose proof (Z.div_le_mono 3600000 d 3600000 ltac:(lia) ltac:(lia)) as Hq.
      change (3600000 / 3600000) with 1 in Hq. done. }
    repeat split; try lia; intros; done.
  - assert (1 <= d / 86400000).
    { pose proof (Z.div_le_mono 86400000 d 86400000 ltac:(lia) ltac:(lia)) as Hq.
      change (86400000 / 86400000) with 1 in Hq. done. }
    repeat split; try lia; intros; done.
Qed.

Lemma max_votes_from opts acc :
  exists m,
    fold_left (fun m o => match m with
                          | None => Some (votes o)
                          | Some v => Some (Z.max v (votes o))
                          end) opts (Some acc) = Some m /\
    acc <= m /\ (forall o, In o opts -> votes o <= m) /\
    (m = acc \/ exists o, In o opts /\ votes o = m).
Proof.
  revert acc. induction opts as [|o opts IH]; intros acc; cbn.
  - exists acc. repeat split; [lia|by intros ? []|by left].
  - destruct (IH (Z.max acc (votes o))) as (m & Hm & Hle & Hall & Hex).
    exists m. split; [done|]. split; [lia|]. split.
    + intros o' [<-|Hin]; [lia|by apply Hall].
    + destruct Hex as [->|(o' & Hin & <-)].
      * destruct (Z.max_spec acc (votes o)) as [[_ ->]|[_ ->]]; [right; eauto|by left].
      * right. eauto.
Qed.

Lemma max_votes_spec o opts :
  exists m, max_votes (o :: opts) = Some m /\
    (forall o', In o' (o :: opts) -> votes o' <= m) /\
    (exists o', In o' (o :: opts) /\ votes o' = m).
Proof.
  unfold max_votes. cbn [fold_left].
  destruct (max_votes_from opts (votes o)) as (m & Hm & Hle & Hall & Hex).
  exists m. split; [done|]. split.
  - intros o' [<-|Hin]; [done|by apply Hall].
  - destruct Hex as [->|(o' & Hin & <-)]; [exists o; split; [by left|done]|].
    exists o'. split; [by right|done].
Qed.

(** X14.  The trophy of a poll goes to exactly the options that no option
    beats, and only once the votes of the poll add up to more than zero; in
    that case at least one option has it. *)
Theorem isWinner_most_votes opts :
  (forall o, In o opts ->
     isWinner opts o = true <->
     0 < App.totalVotes opts /\ forall o', In o' opts -> votes o' <= votes o) /\
  (0 < App.totalVotes opts -> exists o, In o opts /\ isWinner opts o = true).
Proof.
  destruct opts as [|o0 opts].
  - split; [by intros ? []|]. unfold App.totalVotes. cbn. lia.
  - destruct (max_votes_spec o0 opts) as (m & Hm & Hall & (ow & Hin & Hw)).
    unfold isWinner. rewrite Hm. split.
    + intros o Ho. rewrite andb_true_iff, Z.eqb_eq, Z.ltb_lt. split.
      * intros [<- Ht]. split; [done|]. exact Hall.
      * intros [Ht Hmax]. split; [|done].
        pose proof (Hall o Ho). pose proof (Hmax ow Hin). lia.
    + intros Ht. exists ow. split; [done|].
      rewrite andb_true_iff, Z.eqb_eq, Z.ltb_lt. done.
Qed.

(** X15.  The comment box of a card posts nothing for a draft made of white
    space only: the draft stays and the state is untouched, so no comment is
    added and no point awarded.  Any other draft is handed to [handleComment]
    as typed, white space around it included, and the box is emptied. *)
Theorem handleCommentSubmit_drops_blank upd rid now data draft st :
  (all_space draft ->
     handleCommentSubmit (App.handleComment upd rid now) data draft st = (draft, st)) /\
  (~ all_space draft ->
     handleCommentSubmit (App.handleComment upd rid now) data draft st
     = ("", App.handleComment upd rid now (id data) draft st)).
Proof.
  unfold handleCommentSubmit. split; intros H.
  - apply trim_empty in H. by rewrite H.
  - destruct (JS.trim draft) eqn:E; [|done].
    apply trim_empty in E. done.
Qed.

End CardFacts.

(** ** From a trending tag to the search *)

Section TagSearchFacts.
Import App.

(** X16.  A trending tag that is not blank, taken as the search query (as a
    click on the tag does), finds every confession that carries the tag, and
    there is at least one; this whatever the runtime's [toLowerCase] does. *)
Theorem trending_tag_is_found lower cs out t :
  trendingTags cs = Some out ->
  In t out ->
  ~ all_space t ->
  (exists c, In c cs /\ In t (tags c)) /\
  (forall c, In c cs -> In t (tags c) -> In c (searchResults lower cs t)).
Proof.
  intros Hout Ht Hs. split.
  - pose proof (trendingTags_In cs out t Hout Ht) as Hin.
    apply in_flat_map in Hin as (c & Hc & Htag). eauto.
  - intros c Hc Htag. unfold searchResults.
    destruct (JS.trim t) eqn:E; [by apply trim_empty in E|].
    cbn [truthy negb]. apply filter_In. split; [done|].
    unfold matches_query. apply orb_true_iff. right.
    apply existsb_exists. exists t. split; [done|apply includes_refl].
Qed.

Lemma trending_tag_is_found_witness :
  exists c, In c [Sample.post "p" zero_reactions ["exams"]] /\ In "exams" (tags c).
Proof.
  refine (proj1 (trending_tag_is_found ascii_lower
                   [Sample.post "p" zero_reactions ["exams"]] ["exams"] "exams"
                   eq_refl _ _)).
  - by left.
  - intros H. apply trim_empty in H. discriminate H.
Defined.

End TagSearchFacts.

(** ** The recorder's clock *)

Section ClockFacts.
Import Recorder.

Lemma string_length_app (a b : string) :
  String.length (a +:+ b) = (String.length a + String.length b)%nat.
Proof.
  induction a as [|c a IH]; [done|].
  change (String.length (String c (a +:+ b)) = S (String.length a + String.length b)).
  cbn. by rewrite IH.
Qed.

Lemma string_app_inv_tail (a b x y : string) :
  a +:+ x = b +:+ y -> String.length x = String.length y -> a = b /\ x = y.
Proof.
  revert b. induction a as [|c a IH]; intros [|d b] H Hl.
  - done.
  - change (x = String d (b +:+ y)) in H. subst x. cbn in Hl.
    rewrite string_length_app in Hl. lia.
  - change (String c (a +:+ x) = y) in H. subst y. cbn in Hl.
    rewrite string_length_app in Hl. lia.
  - change (String c (a +:+ x) = String d (b +:+ y)) in H. injection H as -> H.
    destruct (IH b H Hl) as [-> ->]. done.
Qed.

Lemma two_characters (n : nat) :
  (n < 60)%nat ->
  String.length (padStart2 (pretty (Z.of_nat n))) = 2%nat /\
  unpad (padStart2 (pretty (Z.of_nat n))) = pretty (Z.of_nat n).
Proof.
  intros H. do 60 (destruct n as [|n]; [vm_compute; done|]). lia.
Qed.

(** X17.  The recording clock shows the whole minutes, a colon and the
    remaining seconds on exactly two characters; two different durations
    never show the same clock. *)
Theorem formatTime_clock seconds :
  0 <= seconds ->
  (exists ss, formatTime seconds = pretty (seconds / 60) +:+ ":" +:+ ss /\
     String.length ss = 2%nat /\ unpad ss = pretty (seconds mod 60)) /\
  (forall other, 0 <= other -> formatTime other = formatTime seconds ->
     other = seconds).
Proof.
  intros Hs.
  assert (Hshape : forall t, 0 <= t ->
     formatTime t = pretty (t / 60) +:+ ":" +:+ padStart2 (pretty (t mod 60)) /\
     String.length (padStart2 (pretty (t mod 60))) = 2%nat /\
     unpad (padStart2 (pretty (t mod 60))) = pretty (t mod 60)).
  { intros t Ht. unfold formatTime. rewrite Z.rem_mod_nonneg by lia.
    split; [done|]. pose proof (Z.mod_pos_bound t 60 ltac:(lia)) as Hb.
    rewrite <- (Z2Nat.id (t mod 60)) by lia. apply two_characters. lia. }
  split.
  - destruct (Hshape seconds Hs) as (H1 & H2 & H3). eauto.
  - intros other Ho Heq.
    destruct (Hshape seconds Hs) as (H1 & H2 & H3).
    destruct (Hshape other Ho) as (G1 & G2 & G3).
    rewrite H1, G1 in Heq.
    apply string_app_inv_tail in Heq as [Hm Hrest].
    + apply (inj pretty) in Hm.
      apply (string_app_inv_tail ":" ":") in Hrest as [_ Hss]; [|congruence].
      assert (Hsec : pretty (other mod 60) = pretty (seconds mod 60)) by congruence.
      apply (inj pretty) in Hsec.
      rewrite (Z.div_mod other 60), (Z.div_mod seconds 60) by lia. lia.
    + rewrite !string_length_app. cbn. lia.
Qed.

Lemma formatTime_clock_witness :
  exists ss, formatTime 75 = pretty (75 / 60) +:+ ":" +:+ ss /\
    String.length ss = 2%nat /\ unpad ss = pretty (75 mod 60).
Proof. exact (proj1 (formatTime_clock 75 ltac:(lia))). Defined.

End ClockFacts.

(** ** Submitting the form *)

Section SubmitFacts.
Import CreatePost.
#[local] Arguments String.append !_ _ / : simpl nomatch.

(** X18.  For an analysis result of its declared type (the fields of
    [AIAnalysisResult] and no others), a submission produces a post exactly
    when the body text is not blank, no option is blank in the case of a
    poll, and the analysis found the content safe or the user confirmed.  The
    post has the kind and text of the form and the analysis result; it
    carries the image and audio of the form only as a text post, the video
    only as a video post, and poll options only as a poll: one per option of
    the form, with its label, in order, and no vote.  The form is then closed;
    when no post is produced it stays open with what was entered. *)
Theorem handleSubmit_accepts analyze confirm now st :
  let r := handleSubmit analyze confirm now st in
  let ai := analyze (text st) (image st) in
  (is_Some (snd r) <->
     ~ all_space (text st) /\
     (postType st = poll_post -> forall o, In o (pollOptions st) -> ~ all_space o) /\
     (ai_isSafe ai = true \/ confirm = true)) /\
  (forall post, snd r = Some post ->
     np_type post = postType st /\ np_text post = text st /\ np_ai post = ai /\
     (postType st = text_post -> np_image post = image st /\ np_audio post = audio st) /\
     (postType st <> text_post -> np_image post = None /\ np_audio post = None) /\
     (postType st = video_post -> np_video post = video st) /\
     (postType st <> video_post -> np_video post = None) /\
     (postType st <> poll_post -> np_pollOptions post = None) /\
     (postType st = poll_post ->
        exists os, np_pollOptions post = Some os /\
          List.map opt_text os = pollOptions st /\
          Forall (fun o => votes o = 0) os) /\
     closed (fst r) = true /\ isAnalyzing (fst r) = false) /\
  (snd r = None ->
     closed (fst r) = closed st /\ text (fst r) = text st /\
     pollOptions (fst r) = pollOptions st /\ postType (fst r) = postType st /\
     (image (fst r), audio (fst r), video (fst r)) = (image st, audio st, video st)).
Proof.
  intros r ai. subst r ai. unfold handleSubmit.
  destruct (blank (text st)) eqn:Eb.
  { apply blank_spec in Eb. cbn. split; [|split; [done|done]].
    split; [by intros []|]. intros [H _]. done. }
  apply blank_false in Eb.
  destruct (bool_decide (postType st = poll_post) && existsb blank (pollOptions st)) eqn:Ep.
  { apply andb_true_iff in Ep as [Ep Eo]. apply bool_decide_eq_true in Ep.
    cbn. split; [|split; [done|done]].
    split; [by intros []|]. intros (_ & H & _).
    apply existsb_exists in Eo as (o & Ho & Hbl). apply blank_spec in Hbl.
    by destruct (H Ep o Ho). }
  assert (Hopts : postType st = poll_post ->
                  forall o, In o (pollOptions st) -> ~ all_space o).
  { intros Hp. apply existsb_blank. rewrite Hp in Ep.
    rewrite bool_decide_eq_true_2 in Ep by done. done. }
  destruct (negb (ai_isSafe (analyze (text st) (image st))) && negb confirm) eqn:Es.
  { apply andb_true_iff in Es as [Es Ec]. apply negb_true_iff in Es, Ec.
    cbn. split; [|split; [done|done]].
    split; [by intros []|]. intros (_ & _ & [H|H]); congruence. }
  cbn [fst snd]. split; [|split; [|done]].
  - split; [intros _|eauto]. split; [done|]. split; [done|].
    apply andb_false_iff in Es as [Es|Es]; apply negb_false_iff in Es; tauto.
  - intros post [= <-]. cbn [np_type np_text np_ai np_image np_audio np_video
                              np_pollOptions closed isAnalyzing onClose setIsAnalyzing].
    pose proof (finalPollOptions_texts now (pollOptions st)) as Hpoll.
    destruct (postType st); cbn; repeat split; try done; try (intros; congruence).
    intros _. eexists. split; [reflexivity|exact Hpoll].
Qed.

End SubmitFacts.

(** ** Polls made with the form *)

Section FormPollFacts.
Import CreatePost.
#[local] Arguments String.append !_ _ / : simpl nomatch.

Lemma option_id_inj now (i j : nat) :
  (i < 4)%nat -> (j < 4)%nat ->
  "opt_" +:+ nat_to_string i +:+ "_" +:+ Z_to_string (now i)
  = "opt_" +:+ nat_to_string j +:+ "_" +:+ Z_to_string (now j) ->
  i = j.
Proof.
  intros Hi Hj.
  assert (H0 : nat_to_string 0 = "0") by (vm_compute; done).
  assert (H1 : nat_to_string 1 = "1") by (vm_compute; done).
  assert (H2 : nat_to_string 2 = "2") by (vm_compute; done).
  assert (H3 : nat_to_string 3 = "3") by (vm_compute; done).
  destruct i as [|[|[|[|i]]]]; [| | | |lia];
    (destruct j as [|[|[|[|j]]]]; [| | | |lia]);
    rewrite ?H0, ?H1, ?H2, ?H3; cbn; intros H; congruence.
Qed.

Lemma totalVotes_zero os :
  Forall (fun o => votes o = 0) os -> App.totalVotes os = 0.
Proof.
  induction 1 as [|o os Ho _ IH]; [done|]. rewrite totalVotes_cons. lia.
Qed.

(** X19.  A poll made with the form has between two and four options, with
    identifiers that are non-empty and pairwise distinct, and no vote yet.  So
    a vote for any of its options, as [handleVote] counts it, raises the vote
    of that option alone: the votes of the poll then add up to one. *)
Theorem form_poll_counts_one_vote analyze confirm now st post os :
  reachable st ->
  snd (handleSubmit analyze confirm now st) = Some post ->
  np_pollOptions post = Some os ->
  (2 <= length os <= 4)%nat /\
  List.NoDup (List.map opt_id os) /\
  Forall (fun o => opt_id o <> "") os /\
  App.totalVotes os = 0 /\
  (forall o, In o os ->
     App.totalVotes (List.map (App.vote_option (opt_id o)) os) = 1).
Proof.
  intros Hr Hs Hp.
  pose proof (handleSubmit_poll_options _ _ _ _ _ _ Hs Hp) as ->.
  pose proof (reachable_options_length st Hr) as Hlen.
  assert (Hl : length (finalPollOptions now (pollOptions st)) = length (pollOptions st)).
  { unfold finalPollOptions. apply length_imap. }
  assert (Hnd : List.NoDup (List.map opt_id (finalPollOptions now (pollOptions st)))).
  { apply NoDup_ListNoDup, NoDup_alt. intros i j x Hi Hj.
    change (List.map opt_id ?l) with (opt_id <$> l) in Hi, Hj.
    rewrite list_lookup_fmap, finalPollOptions_lookup in Hi, Hj.
    destruct (pollOptions st !! i) eqn:Ei; [|done].
    destruct (pollOptions st !! j) eqn:Ej; [|done].
    apply lookup_lt_Some in Ei, Ej.
    apply (option_id_inj now i j); [lia|lia|].
    apply (inj Some). exact (eq_trans Hi (eq_sym Hj)). }
  assert (Hz : Forall (fun o => votes o = 0) (finalPollOptions now (pollOptions st))).
  { apply Forall_lookup. intros k o Hk. rewrite finalPollOptions_lookup in Hk.
    destruct (pollOptions st !! k); [|done]. by injection Hk as <-. }
  split; [lia|]. split; [done|]. split.
  { apply List.Forall_forall. intros o Ho. by eapply finalPollOptions_ids. }
  split; [by apply totalVotes_zero|].
  intros o Ho. rewrite totalVotes_vote; [|done|by apply in_map].
  rewrite totalVotes_zero by done. done.
Qed.

Lemma poll_form_reachable : reachable SampleForm.poll_form.
Proof.
  pose proof reach_init as H0.
  pose proof (reach_step (SetText "tea or coffee?") _ _ H0 eq_refl) as H1.
  pose proof (reach_step (SetPostType poll_post) _ _ H1 eq_refl) as H2.
  pose proof (reach_step (OptionChange 0 "tea") _ _ H2 eq_refl) as H3.
  exact (reach_step (OptionChange 1 "coffee") _ _ H3 eq_refl).
Qed.

Lemma form_poll_counts_one_vote_witness :
  List.NoDup (List.map opt_id (finalPollOptions (fun _ => 7) ["tea"; "coffee"])).
Proof.
  exact (proj1 (proj2
    (form_poll_counts_one_vote (fun _ _ => fallback_result) true (fun _ => 7)
       SampleForm.poll_form
       (mkNewPost poll_post "tea or coffee?" None None None
          (Some (finalPollOptions (fun _ => 7) ["tea"; "coffee"])) fallback_result)
       (finalPollOptions (fun _ => 7) ["tea"; "coffee"])
       poll_form_reachable eq_refl eq_refl))).
Defined.

End FormPollFacts.

(** ** The photo gallery *)

Section GalleryFacts.
Import Matchmaker.
Context {Num : Type}.
Implicit Types (st : State Num) (p : SavedPhoto Num).


(** X21.  The filter button goes round the four filters: from any filter,
    four presses visit the three others and come back to it. *)
Theorem cycleFilter_goes_round m :
  exists m1 m2 m3,
    cycleFilter m = Some m1 /\ cycleFilter m1 = Some m2 /\
    cycleFilter m2 = Some m3 /\ cycleFilter m3 = Some m /\
    List.NoDup [m; m1; m2; m3].
Proof.
  destruct m; eexists _, _, _; (repeat split; [vm_compute; reflexivity..|]);
    repeat constructor; cbn; intuition discriminate.
Qed.

End GalleryFacts.
